(** * find-gene: the caching and aggregation workflow of [workflow.py]

    A shallow embedding of the Python script and the proofs of its
    specification.  The script is sequential; its only state is the file
    system and the external tools it spawns, so the embedding is a state and
    exception monad over a world made of a finite map of files, the hidden
    state of the outside and a trace of what the script did.

    Modelling conventions.
    - A Python [str] is a [string]; a character is a code point below 256.
    - The file system is a finite map from the string of a path to the text
      of the file.  Directories are implicit: [mkdir] is recorded in the
      trace only and a write never fails.  Two different path strings are
      two different files.
    - The cumulative report is written through a buffered [csv.writer]; the
      model keeps it apart from the other files, as the rows written so far.
    - The external tools ([get_ref.sh], [makeblastdb], [blastn]) are one
      unknown function [spawn] of the command line, the files and the hidden
      outside state. *)

From Stdlib Require Import Ascii String.
From stdpp Require Import base option list strings gmap pretty.

Open Scope stdpp_scope.

(** ** Python strings *)

Module Str.

Definition LF : ascii := "010"%char.
Definition CR : ascii := "013"%char.
Definition TAB : ascii := "009"%char.

Definition code (c : ascii) : nat := nat_of_ascii c.

(** [str.isspace] on the code points below 256. *)
Definition isspace (c : ascii) : bool :=
  let n := code c in
  ((9 <=? n) && (n <=? 13)) || ((28 <=? n) && (n <=? 32))
  || (n =? 133) || (n =? 160).

Fixpoint lstrip (s : string) : string :=
  match s with
  | String c s' => if isspace c then lstrip s' else s
  | EmptyString => EmptyString
  end.

Fixpoint rstrip (s : string) : string :=
  match s with
  | String c s' =>
      match rstrip s' with
      | EmptyString => if isspace c then EmptyString else String c EmptyString
      | r => String c r
      end
  | EmptyString => EmptyString
  end.

(** [s.strip()] *)
Definition strip (s : string) : string := rstrip (lstrip s).

(** [s.startswith(p)] *)
Definition startswith (s p : string) : bool := String.prefix p s.

(** [s.split(sep)] for a separator of one character. *)
Fixpoint split (sep : ascii) (s : string) : list string :=
  match s with
  | EmptyString => [EmptyString]
  | String c s' =>
      if Ascii.eqb c sep then EmptyString :: split sep s'
      else match split sep s' with
           | h :: t => String c h :: t
           | [] => [String c EmptyString]
           end
  end.

(** [sep.join(l)] *)
Definition join (sep : string) (l : list string) : string :=
  String.concat sep l.

(** The line boundaries of [str.splitlines] below code point 256:
    LF, VT, FF, CR, FS, GS, RS and NEL. *)
Definition is_linebreak (c : ascii) : bool :=
  let n := code c in
  ((10 <=? n) && (n <=? 13)) || ((28 <=? n) && (n <=? 30)) || (n =? 133).

(** [s.splitlines()]: CR LF is one boundary, and a boundary at the very
    end opens no further line.  [after_cr] tells that the previous
    character was a CR, whose boundary a following LF belongs to. *)
Fixpoint splitlines_go (after_cr : bool) (s : string) : list string :=
  match s with
  | EmptyString => []
  | String c s' =>
      if after_cr && Ascii.eqb c LF then splitlines_go false s'
      else if is_linebreak c then
        EmptyString :: splitlines_go (Ascii.eqb c CR) s'
      else match splitlines_go false s' with
           | l :: ls => String c l :: ls
           | [] => [String c EmptyString]
           end
  end.

Definition splitlines (s : string) : list string := splitlines_go false s.

(** Reading a file in text mode translates CR LF and CR to LF. *)
Fixpoint universal_newlines_go (after_cr : bool) (s : string) : string :=
  match s with
  | EmptyString => EmptyString
  | String c s' =>
      if Ascii.eqb c CR then String LF (universal_newlines_go true s')
      else if Ascii.eqb c LF then
        if after_cr then universal_newlines_go false s'
        else String LF (universal_newlines_go false s')
      else String c (universal_newlines_go false s')
  end.

Definition universal_newlines (s : string) : string :=
  universal_newlines_go false s.

(** [s[:n]] *)
Fixpoint take (n : nat) (s : string) : string :=
  match n, s with
  | S n', String c s' => String c (take n' s')
  | _, _ => EmptyString
  end.

(** [[x] * n] *)
Definition repeat (x : string) (n : nat) : list string := replicate n x.

End Str.

(** ** The fragment of [re] the script uses *)

Module Re.

(** One character of a pattern: a literal or a bracket expression given
    by its ranges. *)
Inductive atom :=
| Lit (c : ascii)
| Class (negate : bool) (ranges : list (ascii * ascii)).

Inductive regex :=
| Atom (a : atom)
| Cat (r1 r2 : regex)
| Alt (r1 r2 : regex)
| Opt (r : regex)
| Plus (a : atom)
| Dollar
| Eps.

(** Lower case of the letters A-Z.  No other code point below 256 folds
    onto an ASCII letter, so this is what [re.IGNORECASE] compares for a
    pattern made of ASCII letters. *)
Definition lower (c : ascii) : ascii :=
  let n := Str.code c in
  if (65 <=? n) && (n <=? 90) then ascii_of_nat (n + 32) else c.

Definition in_range (c : ascii) (r : ascii * ascii) : bool :=
  (Str.code (fst r) <=? Str.code c) && (Str.code c <=? Str.code (snd r)).

Definition atom_match (ignorecase : bool) (a : atom) (c : ascii) : bool :=
  match a with
  | Lit x => if ignorecase then Ascii.eqb (lower c) (lower x) else Ascii.eqb c x
  | Class negate ranges => xorb negate (existsb (in_range c) ranges)
  end.

(** Greedy [a+]: take as many characters as match, give back one at a
    time while the rest of the pattern fails. *)
Fixpoint plus_match (ic : bool) (a : atom) (s : string)
    (k : string -> option string) : option string :=
  match s with
  | String c s' =>
      if atom_match ic a c then
        match plus_match ic a s' k with
        | Some rest => Some rest
        | None => k s'
        end
      else None
  | EmptyString => None
  end.

(** Backtracking match of [r] at the start of [s]; the continuation [k]
    is the rest of the pattern and the result is what follows the match.
    Alternatives are tried from the left, [?] prefers to match.  Without
    [re.MULTILINE], [$] holds at the end of the string and just before a
    line feed that ends the string. *)
Fixpoint rmatch (ic : bool) (r : regex) (s : string)
    (k : string -> option string) : option string :=
  match r with
  | Atom a =>
      match s with
      | String c s' => if atom_match ic a c then k s' else None
      | EmptyString => None
      end
  | Cat r1 r2 => rmatch ic r1 s (fun s' => rmatch ic r2 s' k)
  | Alt r1 r2 =>
      match rmatch ic r1 s k with
      | Some rest => Some rest
      | None => rmatch ic r2 s k
      end
  | Opt r1 =>
      match rmatch ic r1 s k with
      | Some rest => Some rest
      | None => k s
      end
  | Plus a => plus_match ic a s k
  | Dollar =>
      match s with
      | EmptyString => k s
      | String c EmptyString => if Ascii.eqb c Str.LF then k s else None
      | _ => None
      end
  | Eps => k s
  end.

(** [re.sub]: the leftmost match is replaced and the scan goes on behind
    it; an empty match is replaced and one character is copied. *)
Fixpoint sub_go (fuel : nat) (ic : bool) (r : regex) (repl s : string)
    : string :=
  match fuel with
  | 0 => s
  | S fuel' =>
      let copy :=
        match s with
        | String c s' => String c (sub_go fuel' ic r repl s')
        | EmptyString => EmptyString
        end in
      match rmatch ic r s Some with
      | Some rest =>
          if String.length rest <? String.length s
          then repl +:+ sub_go fuel' ic r repl rest
          else repl +:+ copy
      | None => copy
      end
  end.

Definition sub (ic : bool) (r : regex) (repl s : string) : string :=
  sub_go (S (String.length s)) ic r repl s.

(** A literal word. *)
Fixpoint word (w : string) : regex :=
  match w with
  | String c w' => Cat (Atom (Lit c)) (word w')
  | EmptyString => Eps
  end.

End Re.

(** ** The fragment of [pathlib] the script uses *)

Module Pathlib.

(** A [PurePosixPath]: the root ([""], ["/"] or ["//"]) and the
    components behind it. *)
Record Path := MkPath { root : string; tail : list string }.

#[global] Instance Path_eq_dec : EqDecision Path.
Proof. solve_decision. Defined.

Definition is_part (x : string) : bool :=
  negb (String.eqb x "") && negb (String.eqb x ".").

Definition parse_root (s : string) : string :=
  match s with
  | String "/"%char (String "/"%char (String "/"%char _)) => "/"
  | String "/"%char (String "/"%char _) => "//"
  | String "/"%char _ => "/"
  | _ => ""
  end.

(** [Path(s)]: empty components and ["."] are dropped. *)
Definition parse (s : string) : Path :=
  MkPath (parse_root s) (filter (fun x => is_part x = true) (Str.split "/"%char s)).

(** [str(p)] *)
Definition str (p : Path) : string :=
  match root p, tail p with
  | EmptyString, [] => "."
  | r, t => r +:+ Str.join "/" t
  end.

(** [p / s] *)
Definition joinpath (p : Path) (s : string) : Path :=
  let q := parse s in
  if String.eqb (root q) "" then MkPath (root p) (tail p ++ tail q) else q.

(** [p.name] *)
Definition name (p : Path) : string := List.last (tail p) "".

(** Index of the last ["."] of [s], if any. *)
Fixpoint rfind_dot (s : string) : option nat :=
  match s with
  | EmptyString => None
  | String c s' =>
      match rfind_dot s' with
      | Some i => Some (S i)
      | None => if Ascii.eqb c "."%char then Some 0 else None
      end
  end.

Fixpoint drop (n : nat) (s : string) : string :=
  match n, s with
  | S n', String _ s' => drop n' s'
  | _, _ => s
  end.

(** [p.suffix]: from the last dot of the name on, unless the name starts
    or ends there. *)
Definition suffix (p : Path) : string :=
  let n := name p in
  match rfind_dot n with
  | Some i => if (0 <? i) && (i <? String.length n - 1) then drop i n else ""
  | None => ""
  end.

(** [p.with_suffix(suf)] for a well-formed [suf]: the suffix of the name
    is replaced, and [suf] is appended when the name has none.  A path
    with an empty name has no such sibling ([ValueError]). *)
Definition with_suffix (p : Path) (suf : string) : option Path :=
  let n := name p in
  if String.eqb n "" then None
  else
    let old := suffix p in
    let stem := Str.take (String.length n - String.length old) n in
    Some (MkPath (root p) (removelast (tail p) ++ [stem +:+ suf])).

(** [p.parent] *)
Definition parent (p : Path) : Path := MkPath (root p) (removelast (tail p)).

End Pathlib.

Export Pathlib (Path).

(** ** [sanitize_basename] *)

Definition word_chars : list (ascii * ascii) :=
  [("A", "Z"); ("a", "z"); ("0", "9"); (".", "."); ("_", "_"); ("-", "-")]%char.

(** [\.(fa|fna|fasta|fas)(\.gz)?$] *)
Definition suffix_re : Re.regex :=
  Re.Cat (Re.Atom (Re.Lit "."%char))
    (Re.Cat (Re.Alt (Re.word "fa")
              (Re.Alt (Re.word "fna")
                (Re.Alt (Re.word "fasta") (Re.word "fas"))))
      (Re.Cat (Re.Opt (Re.Cat (Re.Atom (Re.Lit "."%char)) (Re.word "gz")))
         Re.Dollar)).

(** [[^A-Za-z0-9._-]+] *)
Definition unsafe_re : Re.regex := Re.Plus (Re.Class true word_chars).

Definition sanitize_basename (path_str : string) : string :=
  let name := Pathlib.name (Pathlib.parse path_str) in
  let name := Re.sub true suffix_re "" name in
  let name := Re.sub false unsafe_re "_" name in
  name.

(** ** The world of the script *)

(** What a finished subprocess hands back. *)
Record proc := MkProc { returncode : Z; stdout : string; stderr : string }.

Inductive exn :=
| RuntimeError (msg : string)
| FileNotFoundError (msg : string)
| ValueError (msg : string)
| KeyError (key : string).

(** What the script does to the outside, in the order it does it.
    [EvShellOut] is a call of [shell_out] (the fetch tool), [EvRun] a call
    of [run] ([makeblastdb] and [blastn]). *)
Inductive event :=
| EvShellOut (cmd : list string)
| EvRun (cmd : list string)
| EvMkdir (dir : string)
| EvWriteText (file data : string)
| EvOpen (file : string)
| EvWriteRow (file : string) (row : list string)
| EvClose (file : string)
| EvPrint (line : string).

#[global] Instance event_eq_dec : EqDecision event.
Proof. solve_decision. Defined.

#[global] Instance Path_countable : Countable Path.
Proof.
  apply (inj_countable' (fun p => (Pathlib.root p, Pathlib.tail p))
           (fun x => Pathlib.MkPath (fst x) (snd x))).
  by intros [].
Defined.

(** The command-line arguments after [argparse]. *)
Record Args := MkArgs {
  assembly : list string;
  assembly_file : list string;
  accession : list string;
  accession_file : list string;
  get_ref : string;
  workdir : string;
  outdir : string;
  output : string
}.

Definition OUTFMT_COLUMNS : list string :=
  ["qseqid"; "sseqid"; "pident"; "length"; "qstart"; "qend";
   "sstart"; "send"; "evalue"; "bitscore"; "qlen"].

(** [header = ["comparison"] + OUTFMT_COLUMNS] *)
Definition header : list string := "comparison" :: OUTFMT_COLUMNS.

Section Monad.

(** The hidden state of the outside (network, clock, other processes). *)
Context {Env : Type}.

Record world := MkWorld {
  files : gmap string string;
  tables : gmap string (list (list string));
  outside : Env;
  trace : list event
}.

(** *** The state and exception monad *)

Definition M (A : Type) : Type := world -> (exn + A) * world.

Definition ret {A} (a : A) : M A := fun w => (inr a, w).

Definition raise {A} (e : exn) : M A := fun w => (inl e, w).

Definition bind {A B} (c : M A) (k : A -> M B) : M B :=
  fun w =>
    match c w with
    | (inr a, w') => k a w'
    | (inl e, w') => (inl e, w')
    end.

(** [try: c finally: h] *)
Definition finally {A} (c : M A) (h : world -> world) : M A :=
  fun w => let '(r, w') := c w in (r, h w').

Definition emit (e : event) (w : world) : world :=
  MkWorld (files w) (tables w) (outside w) (trace w ++ [e]).

Definition log (e : event) : M unit := fun w => (inr tt, emit e w).

Definition get_files : M (gmap string string) := fun w => (inr (files w), w).

Fixpoint for_ {A} (l : list A) (body : A -> M unit) : M unit :=
  match l with
  | [] => ret tt
  | x :: l' => bind (body x) (fun _ => for_ l' body)
  end.

End Monad.

Arguments world : clear implicits.
Arguments M : clear implicits.

Declare Scope wf_scope.
Delimit Scope wf_scope with wf.
Notation "x <- c ;; k" := (bind c (fun x => k))
  (at level 100, c at next level, right associativity) : wf_scope.
Notation "c ;; k" := (bind c (fun _ => k))
  (at level 100, right associativity) : wf_scope.
Open Scope wf_scope.

(** ** The script *)

Section Workflow.

Context {Env : Type}.

(** [subprocess.run(cmd, ...)]: the tool sees and changes the files and
    the outside, and hands back its status and output. *)
Variable spawn :
  list string -> gmap string string -> Env -> proc * gmap string string * Env.

(** [Path.resolve()]: the absolute path behind a path. *)
Variable resolve : Path -> Path.

Definition command_failed (cmd : list string) (p : proc) : string :=
  "Command failed (" +:+ pretty (returncode p) +:+ "): "
    +:+ Str.join " " cmd +:+ String Str.LF "STDOUT:" +:+ String Str.LF (stdout p)
    +:+ String Str.LF "STDERR:" +:+ String Str.LF (stderr p).

(** The subprocess itself, shared by [run] and [shell_out]. *)
Definition subprocess_run (e : event) (cmd : list string) : M Env proc :=
  fun w =>
    let '(p, fs, env) := spawn cmd (files w) (outside w) in
    (inr p, MkWorld fs (tables w) env (trace w ++ [e])).

Definition run (cmd : list string) : M Env unit :=
  proc <- subprocess_run (EvRun cmd) cmd ;;
  if bool_decide (returncode proc ≠ 0%Z)
  then raise (RuntimeError (command_failed cmd proc))
  else ret tt.

Definition shell_out (cmd : list string) : M Env string :=
  proc <- subprocess_run (EvShellOut cmd) cmd ;;
  if bool_decide (returncode proc ≠ 0%Z)
  then raise (RuntimeError (command_failed cmd proc))
  else ret (stdout proc).

Definition split_commas (values : list string) : list string :=
  flat_map
    (fun v => filter (fun p => p ≠ "") (map Str.strip (Str.split ","%char v)))
    values.

(** *** Files *)

(** [p.exists()] *)
Definition path_exists (fs : gmap string string) (p : Path) : bool :=
  bool_decide (is_Some (fs !! Pathlib.str p)).

(** [p.stat().st_size], read only behind [p.exists()]. *)
Definition st_size (fs : gmap string string) (p : Path) : nat :=
  match fs !! Pathlib.str p with
  | Some data => String.length data
  | None => 0
  end.

(** [p.exists() and p.stat().st_size > 0] *)
Definition present (fs : gmap string string) (p : Path) : bool :=
  path_exists fs p && (0 <? st_size fs p).

(** [p.read_text()] *)
Definition read_text (p : Path) : M Env string :=
  fs <- get_files ;;
  match fs !! Pathlib.str p with
  | Some data => ret (Str.universal_newlines data)
  | None => raise (FileNotFoundError (Pathlib.str p))
  end.

(** [p.write_text(data)] *)
Definition write_text (p : Path) (data : string) : M Env unit :=
  fun w =>
    (inr tt,
     MkWorld (<[Pathlib.str p := data]> (files w)) (tables w) (outside w)
       (trace w ++ [EvWriteText (Pathlib.str p) data])).

(** [p.mkdir(parents=True, exist_ok=True)] *)
Definition mkdir (p : Path) : M Env unit := log (EvMkdir (Pathlib.str p)).

(** [p.open("w")]: the file is created or emptied. *)
Definition open_w (p : Path) : M Env unit :=
  fun w =>
    (inr tt,
     MkWorld (files w) (<[Pathlib.str p := []]> (tables w)) (outside w)
       (trace w ++ [EvOpen (Pathlib.str p)])).

(** [writer.writerow(row)] on the file opened at [p]. *)
Definition writerow (p : Path) (row : list string) : M Env unit :=
  fun w =>
    (inr tt,
     MkWorld (files w)
       (<[Pathlib.str p := default [] (tables w !! Pathlib.str p) ++ [row]]>
          (tables w))
       (outside w) (trace w ++ [EvWriteRow (Pathlib.str p) row])).

(** *** Input lists *)

(** The lines of a list file that count. *)
Definition list_items (text : string) : list string :=
  filter (fun s => s ≠ "" ∧ Str.startswith s "#" = false)
    (map Str.strip (Str.splitlines text)).

Fixpoint read_list_files (files_ : list string) : M Env (list string) :=
  match files_ with
  | [] => ret []
  | fp :: rest =>
      let p := Pathlib.parse fp in
      fs <- get_files ;;
      if negb (path_exists fs p)
      then raise (FileNotFoundError ("List file not found: " +:+ fp))
      else
        text <- read_text p ;;
        items <- read_list_files rest ;;
        ret (list_items text ++ items)
  end.

(** *** The caches *)

Definition not_fasta (accession fasta : string) : string :=
  "Downloaded content for " +:+ accession +:+ " does not look like FASTA."
    +:+ String Str.LF "First 200 chars:" +:+ String Str.LF (Str.take 200 fasta).

Definition fasta_path_of (queries_dir : Path) (accession : string) : Path :=
  Pathlib.joinpath queries_dir (accession +:+ ".fasta").

Definition ensure_fasta_download (get_ref_path accession : string)
    (queries_dir : Path) : M Env Path :=
  mkdir queries_dir ;;
  let fasta_path := fasta_path_of queries_dir accession in
  fs <- get_files ;;
  if present fs fasta_path then ret fasta_path
  else
    fasta <- shell_out [get_ref_path; accession] ;;
    if negb (Str.startswith fasta ">")
    then raise (RuntimeError (not_fasta accession fasta))
    else
      write_text fasta_path fasta ;;
      ret fasta_path.

Definition db_suffixes : list string := [".nhr"; ".nin"; ".nsq"].

Definition db_exists (db_prefix : Path) : M Env bool :=
  match mapM (Pathlib.with_suffix db_prefix) db_suffixes with
  | Some needed =>
      fs <- get_files ;;
      ret (forallb (present fs) needed)
  | None => raise (ValueError (Pathlib.str db_prefix +:+ " has an empty name"))
  end.

Definition makeblastdb_cmd (assembly_path db_prefix : Path) : list string :=
  ["makeblastdb"; "-in"; Pathlib.str assembly_path; "-dbtype"; "nucl";
   "-parse_seqids"; "-out"; Pathlib.str db_prefix].

Definition make_db_if_needed (assembly_path db_prefix : Path) : M Env unit :=
  mkdir (Pathlib.parent db_prefix) ;;
  hit <- db_exists db_prefix ;;
  if hit then ret tt
  else run (makeblastdb_cmd assembly_path db_prefix).

Definition blastn_cmd (query_fasta db_prefix out_tsv : Path) : list string :=
  let outfmt := "6 " +:+ Str.join " " OUTFMT_COLUMNS in
  ["blastn"; "-query"; Pathlib.str query_fasta; "-db"; Pathlib.str db_prefix;
   "-outfmt"; outfmt; "-max_target_seqs"; "20"; "-evalue"; "1e-20";
   "-out"; Pathlib.str out_tsv].

Definition blast_one (query_fasta db_prefix out_tsv : Path) : M Env unit :=
  run (blastn_cmd query_fasta db_prefix out_tsv).

(** *** [main] *)

(** [d[k]] *)
Definition dict_get {K V} `{Countable K} (d : gmap K V) (k : K)
    (shown : string) : M Env V :=
  match d !! k with
  | Some v => ret v
  | None => raise (KeyError shown)
  end.

(** [print(line)] *)
Definition print (line : string) : M Env unit := log (EvPrint line).

(** The existence check of the resolved assembly paths. *)
Definition check_assemblies (assemblies_paths : list Path) : M Env unit :=
  for_ assemblies_paths (fun p =>
    fs <- get_files ;;
    if negb (path_exists fs p)
    then raise (FileNotFoundError ("Assembly not found: " +:+ Pathlib.str p))
    else ret tt).

(** The loop that downloads the queries or finds them in the cache. *)
Fixpoint download_queries (get_ref_path : string) (queries_dir : Path)
    (accessions : list string) (accession_to_fasta : gmap string Path)
    : M Env (gmap string Path) :=
  match accessions with
  | [] => ret accession_to_fasta
  | acc :: rest =>
      p <- ensure_fasta_download get_ref_path acc queries_dir ;;
      download_queries get_ref_path queries_dir rest
        (<[acc := p]> accession_to_fasta)
  end.

Definition db_prefix_of (db_dir asm_path : Path) : Path :=
  let asm_name := sanitize_basename (Pathlib.str asm_path) in
  Pathlib.joinpath db_dir (asm_name +:+ "_asm_db").

(** The loop that builds the databases or finds them in the cache. *)
Fixpoint build_dbs (db_dir : Path) (assemblies_paths : list Path)
    (assembly_to_dbprefix : gmap Path Path) : M Env (gmap Path Path) :=
  match assemblies_paths with
  | [] => ret assembly_to_dbprefix
  | asm_path :: rest =>
      let db_prefix := db_prefix_of db_dir asm_path in
      make_db_if_needed asm_path db_prefix ;;
      build_dbs db_dir rest (<[asm_path := db_prefix]> assembly_to_dbprefix)
  end.

Definition comparison_of (acc : string) (asm_path : Path) : string :=
  let asm_name := sanitize_basename (Pathlib.str asm_path) in
  acc +:+ "_vs_" +:+ asm_name +:+ "_asm_db".

Definition placeholder (comparison : string) : list string :=
  comparison :: Str.repeat "" (length OUTFMT_COLUMNS).

(** The rows of one result file, line by line. *)
Definition write_hits (out_path : Path) (comparison : string)
    (lines : list string) : M Env unit :=
  for_ lines (fun line =>
    if String.eqb (Str.strip line) "" then ret tt
    else writerow out_path (comparison :: Str.split Str.TAB line)).

(** The body of the inner loop: one search and its rows. *)
Definition compare_pair (out_path tmp_dir qf : Path)
    (assembly_to_dbprefix : gmap Path Path) (acc : string) (asm_path : Path)
    : M Env unit :=
  let comparison := comparison_of acc asm_path in
  db_prefix <- dict_get assembly_to_dbprefix asm_path (Pathlib.str asm_path) ;;
  let tmp_out := Pathlib.joinpath tmp_dir (comparison +:+ ".tsv") in
  blast_one qf db_prefix tmp_out ;;
  fs <- get_files ;;
  if present fs tmp_out then
    text <- read_text tmp_out ;;
    write_hits out_path comparison (Str.splitlines text)
  else
    writerow out_path (placeholder comparison).

(** The block under [with out_path.open("w")]. *)
Definition write_cumulative (out_path tmp_dir : Path)
    (accessions : list string) (assemblies_paths : list Path)
    (accession_to_fasta : gmap string Path)
    (assembly_to_dbprefix : gmap Path Path) : M Env unit :=
  writerow out_path header ;;
  for_ accessions (fun acc =>
    qf <- dict_get accession_to_fasta acc acc ;;
    for_ assemblies_paths
      (compare_pair out_path tmp_dir qf assembly_to_dbprefix acc)).

(** The two input lists, as [main] assembles them. *)
Definition read_inputs (args : Args) : M Env (list string * list string) :=
  from_A <- read_list_files (assembly_file args) ;;
  let assemblies := split_commas (assembly args) ++ from_A in
  from_I <- read_list_files (accession_file args) ;;
  let accessions := split_commas (accession args) ++ from_I in
  ret (assemblies, accessions).

Definition workdir_of (args : Args) : Path :=
  resolve (Pathlib.parse (workdir args)).
Definition queries_dir_of (args : Args) : Path :=
  Pathlib.joinpath (workdir_of args) "queries".
Definition db_dir_of (args : Args) : Path :=
  Pathlib.joinpath (workdir_of args) "blastdb".
Definition tmp_dir_of (args : Args) : Path :=
  Pathlib.joinpath (workdir_of args) "tmp".
Definition outdir_of (args : Args) : Path :=
  resolve (Pathlib.parse (outdir args)).
Definition out_path_of (args : Args) : Path :=
  Pathlib.joinpath (outdir_of args) (output args).

(** [main] from the creation of the directories on. *)
Definition pipeline (args : Args) (assemblies_paths : list Path)
    (accessions : list string) : M Env Z :=
  let workdir := workdir_of args in
  let queries_dir := queries_dir_of args in
  let db_dir := db_dir_of args in
  let tmp_dir := tmp_dir_of args in
  mkdir tmp_dir ;;
  let outdir := outdir_of args in
  mkdir outdir ;;
  let out_path := out_path_of args in
  accession_to_fasta <-
    download_queries (get_ref args) queries_dir accessions ∅ ;;
  assembly_to_dbprefix <- build_dbs db_dir assemblies_paths ∅ ;;
  open_w out_path ;;
  finally
    (write_cumulative out_path tmp_dir accessions assemblies_paths
       accession_to_fasta assembly_to_dbprefix)
    (emit (EvClose (Pathlib.str out_path))) ;;
  print ("Done. Cumulative results: " +:+ Pathlib.str out_path) ;;
  print ("Cached workdir: " +:+ Pathlib.str workdir) ;;
  ret 0%Z.

Definition resolve_all (assemblies : list string) : list Path :=
  map (fun a => resolve (Pathlib.parse a)) assemblies.

Definition main (args : Args) : M Env Z :=
  inputs <- read_inputs args ;;
  let '(assemblies, accessions) := inputs in
  if bool_decide (assemblies = [])
  then raise (ValueError "No assemblies provided. Use -a and/or -A.")
  else if bool_decide (accessions = [])
  then raise (ValueError "No accessions provided. Use -i and/or -I.")
  else
    let assemblies_paths := resolve_all assemblies in
    check_assemblies assemblies_paths ;;
    pipeline args assemblies_paths accessions.

End Workflow.

(** ** The rows of one comparison *)

(** The rows of the lines of a result file: one for each line that is not
    blank, the line split at the tabs behind the label. *)
Definition hit_rows (comparison : string) (lines : list string)
    : list (list string) :=
  (fun line => comparison :: Str.split Str.TAB line)
    <$> filter (fun line => Str.strip line ≠ "") lines.

(** What the inner loop of [main] writes for one pair, from the files as
    the search left them. *)
Definition pair_rows (fs : gmap string string) (tmp_out : Path)
    (comparison : string) : list (list string) :=
  if present fs tmp_out then
    match fs !! Pathlib.str tmp_out with
    | Some data =>
        hit_rows comparison (Str.splitlines (Str.universal_newlines data))
    | None => []
    end
  else [placeholder comparison].

Definition tmp_out_of (tmp_dir : Path) (acc : string) (asm_path : Path) : Path :=
  Pathlib.joinpath tmp_dir (comparison_of acc asm_path +:+ ".tsv").

(** One item for each pair, the accessions outside and the assemblies
    inside, as the two loops of [main] go. *)
Definition all_pairs {A B C} (f : A -> B -> C) (xs : list A) (ys : list B)
    : list C :=
  flat_map (fun x => map (f x) ys) xs.

(** ** Concrete tools, for examples *)

Module Toy.

(** A fetch tool that prints [fetched acc], an index builder that writes
    the three companion files next to its [-out] prefix, and a search
    tool that writes [hits] to its [-out] file, or no file at all.  Both
    tools of [run] are given [-out] last. *)
Definition tools (fetched : string -> string) (hits : option string)
    (blast_status : Z) (cmd : list string) (fs : gmap string string)
    (env : unit) : proc * gmap string string * unit :=
  match cmd with
  | "makeblastdb" :: _ =>
      let out := List.last cmd "" in
      (MkProc 0 "" "",
       <[out +:+ ".nhr" := "h"]>
         (<[out +:+ ".nin" := "i"]> (<[out +:+ ".nsq" := "s"]> fs)),
       env)
  | "blastn" :: _ =>
      let out := List.last cmd "" in
      (MkProc blast_status "" "",
       match hits with Some h => <[out := h]> fs | None => fs end,
       env)
  | [_; acc] => (MkProc 0 (fetched acc) "", fs, env)
  | _ => (MkProc 1 "" "unknown tool", fs, env)
  end.

Definition fasta_of (acc : string) : string := ">" +:+ acc.

Definition world_with (fs : gmap string string) : world unit :=
  MkWorld fs ∅ tt [].

Definition args_of (assemblies accessions : list string) : Args :=
  MkArgs assemblies [] accessions [] "get_ref.sh" "/w" "/out"
    "cumulative_results.tsv".

Definition report (w : world unit) : option (list (list string)) :=
  tables w !! "/out/cumulative_results.tsv".

(** The same tools, with a search that fails when its query is [bad]. *)
Definition flaky (fetched : string -> string) (hits : option string)
    (bad : string) (cmd : list string) (fs : gmap string string)
    (env : unit) : proc * gmap string string * unit :=
  match cmd with
  | "blastn" :: _ :: query :: _ =>
      if String.eqb query bad then (MkProc 1 "" "no such database", fs, env)
      else tools fetched hits 0 cmd fs env
  | _ => tools fetched hits 0 cmd fs env
  end.

End Toy.

(** ** Reading the trace *)

(** The commands given to [shell_out], in order. *)
Definition shell_outs (evs : list event) : list (list string) :=
  omap (fun e => match e with EvShellOut cmd => Some cmd | _ => None end) evs.

(** The command lines given to [run] for the tool [tool], in order. *)
Definition runs_of (tool : string) (evs : list event) : list (list string) :=
  omap (fun e =>
          match e with
          | EvRun cmd => if decide (head cmd = Some tool) then Some cmd else None
          | _ => None
          end) evs.

(** The command lines of the searches. *)
Definition blast_runs : list event -> list (list string) := runs_of "blastn".

(** The command lines of the index builds. *)
Definition makedb_runs : list event -> list (list string) :=
  runs_of "makeblastdb".

(** What [main] can do before it opens the report: create directories,
    fetch, cache a download, build an index. *)
Definition before_report (e : event) : Prop :=
  match e with
  | EvMkdir _ | EvShellOut _ | EvWriteText _ _ => True
  | EvRun cmd => head cmd = Some "makeblastdb"
  | _ => False
  end.

(** What [main] can do once the report is open: search, write a row,
    close, print. *)
Definition after_report (e : event) : Prop :=
  match e with
  | EvWriteRow _ _ | EvClose _ | EvPrint _ => True
  | EvRun cmd => head cmd = Some "blastn"
  | _ => False
  end.

(** The events of the three loops of [main]. *)
Definition fetch_event (e : event) : Prop :=
  match e with
  | EvMkdir _ | EvShellOut _ | EvWriteText _ _ => True
  | _ => False
  end.

Definition build_event (e : event) : Prop :=
  match e with
  | EvMkdir _ => True
  | EvRun cmd => head cmd = Some "makeblastdb"
  | _ => False
  end.

Definition search_event (e : event) : Prop :=
  match e with
  | EvWriteRow _ _ => True
  | EvRun cmd => head cmd = Some "blastn"
  | _ => False
  end.

Definition no_fetch (e : event) : Prop :=
  match e with EvShellOut _ => False | _ => True end.

Definition is_run (e : event) : Prop :=
  match e with EvRun _ => True | _ => False end.

(** A file that is there and not empty. *)
Definition nonempty_at (fs : gmap string string) (key : string) : bool :=
  match fs !! key with
  | Some data => 0 <? String.length data
  | None => false
  end.

(** ** What the proofs ask of the tools *)

Section Tools.

Context {Env : Type}.
Variable spawn :
  list string -> gmap string string -> Env -> proc * gmap string string * Env.
Variable resolve : Path -> Path.

(** The fetch tool neither removes nor empties a file. *)
Definition keeps_files (g : string) : Prop :=
  forall acc fs env key,
    nonempty_at fs key = true ->
    nonempty_at (spawn [g; acc] fs env).1.2 key = true.

(** The search tool leaves no result behind: no file, or an empty one. *)
Definition no_hits : Prop :=
  forall q db out fs env,
    present (spawn (blastn_cmd q db out) fs env).1.2 out = false.

(** The command line of the search of one pair. *)
Definition search_cmd (args : Args) (acc : string) (asm_path : Path)
    : list string :=
  blastn_cmd (fasta_path_of (queries_dir_of resolve args) acc)
    (db_prefix_of (db_dir_of resolve args) asm_path)
    (tmp_out_of (tmp_dir_of resolve args) acc asm_path).

End Tools.

(** ** The specification's words *)

Module Spec.

(** The recognised endings of a sequence file, in lower case. *)
Definition endings : list string :=
  [".fa"; ".fna"; ".fasta"; ".fas";
   ".fa.gz"; ".fna.gz"; ".fasta.gz"; ".fas.gz"].

Fixpoint lower_string (s : string) : string :=
  match s with
  | String c s' => String (Re.lower c) (lower_string s')
  | EmptyString => EmptyString
  end.

(** [s] without its ending [e], if it ends so whatever the case. *)
Fixpoint chop (e s : string) : option string :=
  if String.eqb (lower_string s) e then Some EmptyString
  else match s with
       | String c s' => String c <$> chop e s'
       | EmptyString => None
       end.

(** Strip one trailing recognised ending. *)
Definition strip_ending (name : string) : string :=
  match omap (fun e => chop e name) endings with
  | stem :: _ => stem
  | [] => name
  end.

Definition safe (c : ascii) : bool := existsb (Re.in_range c) word_chars.

(** Every run of unsafe characters becomes one underscore. *)
Fixpoint squash (in_run : bool) (s : string) : string :=
  match s with
  | String c s' =>
      if safe c then String c (squash false s')
      else if in_run then squash true s'
      else String "_"%char (squash true s')
  | EmptyString => EmptyString
  end.

Definition sanitize (path : string) : string :=
  squash false (strip_ending (Pathlib.name (Pathlib.parse path))).

(** The first character of a line that is not white space. *)
Fixpoint first_non_space (line : string) : option ascii :=
  match line with
  | String c s' => if Str.isspace c then first_non_space s' else Some c
  | EmptyString => None
  end.

(** A line of a list file counts unless it is blank or a comment. *)
Definition counts (line : string) : bool :=
  match first_non_space line with
  | Some c => negb (Ascii.eqb c "#"%char)
  | None => false
  end.

(** The items a list file lists. *)
Definition listed (fs : gmap string string) (fp : string) : list string :=
  match fs !! Pathlib.str (Pathlib.parse fp) with
  | Some data =>
      map Str.strip
        (filter (fun l => counts l = true)
           (Str.splitlines (Str.universal_newlines data)))
  | None => []
  end.

Definition missing (fs : gmap string string) (p : Path) : bool :=
  negb (bool_decide (is_Some (fs !! Pathlib.str p))).

Section Inputs.

Variable resolve : Path -> Path.
Variable args : Args.
Variable fs : gmap string string.

Definition assemblies : list string :=
  split_commas (assembly args) ++ flat_map (listed fs) (assembly_file args).

Definition accessions : list string :=
  split_commas (accession args) ++ flat_map (listed fs) (accession_file args).

Definition list_files : list string :=
  assembly_file args ++ accession_file args.

(** The input errors, in the order [main] meets them. *)
Inductive input_fault : exn -> Prop :=
| fault_list_file fp :
    find (fun fp => missing fs (Pathlib.parse fp)) list_files = Some fp ->
    input_fault (FileNotFoundError ("List file not found: " +:+ fp))
| fault_no_assembly :
    find (fun fp => missing fs (Pathlib.parse fp)) list_files = None ->
    assemblies = [] ->
    input_fault (ValueError "No assemblies provided. Use -a and/or -A.")
| fault_no_accession :
    find (fun fp => missing fs (Pathlib.parse fp)) list_files = None ->
    assemblies <> [] ->
    accessions = [] ->
    input_fault (ValueError "No accessions provided. Use -i and/or -I.")
| fault_assembly p :
    find (fun fp => missing fs (Pathlib.parse fp)) list_files = None ->
    assemblies <> [] ->
    accessions <> [] ->
    find (missing fs)
      (map (fun a => resolve (Pathlib.parse a)) assemblies) = Some p ->
    input_fault (FileNotFoundError ("Assembly not found: " +:+ Pathlib.str p)).

End Inputs.

(** The companion files of an index, by the persisted state layout: each
    tool suffix appended to the full prefix. *)
Definition companion_files (db_prefix : Path) : list string :=
  map (fun suf => Pathlib.str db_prefix +:+ suf) db_suffixes.

Definition index_cached (fs : gmap string string) (db_prefix : Path) : bool :=
  forallb (nonempty_at fs) (companion_files db_prefix).

End Spec.

(** ** Reading the two patterns *)

(** A character the second pattern of [sanitize_basename] takes. *)
Definition unsafe (c : ascii) : bool :=
  Re.atom_match false (Re.Class true word_chars) c.

(** [s] behind its first run of unsafe characters. *)
Fixpoint drop_run (s : string) : string :=
  match s with
  | String c s' => if unsafe c then drop_run s' else s
  | EmptyString => EmptyString
  end.

(** [s] behind the word [w] at its start, whatever the case. *)
Fixpoint strip_ci (w s : string) : option string :=
  match w with
  | EmptyString => Some s
  | String x w' =>
      match s with
      | String c s' =>
          if Ascii.eqb (Re.lower c) (Re.lower x) then strip_ci w' s' else None
      | EmptyString => None
      end
  end.

(** Where [$] holds. *)
Definition dollar (s : string) : option string :=
  match s with
  | EmptyString => Some s
  | String c EmptyString => if Ascii.eqb c Str.LF then Some s else None
  | _ => None
  end.

(** [s] ends with a line feed. *)
Fixpoint last_is_lf (s : string) : bool :=
  match s with
  | EmptyString => false
  | String c EmptyString => Ascii.eqb c Str.LF
  | String _ s' => last_is_lf s'
  end.

(** [s] is, whatever the case, one of the recognised endings. *)
Definition ends (s : string) : bool :=
  existsb (String.eqb (Spec.lower_string s)) Spec.endings.

Definition is_empty (t : string) : option string :=
  if String.eqb t "" then Some "" else None.

(** The first pattern, tried at the start of [s]. *)
Definition suffix_match (s : string) : option string :=
  Re.rmatch true suffix_re s Some.

(** The end of the first pattern: [(\.gz)?$]. *)
Definition gz_re : Re.regex :=
  Re.Cat (Re.Opt (Re.Cat (Re.Atom (Re.Lit "."%char)) (Re.word "gz"))) Re.Dollar.

Definition gz_tail (t : string) : option string :=
  match strip_ci ".gz" t ≫= is_empty with
  | Some r => Some r
  | None => is_empty t
  end.

(** The strings that end [s] and are shorter. *)
Fixpoint tails (s : string) : list string :=
  match s with
  | String _ r => r :: tails r
  | EmptyString => []
  end.

(** Every character of [s] satisfies [P]. *)
Fixpoint all_chars (P : ascii -> bool) (s : string) : bool :=
  match s with
  | String c s' => P c && all_chars P s'
  | EmptyString => true
  end.

(** ** Reading names and places *)

(** No character of [s] is [sep]. *)
Definition free_of (sep : ascii) (s : string) : bool :=
  all_chars (fun c => negb (Ascii.eqb c sep)) s.

(** A component a path keeps: not empty, not the dot, free of slashes. *)
Definition component (n : string) : Prop :=
  n <> "" /\ n <> "." /\ free_of "/"%char n = true.

(** The key has a dot behind its first character. *)
Definition inner_dot (key : string) : bool :=
  match Pathlib.rfind_dot key with
  | Some (S _) => true
  | _ => false
  end.

(** The name [db_exists] puts the suffixes behind: the key up to its last
    dot when that dot is not its first character, the whole name of the
    index otherwise. *)
Definition checked_name (key : string) : string :=
  match Pathlib.rfind_dot key with
  | Some (S i) => Str.take (S i) key
  | _ => key +:+ "_asm_db"
  end.

(** An item of a list: not empty, stripped. *)
Definition clean (p : string) : Prop := p <> "" /\ Str.strip p = p.

(** ** Reading a run *)

(** The errors that come from a tool: a status that is not 0, or a
    download that does not begin with the record marker. *)
Inductive tool_fault : exn -> Prop :=
| fault_command cmd p :
    returncode p <> 0%Z -> tool_fault (RuntimeError (command_failed cmd p))
| fault_not_fasta acc out :
    Str.startswith out ">" = false ->
    tool_fault (RuntimeError (not_fasta acc out)).

(** The creation of a directory. *)
Definition is_mkdir (e : event) : Prop :=
  match e with EvMkdir _ => True | _ => False end.

(** The events of [evs] that open or close a file. *)
Definition report_brackets (evs : list event) : list event :=
  omap (fun e => match e with
                 | EvOpen _ | EvClose _ => Some e
                 | _ => None
                 end) evs.

(** The rows that one pair can leave in the report: those of its result
    file, as some state of the files has it. *)
Definition pair_group (tmp_dir : Path) (pr : string * Path)
    (g : list (list string)) : Prop :=
  exists fs,
    g = pair_rows fs (tmp_out_of tmp_dir pr.1 pr.2) (comparison_of pr.1 pr.2).

(** The key of every path has no dot behind its first character. *)
Definition plain_keys (paths : list Path) : Prop :=
  forall m, m ∈ paths -> inner_dot (sanitize_basename (Pathlib.str m)) = false.

Section Run.

Context {Env : Type}.
Variable spawn :
  list string -> gmap string string -> Env -> proc * gmap string string * Env.
Variable resolve : Path -> Path.

(** [c] raises only errors that satisfy [P]. *)
Definition raises {A} (P : exn -> Prop) (c : M Env A) : Prop :=
  forall w e w', c w = (inl e, w') -> P e.

(** No tool removes or empties a file. *)
Definition keeps_all : Prop :=
  forall cmd fs env key,
    nonempty_at fs key = true -> nonempty_at (spawn cmd fs env).1.2 key = true.

(** [c] leaves in place every file that is there and not empty. *)
Definition keeps {A} (c : M Env A) : Prop :=
  forall w r w' key,
    c w = (r, w') ->
    nonempty_at (files w) key = true -> nonempty_at (files w') key = true.

(** The index builder does what it is asked for: when it returns with
    status 0, the companion files of the prefix are there and not empty. *)
Definition builds_index : Prop :=
  forall asm db fs env,
    returncode (spawn (makeblastdb_cmd asm db) fs env).1.1 = 0%Z ->
    Spec.index_cached (spawn (makeblastdb_cmd asm db) fs env).1.2 db = true.

(** [main] behind the first loop. *)
Definition after_download (args : Args) (assemblies_paths : list Path)
    (accessions : list string) (accession_to_fasta : gmap string Path)
    : M Env Z :=
  assembly_to_dbprefix <-
    build_dbs spawn (db_dir_of resolve args) assemblies_paths ∅ ;;
  open_w (out_path_of resolve args) ;;
  finally
    (write_cumulative spawn (out_path_of resolve args) (tmp_dir_of resolve args)
       accessions assemblies_paths accession_to_fasta assembly_to_dbprefix)
    (emit (EvClose (Pathlib.str (out_path_of resolve args)))) ;;
  print ("Done. Cumulative results: "
         +:+ Pathlib.str (out_path_of resolve args)) ;;
  print ("Cached workdir: " +:+ Pathlib.str (workdir_of resolve args)) ;;
  ret 0%Z.

(** [main] behind the second loop. *)
Definition after_build (args : Args) (assemblies_paths : list Path)
    (accessions : list string) (accession_to_fasta : gmap string Path)
    (assembly_to_dbprefix : gmap Path Path) : M Env Z :=
  open_w (out_path_of resolve args) ;;
  finally
    (write_cumulative spawn (out_path_of resolve args) (tmp_dir_of resolve args)
       accessions assemblies_paths accession_to_fasta assembly_to_dbprefix)
    (emit (EvClose (Pathlib.str (out_path_of resolve args)))) ;;
  print ("Done. Cumulative results: "
         +:+ Pathlib.str (out_path_of resolve args)) ;;
  print ("Cached workdir: " +:+ Pathlib.str (workdir_of resolve args)) ;;
  ret 0%Z.

(** What a run on the accessions [accs] and the assemblies [paths] may do
    to the outside. *)
Definition allowed (args : Args) (accs : list string) (paths : list Path)
    (e : event) : Prop :=
  match e with
  | EvShellOut cmd => exists a, a ∈ accs /\ cmd = [get_ref args; a]
  | EvRun cmd =>
      (exists m, m ∈ paths
         /\ cmd = makeblastdb_cmd m (db_prefix_of (db_dir_of resolve args) m))
      \/ (exists a m, a ∈ accs /\ m ∈ paths /\ cmd = search_cmd resolve args a m)
  | EvWriteText file data =>
      (exists a, a ∈ accs
         /\ file = Pathlib.str (fasta_path_of (queries_dir_of resolve args) a))
      /\ Str.startswith data ">" = true
  | EvOpen file | EvWriteRow file _ | EvClose file =>
      file = Pathlib.str (out_path_of resolve args)
  | EvMkdir dir =>
      dir ∈ [Pathlib.str (tmp_dir_of resolve args);
             Pathlib.str (outdir_of resolve args);
             Pathlib.str (queries_dir_of resolve args);
             Pathlib.str (db_dir_of resolve args)]
  | EvPrint _ => True
  end.

End Run.

(** ** Reading the searches *)

Section Searches.

Context {Env : Type}.
Variable spawn :
  list string -> gmap string string -> Env -> proc * gmap string string * Env.
Variable resolve : Path -> Path.

(** The searches of the pairs [pairs], one after the other, each on the
    files and the outside as the search before it left them, up to the
    first that returns a status other than 0: the pairs whose search
    returned, each with what its search left, and the pair whose search
    failed, if one did. *)
Fixpoint search_all (cmd : string * Path -> list string)
    (pairs : list (string * Path)) (fs : gmap string string) (env : Env)
    : list ((string * Path) * (proc * gmap string string * Env))
      * option ((string * Path) * (proc * gmap string string * Env)) :=
  match pairs with
  | [] => ([], None)
  | pr :: rest =>
      let r := spawn (cmd pr) fs env in
      if bool_decide (returncode r.1.1 ≠ 0%Z) then ([], Some (pr, r))
      else
        let s := search_all cmd rest r.1.2 r.2 in
        ((pr, r) :: s.1, s.2)
  end.

(** The files and the outside behind these searches. *)
Fixpoint search_end (cmd : string * Path -> list string)
    (pairs : list (string * Path)) (fs : gmap string string) (env : Env)
    : gmap string string * Env :=
  match pairs with
  | [] => (fs, env)
  | pr :: rest =>
      let r := spawn (cmd pr) fs env in
      if bool_decide (returncode r.1.1 ≠ 0%Z) then (r.1.2, r.2)
      else search_end cmd rest r.1.2 r.2
  end.

(** The rows of a pair, from the files as its search left them. *)
Definition rows_of (tmp_dir : Path)
    (s : (string * Path) * (proc * gmap string string * Env))
    : list (list string) :=
  pair_rows s.2.1.2 (tmp_out_of tmp_dir s.1.1 s.1.2)
    (comparison_of s.1.1 s.1.2).

(** What one pair adds to the trace: its search, then its rows. *)
Definition events_of (cmd : string * Path -> list string) (out tmp_dir : Path)
    (s : (string * Path) * (proc * gmap string string * Env)) : list event :=
  EvRun (cmd s.1) :: (EvWriteRow (Pathlib.str out) <$> rows_of tmp_dir s).

(** The search that failed, in the trace. *)
Definition failed_event (cmd : string * Path -> list string)
    (f : option ((string * Path) * (proc * gmap string string * Env)))
    : list event :=
  match f with
  | Some s => [EvRun (cmd s.1)]
  | None => []
  end.

(** The result of the loops: the error of the search that failed. *)
Definition search_result {A} (cmd : string * Path -> list string)
    (f : option ((string * Path) * (proc * gmap string string * Env)))
    (a : A) : exn + A :=
  match f with
  | Some s => inl (RuntimeError (command_failed (cmd s.1) s.2.1.1))
  | None => inr a
  end.

(** The command line of the search of a pair. *)
Definition search_of (args : Args) (pr : string * Path) : list string :=
  search_cmd resolve args pr.1 pr.2.

(** The end of a run that has opened the report: the search that failed,
    if one did; the closing of the report; the two lines printed when no
    search failed. *)
Definition report_end (args : Args)
    (f : option ((string * Path) * (proc * gmap string string * Env)))
    : list event :=
  failed_event (search_of args) f
  ++ EvClose (Pathlib.str (out_path_of resolve args))
  :: match f with
     | Some _ => []
     | None =>
         [EvPrint ("Done. Cumulative results: "
                   +:+ Pathlib.str (out_path_of resolve args));
          EvPrint ("Cached workdir: " +:+ Pathlib.str (workdir_of resolve args))]
     end.

End Searches.

(** ** Reasoning about the monad *)

Section MonadFacts.

Context {Env : Type}.
Implicit Types w : world Env.

Lemma bind_inv {A B} (c : M Env A) (k : A -> M Env B) w r w' :
  bind c k w = (r, w') ->
  (exists a w1, c w = (inr a, w1) /\ k a w1 = (r, w'))
  \/ (exists e, c w = (inl e, w') /\ r = inl e).
Proof.
  unfold bind. destruct (c w) as [[e|a] w1]; intros H.
  - right. exists e. by inversion H.
  - left. by exists a, w1.
Qed.

Lemma bind_ok {A B} (c : M Env A) (k : A -> M Env B) w a w1 :
  c w = (inr a, w1) -> bind c k w = k a w1.
Proof. unfold bind. by intros ->. Qed.

Lemma bind_err {A B} (c : M Env A) (k : A -> M Env B) w e w1 :
  c w = (inl e, w1) -> bind c k w = (inl e, w1).
Proof. unfold bind. by intros ->. Qed.

(** [c] adds to the trace only events that satisfy [P]. *)
Definition emits {A} (P : event -> Prop) (c : M Env A) : Prop :=
  forall w r w', c w = (r, w') ->
    exists evs, trace w' = trace w ++ evs /\ Forall P evs.

Lemma emits_ret {A} P (a : A) : emits P (ret a).
Proof. intros w r w' [= <- <-]. exists []. by rewrite app_nil_r. Qed.

Lemma emits_raise {A} P e : emits P (@raise Env A e).
Proof. intros w r w' [= <- <-]. exists []. by rewrite app_nil_r. Qed.

Lemma emits_get_files P : emits P (@get_files Env).
Proof. intros w r w' [= <- <-]. exists []. by rewrite app_nil_r. Qed.

Lemma emits_bind {A B} P (c : M Env A) (k : A -> M Env B) :
  emits P c -> (forall a, emits P (k a)) -> emits P (bind c k).
Proof.
  intros Hc Hk w r w' H.
  apply bind_inv in H as [(a & w1 & H1 & H2)|(e & H1 & _)].
  - destruct (Hc _ _ _ H1) as (evs1 & E1 & F1).
    destruct (Hk _ _ _ _ H2) as (evs2 & E2 & F2).
    exists (evs1 ++ evs2). rewrite E2, E1, app_assoc. split; [done|].
    by apply Forall_app.
  - eauto.
Qed.

Lemma emits_log (P : event -> Prop) e : P e -> emits P (@log Env e).
Proof. intros HP w r w' [= <- <-]. exists [e]. split; [done|]. by constructor. Qed.

Lemma emits_for {A} P (l : list A) (body : A -> M Env unit) :
  (forall x, emits P (body x)) -> emits P (for_ l body).
Proof.
  intros Hb. induction l as [|x l IH]; simpl.
  - apply emits_ret.
  - apply emits_bind; [apply Hb|]. intros _. apply IH.
Qed.

Lemma emits_finally {A} (P : event -> Prop) (c : M Env A) e :
  emits P c -> P e -> emits P (finally c (emit e)).
Proof.
  intros Hc HP w r w'. unfold finally.
  destruct (c w) as [r1 w1] eqn:E. intros [= <- <-].
  destruct (Hc _ _ _ E) as (evs & E1 & F1).
  exists (evs ++ [e]). simpl. rewrite E1, app_assoc. split; [done|].
  apply Forall_app. split; [done|]. by constructor.
Qed.

Lemma emits_mono {A} (P Q : event -> Prop) (c : M Env A) :
  (forall e, P e -> Q e) -> emits P c -> emits Q c.
Proof.
  intros HPQ Hc w r w' H. destruct (Hc _ _ _ H) as (evs & E & F).
  exists evs. split; [done|]. eapply Forall_impl; eauto.
Qed.

(** [c] reads the world and leaves it as it is. *)
Definition reads {A} (c : M Env A) : Prop :=
  forall w r w', c w = (r, w') -> w' = w.

Lemma reads_ret {A} (a : A) : reads (@ret Env A a).
Proof. by intros w r w' [= _ <-]. Qed.

Lemma reads_raise {A} e : reads (@raise Env A e).
Proof. by intros w r w' [= _ <-]. Qed.

Lemma reads_get_files : reads (@get_files Env).
Proof. by intros w r w' [= _ <-]. Qed.

Lemma reads_bind {A B} (c : M Env A) (k : A -> M Env B) :
  reads c -> (forall a, reads (k a)) -> reads (bind c k).
Proof.
  intros Hc Hk w r w' H.
  apply bind_inv in H as [(a & w1 & H1 & H2)|(e & H1 & _)].
  - apply Hc in H1 as ->. by apply Hk in H2.
  - by apply Hc in H1.
Qed.

Lemma reads_for {A} (l : list A) (body : A -> M Env unit) :
  (forall x, reads (body x)) -> reads (for_ l body).
Proof.
  intros Hb. induction l as [|x l IH]; simpl.
  - apply reads_ret.
  - apply reads_bind; [apply Hb|]. intros _. apply IH.
Qed.

End MonadFacts.

(** ** The script, step by step *)

Ltac emits_step :=
  first
    [ apply emits_ret | apply emits_raise | apply emits_get_files
    | apply emits_log
    | apply emits_bind; [|intros ?]
    | apply emits_for; intros ?
    | apply emits_finally
    | match goal with |- emits _ (if ?b then _ else _) => destruct b end
    | match goal with |- emits _ (match ?x with _ => _ end) => destruct x end ].

Ltac reads_step :=
  first
    [ apply reads_ret | apply reads_raise | apply reads_get_files
    | apply reads_bind; [|intros ?]
    | apply reads_for; intros ?
    | match goal with |- reads (if ?b then _ else _) => destruct b end
    | match goal with |- reads (match ?x with _ => _ end) => destruct x end ].

Section WorkflowFacts.

Context {Env : Type}.
Variable spawn :
  list string -> gmap string string -> Env -> proc * gmap string string * Env.
Variable resolve : Path -> Path.
Implicit Types w : world Env.

Lemma reads_emits {A} P (c : M Env A) : reads c -> emits P c.
Proof.
  intros Hc w r w' H. apply Hc in H as ->. exists []. by rewrite app_nil_r.
Qed.

(** *** The primitives *)

Lemma subprocess_run_eq e cmd w :
  subprocess_run spawn e cmd w =
    (inr (spawn cmd (files w) (outside w)).1.1,
     MkWorld (spawn cmd (files w) (outside w)).1.2 (tables w)
       (spawn cmd (files w) (outside w)).2 (trace w ++ [e])).
Proof. unfold subprocess_run. by destruct (spawn _ _ _) as [[p fs] env]. Qed.

Lemma emits_subprocess_run (P : event -> Prop) e cmd :
  P e -> emits P (subprocess_run spawn e cmd).
Proof.
  intros HP w r w'. rewrite subprocess_run_eq. intros [= <- <-].
  exists [e]. split; [done|]. by constructor.
Qed.

Lemma emits_run (P : event -> Prop) cmd :
  P (EvRun cmd) -> emits P (run spawn cmd).
Proof.
  intros HP. unfold run.
  apply emits_bind; [by apply emits_subprocess_run|]. intros p.
  repeat emits_step.
Qed.

Lemma emits_shell_out (P : event -> Prop) cmd :
  P (EvShellOut cmd) -> emits P (shell_out spawn cmd).
Proof.
  intros HP. unfold shell_out.
  apply emits_bind; [by apply emits_subprocess_run|]. intros p.
  repeat emits_step.
Qed.

Lemma reads_read_text p : reads (@read_text Env p).
Proof. unfold read_text. repeat reads_step. Qed.

Lemma emits_write_text (P : event -> Prop) p data :
  P (EvWriteText (Pathlib.str p) data) -> emits P (@write_text Env p data).
Proof.
  intros HP w r w' [= <- <-]. eexists [_]. split; [done|]. by constructor.
Qed.

Lemma emits_open_w (P : event -> Prop) p :
  P (EvOpen (Pathlib.str p)) -> emits P (@open_w Env p).
Proof.
  intros HP w r w' [= <- <-]. eexists [_]. split; [done|]. by constructor.
Qed.

Lemma emits_writerow (P : event -> Prop) p row :
  P (EvWriteRow (Pathlib.str p) row) -> emits P (@writerow Env p row).
Proof.
  intros HP w r w' [= <- <-]. eexists [_]. split; [done|]. by constructor.
Qed.

Lemma reads_dict_get {K V} `{Countable K} (d : gmap K V) k shown :
  reads (@dict_get Env K V _ _ d k shown).
Proof. unfold dict_get. repeat reads_step. Qed.

(** *** Reading the inputs changes nothing *)

Lemma reads_read_list_files l : reads (@read_list_files Env l).
Proof.
  induction l as [|fp l IH]; simpl; [apply reads_ret|].
  repeat first [apply reads_read_text | apply IH | reads_step].
Qed.

Lemma reads_read_inputs args : reads (@read_inputs Env args).
Proof.
  unfold read_inputs. repeat first [apply reads_read_list_files | reads_step].
Qed.

Lemma reads_check_assemblies paths : reads (@check_assemblies Env paths).
Proof. unfold check_assemblies. repeat reads_step. Qed.

(** *** What each phase adds to the trace *)

Lemma emits_ensure_fasta_download g acc q :
  emits fetch_event (ensure_fasta_download spawn g acc q).
Proof.
  unfold ensure_fasta_download, mkdir.
  repeat first [ by apply emits_shell_out | by apply emits_write_text
               | emits_step | done ].
Qed.

Lemma emits_download_queries g q accs d :
  emits fetch_event (download_queries spawn g q accs d).
Proof.
  revert d. induction accs as [|acc accs IH]; intros d; simpl.
  - apply emits_ret.
  - apply emits_bind; [apply emits_ensure_fasta_download|]. intros p. apply IH.
Qed.

Lemma emits_db_exists P db : emits P (@db_exists Env db).
Proof. unfold db_exists. repeat emits_step. Qed.

Lemma emits_make_db_if_needed asm db :
  emits build_event (make_db_if_needed spawn asm db).
Proof.
  unfold make_db_if_needed, mkdir.
  repeat first [ apply emits_db_exists | by apply emits_run | emits_step | done ].
Qed.

Lemma emits_build_dbs db_dir paths d :
  emits build_event (build_dbs spawn db_dir paths d).
Proof.
  revert d. induction paths as [|asm paths IH]; intros d; simpl.
  - apply emits_ret.
  - apply emits_bind; [apply emits_make_db_if_needed|]. intros _. apply IH.
Qed.

Lemma emits_write_hits out comparison lines :
  emits search_event (@write_hits Env out comparison lines).
Proof.
  unfold write_hits. repeat first [ by apply emits_writerow | emits_step ].
Qed.

Lemma emits_compare_pair out tmp qf d acc asm :
  emits search_event (compare_pair spawn out tmp qf d acc asm).
Proof.
  unfold compare_pair, blast_one.
  repeat first
    [ apply emits_write_hits | by apply emits_writerow | by apply emits_run
    | apply reads_emits, reads_read_text | apply reads_emits, reads_dict_get
    | emits_step ].
Qed.

Lemma emits_compare_loops out tmp accs paths d1 d2 :
  emits search_event
    (for_ accs (fun acc =>
       qf <- dict_get d1 acc acc ;;
       for_ paths (compare_pair spawn out tmp qf d2 acc))).
Proof.
  repeat first
    [ apply emits_compare_pair | apply reads_emits, reads_dict_get | emits_step ].
Qed.

End WorkflowFacts.

Ltac app_norm := repeat (progress (simpl; rewrite <- ?app_assoc)).

Ltac bind_cases H a w1 H1 :=
  let e := fresh "e" in
  apply bind_inv in H as [(a & w1 & H1 & H)|(e & H & ->)].

Ltac bind_ok_inv H a w1 H1 :=
  let e := fresh "e" in
  let Hr := fresh "Hr" in
  apply bind_inv in H as [(a & w1 & H1 & H)|(e & H & Hr)]; [|discriminate Hr].

Section TraceShape.

Context {Env : Type}.
Variable spawn :
  list string -> gmap string string -> Env -> proc * gmap string string * Env.
Variable resolve : Path -> Path.
Implicit Types w : world Env.

Lemma bind_log {B} e (k : unit -> M Env B) w :
  bind (log e) k w = k tt (emit e w).
Proof. reflexivity. Qed.

Lemma before_report_fetch e : fetch_event e -> before_report e.
Proof. by destruct e. Qed.

Lemma before_report_build e : build_event e -> before_report e.
Proof. by destruct e. Qed.

Lemma after_report_search e : search_event e -> after_report e.
Proof. by destruct e. Qed.

(** The shape of every run of [pipeline]: fetches and index builds, then
    at most once the opening of the report and its header, then searches
    and rows. *)
Lemma pipeline_trace args paths accs w r w' :
  pipeline spawn resolve args paths accs w = (r, w') ->
  exists evs1, Forall before_report evs1 /\
    ((trace w' = trace w ++ evs1 /\ exists e, r = inl e)
     \/ exists evs2,
          trace w' = trace w ++ evs1
            ++ EvOpen (Pathlib.str (out_path_of resolve args))
            :: EvWriteRow (Pathlib.str (out_path_of resolve args)) header
            :: evs2
          /\ Forall after_report evs2).
Proof.
  unfold pipeline, mkdir, print. rewrite !bind_log. intros H.
  set (m1 := EvMkdir (Pathlib.str (tmp_dir_of resolve args))) in *.
  set (m2 := EvMkdir (Pathlib.str (outdir_of resolve args))) in *.
  bind_cases H d1 w1 H1.
  2: { destruct (emits_download_queries _ _ _ _ _ _ _ _ H) as (evs & E & F).
       exists (m1 :: m2 :: evs). split.
       - do 2 (constructor; [done|]).
         eapply Forall_impl; [exact F|apply before_report_fetch].
       - left. split; [|by eauto]. rewrite E. by app_norm. }
  destruct (emits_download_queries _ _ _ _ _ _ _ _ H1) as (evs & E & F).
  bind_cases H d2 w2 H2.
  2: { destruct (emits_build_dbs _ _ _ _ _ _ _ H) as (evsb & Eb & Fb).
       exists (m1 :: m2 :: evs ++ evsb). split.
       - do 2 (constructor; [done|]). apply Forall_app. split.
         + eapply Forall_impl; [exact F|apply before_report_fetch].
         + eapply Forall_impl; [exact Fb|apply before_report_build].
       - left. split; [|by eauto]. rewrite Eb, E. by app_norm. }
  destruct (emits_build_dbs _ _ _ _ _ _ _ H2) as (evsb & Eb & Fb).
  exists (m1 :: m2 :: evs ++ evsb). split.
  { do 2 (constructor; [done|]). apply Forall_app. split.
    - eapply Forall_impl; [exact F|apply before_report_fetch].
    - eapply Forall_impl; [exact Fb|apply before_report_build]. }
  right.
  unfold bind at 1 in H. unfold open_w at 1 in H.
  unfold bind at 1, finally at 1, write_cumulative, bind at 1, writerow at 1 in H.
  match type of H with
  | context [for_ accs ?body ?w0] =>
      destruct (for_ accs body w0) as [r3 w3] eqn:H3
  end.
  destruct (emits_compare_loops _ _ _ _ _ _ _ _ _ _ H3) as (evs3 & E3 & F3).
  simpl in E3.
  assert (Forall after_report evs3) as F3'
    by (eapply Forall_impl; [exact F3|apply after_report_search]).
  destruct r3 as [e3|[]].
  - injection H as <- <-. exists (evs3 ++ [EvClose (Pathlib.str (out_path_of resolve args))]). split.
    + simpl. rewrite E3, Eb, E. by app_norm.
    + apply Forall_app. split; [done|]. by repeat constructor.
  - rewrite !bind_log in H. injection H as <- <-.
    eexists (evs3 ++ [EvClose _; EvPrint _; EvPrint _]). split.
    + simpl. rewrite E3, Eb, E. by app_norm.
    + apply Forall_app. split; [done|]. by repeat constructor.
Qed.

End TraceShape.

Section MainShape.

Context {Env : Type}.
Variable spawn :
  list string -> gmap string string -> Env -> proc * gmap string string * Env.
Variable resolve : Path -> Path.
Implicit Types w : world Env.

(** A run of [main] either stops on its inputs, with the world as it
    was, or is a run of [pipeline] on the two lists. *)
Lemma main_cases args w r w' :
  main spawn resolve args w = (r, w') ->
  (w' = w /\ exists e, r = inl e)
  \/ exists assemblies accessions,
       read_inputs args w = (inr (assemblies, accessions), w)
       /\ assemblies <> [] /\ accessions <> []
       /\ check_assemblies (resolve_all resolve assemblies) w = (inr tt, w)
       /\ pipeline spawn resolve args (resolve_all resolve assemblies)
            accessions w = (r, w').
Proof.
  unfold main. intros H.
  bind_cases H inputs w1 H1.
  2: { left. apply reads_read_inputs in H as ->. eauto. }
  pose proof (reads_read_inputs _ _ _ _ H1) as ->.
  destruct inputs as [assemblies accessions].
  case_bool_decide as HA.
  { injection H as <- <-. left. eauto. }
  case_bool_decide as HI.
  { injection H as <- <-. left. eauto. }
  bind_cases H u w2 H2.
  2: { left. apply reads_check_assemblies in H as ->. eauto. }
  pose proof (reads_check_assemblies _ _ _ _ H2) as ->. destruct u.
  right. by exists assemblies, accessions.
Qed.

Lemma main_ok args w assemblies accessions :
  read_inputs args w = (inr (assemblies, accessions), w) ->
  assemblies <> [] -> accessions <> [] ->
  check_assemblies (resolve_all resolve assemblies) w = (inr tt, w) ->
  main spawn resolve args w =
    pipeline spawn resolve args (resolve_all resolve assemblies) accessions w.
Proof.
  intros H1 HA HI H2. unfold main.
  rewrite (bind_ok _ _ _ _ _ H1).
  rewrite !bool_decide_eq_false_2 by done.
  by rewrite (bind_ok _ _ _ _ _ H2).
Qed.

Lemma main_trace args w r w' :
  main spawn resolve args w = (r, w') ->
  exists evs1, Forall before_report evs1 /\
    ((trace w' = trace w ++ evs1 /\ exists e, r = inl e)
     \/ exists evs2,
          trace w' = trace w ++ evs1
            ++ EvOpen (Pathlib.str (out_path_of resolve args))
            :: EvWriteRow (Pathlib.str (out_path_of resolve args)) header
            :: evs2
          /\ Forall after_report evs2).
Proof.
  intros H. apply main_cases in H as [[-> He]|(A & I & _ & _ & _ & _ & H)].
  - exists []. split; [done|]. left. by rewrite app_nil_r.
  - by apply pipeline_trace in H.
Qed.

End MainShape.

(** ** The fetch cache *)

Section FetchCache.

Context {Env : Type}.
Variable spawn :
  list string -> gmap string string -> Env -> proc * gmap string string * Env.
Variable resolve : Path -> Path.
Implicit Types w : world Env.

Lemma present_nonempty_at fs p : present fs p = nonempty_at fs (Pathlib.str p).
Proof.
  unfold present, path_exists, st_size, nonempty_at.
  by destruct (fs !! Pathlib.str p) as [data|] eqn:E.
Qed.

Lemma startswith_nonempty s p c :
  Str.startswith s (String c p) = true -> (0 <? String.length s) = true.
Proof. by destruct s. Qed.

Lemma ensure_fasta_download_hit g acc q w :
  present (files w) (fasta_path_of q acc) = true ->
  ensure_fasta_download spawn g acc q w =
    (inr (fasta_path_of q acc), emit (EvMkdir (Pathlib.str q)) w).
Proof.
  intros Hp. unfold ensure_fasta_download, mkdir. rewrite bind_log.
  unfold bind, get_files. simpl. by rewrite Hp.
Qed.

(** A cache miss: the tool is called, and only a download that begins
    with the record marker is written. *)
Lemma ensure_fasta_download_miss g acc q w p fs env :
  present (files w) (fasta_path_of q acc) = false ->
  spawn [g; acc] (files w) (outside w) = (p, fs, env) ->
  let called :=
    MkWorld fs (tables w) env
      (trace w ++ [EvMkdir (Pathlib.str q); EvShellOut [g; acc]]) in
  ensure_fasta_download spawn g acc q w =
    if bool_decide (returncode p ≠ 0%Z)
    then (inl (RuntimeError (command_failed [g; acc] p)), called)
    else if Str.startswith (stdout p) ">"
    then (inr (fasta_path_of q acc),
          MkWorld (<[Pathlib.str (fasta_path_of q acc) := stdout p]> fs)
            (tables w) env
            (trace w ++ [EvMkdir (Pathlib.str q); EvShellOut [g; acc];
                         EvWriteText (Pathlib.str (fasta_path_of q acc))
                           (stdout p)]))
    else (inl (RuntimeError (not_fasta acc (stdout p))), called).
Proof.
  intros Hp Hs. unfold ensure_fasta_download, mkdir. rewrite bind_log.
  unfold bind at 1, get_files. simpl. rewrite Hp.
  unfold shell_out, bind, subprocess_run. simpl. rewrite Hs.
  case_bool_decide; simpl.
  - unfold raise. by rewrite <- app_assoc.
  - unfold ret. destruct (Str.startswith (stdout p) ">"); simpl.
    + unfold write_text. simpl. by rewrite <- !app_assoc.
    + unfold raise. by rewrite <- app_assoc.
Qed.

Lemma shell_outs_app evs1 evs2 :
  shell_outs (evs1 ++ evs2) = shell_outs evs1 ++ shell_outs evs2.
Proof. apply omap_app. Qed.

Lemma omap_none_Forall {B} (f : event -> option B) (P : event -> Prop) evs :
  Forall P evs -> (forall e, P e -> f e = None) -> omap f evs = [].
Proof.
  intros HF Hf. induction HF as [|e evs HP _ IH]; [done|].
  simpl. by rewrite (Hf _ HP).
Qed.

(** Within the loop no accession is fetched twice: an accession that has
    been fetched has its file in the cache from then on. *)
Lemma download_queries_once g q accs :
  keeps_files spawn g ->
  forall d w r w' seen,
    (forall a, a ∈ seen -> present (files w) (fasta_path_of q a) = true) ->
    NoDup seen ->
    download_queries spawn g q accs d w = (r, w') ->
    exists evs new,
      trace w' = trace w ++ evs
      /\ shell_outs evs = (fun a => [g; a]) <$> new
      /\ NoDup (seen ++ new)
      /\ (forall a, a ∈ new -> a ∈ accs).
Proof.
  intros Hkeep. induction accs as [|acc accs IH]; intros d w r w' seen Hseen Hnd H.
  - injection H as <- <-. exists [], []. rewrite !app_nil_r. by repeat split.
  - simpl in H.
    destruct (present (files w) (fasta_path_of q acc)) eqn:Hp.
    + rewrite (bind_ok _ _ _ _ _ (ensure_fasta_download_hit g acc q w Hp)) in H.
      apply (IH _ _ _ _ seen) in H as (evs & new & E & S & N & I); [|done..].
      exists (EvMkdir (Pathlib.str q) :: evs), new. repeat split; [|done..|].
      * rewrite E. by app_norm.
      * intros a Ha. right. by apply I.
    + assert (acc ∉ seen) as Hfresh.
      { intros Hin. apply Hseen in Hin. congruence. }
      destruct (spawn [g; acc] (files w) (outside w)) as [[p fs] env] eqn:Hs.
      pose proof (ensure_fasta_download_miss g acc q w p fs env Hp Hs) as Hm.
      simpl in Hm.
      assert (NoDup (seen ++ [acc])) as Hnd'.
      { apply NoDup_app. repeat split; [done| |apply NoDup_singleton].
        intros a Ha ->%list_elem_of_singleton. done. }
      case_bool_decide.
      { rewrite (bind_err _ _ _ _ _ Hm) in H. injection H as <- <-.
        eexists [_; _], [acc]. split; [done|]. split; [done|]. split; [done|].
        intros a ->%list_elem_of_singleton. left. }
      destruct (Str.startswith (stdout p) ">") eqn:Hgt.
      2: { rewrite (bind_err _ _ _ _ _ Hm) in H. injection H as <- <-.
           eexists [_; _], [acc]. split; [done|]. split; [done|]. split; [done|].
           intros a ->%list_elem_of_singleton. left. }
      rewrite (bind_ok _ _ _ _ _ Hm) in H.
      apply (IH _ _ _ _ (seen ++ [acc])) in H as (evs & new & E & S & N & I);
        [|simpl|done].
      * eexists (_ :: _ :: _ :: evs), (acc :: new). repeat split.
        -- rewrite E. simpl. by rewrite <- app_assoc.
        -- simpl. by rewrite S.
        -- by rewrite <- app_assoc in N.
        -- intros a [->|Ha]%elem_of_cons; [left|right; by apply I].
      * intros a Ha. rewrite present_nonempty_at.
        unfold nonempty_at.
        destruct (decide (Pathlib.str (fasta_path_of q acc)
                          = Pathlib.str (fasta_path_of q a))) as [Heq|Hne].
        -- rewrite Heq, lookup_insert_eq. by eapply startswith_nonempty.
        -- rewrite lookup_insert_ne by done.
           apply elem_of_app in Ha as [Ha|Ha%list_elem_of_singleton];
             [|by subst].
           apply Hseen in Ha. rewrite present_nonempty_at in Ha.
           pose proof (Hkeep acc (files w) (outside w) _ Ha) as Hk.
           by rewrite Hs in Hk.
Qed.

Lemma shell_outs_none evs : Forall no_fetch evs -> shell_outs evs = [].
Proof. intros F. apply (omap_none_Forall _ _ _ F). by intros []. Qed.

Lemma pipeline_fetch_once args paths accs w r w' :
  keeps_files spawn (get_ref args) ->
  pipeline spawn resolve args paths accs w = (r, w') ->
  exists evs new,
    trace w' = trace w ++ evs
    /\ shell_outs evs = (fun a => [get_ref args; a]) <$> new
    /\ NoDup new
    /\ (forall a, a ∈ new -> a ∈ accs).
Proof.
  intros Hkeep. unfold pipeline, mkdir. rewrite !bind_log. intros H.
  bind_cases H d1 w1 H1.
  2: { apply (download_queries_once _ _ _ Hkeep _ _ _ _ []) in H
         as (evs & new & E & S & N & I); [|by intros a ?%elem_of_nil|constructor].
       exists (EvMkdir (Pathlib.str (tmp_dir_of resolve args))
               :: EvMkdir (Pathlib.str (outdir_of resolve args)) :: evs), new.
       split; [rewrite E; by app_norm|]. by split. }
  apply (download_queries_once _ _ _ Hkeep _ _ _ _ []) in H1
    as (evs & new & E & S & N & I); [|by intros a ?%elem_of_nil|constructor].
  match type of H with
  | ?c w1 = _ => assert (emits no_fetch c) as Hrest
  end.
  { apply emits_bind.
    { eapply emits_mono; [|apply emits_build_dbs]. by intros []. }
    intros d2. apply emits_bind; [by apply emits_open_w|]. intros _.
    apply emits_bind.
    { apply emits_finally; [|done]. unfold write_cumulative.
      apply emits_bind; [by apply emits_writerow|]. intros _.
      eapply emits_mono; [|apply emits_compare_loops]. by intros []. }
    intros _. unfold print. repeat emits_step; done. }
  destruct (Hrest _ _ _ H) as (evs2 & E2 & F2).
  exists (EvMkdir (Pathlib.str (tmp_dir_of resolve args))
          :: EvMkdir (Pathlib.str (outdir_of resolve args)) :: evs ++ evs2), new.
  split; [rewrite E2, E; by app_norm|]. split; [|by split].
  simpl. rewrite shell_outs_app, S, (shell_outs_none _ F2).
  by rewrite app_nil_r.
Qed.

Lemma main_fetch_once args w r w' :
  keeps_files spawn (get_ref args) ->
  main spawn resolve args w = (r, w') ->
  exists evs new,
    trace w' = trace w ++ evs
    /\ shell_outs evs = (fun a => [get_ref args; a]) <$> new
    /\ NoDup new.
Proof.
  intros Hkeep H.
  apply main_cases in H as [[-> He]|(A & I & _ & _ & _ & _ & H)].
  - exists [], []. rewrite app_nil_r. repeat split. constructor.
  - apply pipeline_fetch_once in H as (evs & new & E & S & N & _); [|done].
    by exists evs, new.
Qed.

End FetchCache.

(** ** A download that is not FASTA *)

Section BadFetch.

Context {Env : Type}.
Variable spawn :
  list string -> gmap string string -> Env -> proc * gmap string string * Env.
Variable resolve : Path -> Path.
Implicit Types w : world Env.

Lemma download_queries_app g q pre post d w :
  download_queries spawn g q (pre ++ post) d w =
    bind (download_queries spawn g q pre d)
      (fun d' => download_queries spawn g q post d') w.
Proof.
  revert d w. induction pre as [|a pre IH]; intros d w; [done|].
  simpl. unfold bind at 1 2 3.
  destruct (ensure_fasta_download spawn g a q w) as [[e|p] w1]; [done|].
  rewrite IH. by unfold bind.
Qed.

Lemma files_tables_download_queries g q accs d w r w' :
  download_queries spawn g q accs d w = (r, w') -> tables w' = tables w.
Proof.
  revert d w. induction accs as [|acc accs IH]; intros d w H.
  - by injection H as <- <-.
  - simpl in H.
    destruct (spawn [g; acc] (files w) (outside w)) as [[p fs] env] eqn:Hs.
    destruct (present (files w) (fasta_path_of q acc)) eqn:Hp.
    + rewrite (bind_ok _ _ _ _ _ (ensure_fasta_download_hit _ g acc q w Hp)) in H.
      by apply IH in H.
    + pose proof (ensure_fasta_download_miss _ g acc q w p fs env Hp Hs) as Hm.
      simpl in Hm. case_bool_decide.
      { rewrite (bind_err _ _ _ _ _ Hm) in H. by injection H as <- <-. }
      destruct (Str.startswith (stdout p) ">").
      * rewrite (bind_ok _ _ _ _ _ Hm) in H. by apply IH in H.
      * rewrite (bind_err _ _ _ _ _ Hm) in H. by injection H as <- <-.
Qed.

(** The run stops at the first download that does not begin with the
    record marker, with the files as the fetch tool left them. *)
Lemma pipeline_bad_fetch args paths pre acc post w d w2 p fs env :
  let g := get_ref args in
  let q := queries_dir_of resolve args in
  download_queries spawn g q pre ∅
    (emit (EvMkdir (Pathlib.str (outdir_of resolve args)))
       (emit (EvMkdir (Pathlib.str (tmp_dir_of resolve args))) w))
    = (inr d, w2) ->
  present (files w2) (fasta_path_of q acc) = false ->
  spawn [g; acc] (files w2) (outside w2) = (p, fs, env) ->
  returncode p = 0%Z ->
  Str.startswith (stdout p) ">" = false ->
  pipeline spawn resolve args paths (pre ++ acc :: post) w =
    (inl (RuntimeError (not_fasta acc (stdout p))),
     MkWorld fs (tables w) env
       (trace w2 ++ [EvMkdir (Pathlib.str q); EvShellOut [g; acc]]))
  /\ exists evs, trace w2 = trace w ++ evs /\ Forall fetch_event evs.
Proof.
  intros g q H1 Hp Hs Hrc Hgt. split.
  - unfold pipeline, mkdir. rewrite !bind_log.
    unfold bind at 1. rewrite download_queries_app.
    rewrite (bind_ok _ _ _ _ _ H1). simpl.
    pose proof (ensure_fasta_download_miss _ g acc q w2 p fs env Hp Hs) as Hm.
    simpl in Hm. rewrite bool_decide_eq_false_2 in Hm by (by intros ?).
    rewrite Hgt in Hm.
    rewrite (bind_err _ _ _ _ _ Hm).
    by rewrite (files_tables_download_queries _ _ _ _ _ _ _ H1).
  - destruct (emits_download_queries _ _ _ _ _ _ _ _ H1) as (evs & E & F).
    exists (EvMkdir (Pathlib.str (tmp_dir_of resolve args))
            :: EvMkdir (Pathlib.str (outdir_of resolve args)) :: evs).
    split; [rewrite E; by app_norm|]. by do 2 (constructor; [done|]).
Qed.

End BadFetch.

(** ** The comparison loop *)

Section Comparisons.

Context {Env : Type}.
Variable spawn :
  list string -> gmap string string -> Env -> proc * gmap string string * Env.
Variable resolve : Path -> Path.
Implicit Types w : world Env.

Lemma write_hits_eq out comparison lines w rows0 :
  tables w !! Pathlib.str out = Some rows0 ->
  write_hits out comparison lines w =
    (inr tt,
     MkWorld (files w)
       (<[Pathlib.str out := rows0 ++ hit_rows comparison lines]> (tables w))
       (outside w)
       (trace w ++ (EvWriteRow (Pathlib.str out) <$> hit_rows comparison lines))).
Proof.
  revert w rows0. unfold write_hits, hit_rows.
  induction lines as [|line lines IH]; intros w rows0 Hr; simpl.
  - unfold ret. rewrite !app_nil_r, insert_id by done. by destruct w.
  - rewrite filter_cons. destruct (String.eqb_spec (Str.strip line) "") as [E|E].
    + rewrite decide_False by (by intros ?).
      unfold bind, ret. by apply IH.
    + rewrite decide_True by done.
      unfold bind at 1, writerow at 1. rewrite Hr. simpl.
      erewrite IH by (simpl; apply lookup_insert_eq). simpl.
      by rewrite insert_insert_eq, <- !app_assoc.
Qed.

(** One turn of the inner loop: the search, then the rows of
    [pair_rows] behind the rows written so far. *)
Lemma compare_pair_eq out tmp_dir qf d acc asm db w rows0 :
  d !! asm = Some db ->
  tables w !! Pathlib.str out = Some rows0 ->
  let cmd := blastn_cmd qf db (tmp_out_of tmp_dir acc asm) in
  let p := (spawn cmd (files w) (outside w)).1.1 in
  let fs := (spawn cmd (files w) (outside w)).1.2 in
  let env := (spawn cmd (files w) (outside w)).2 in
  let rows := pair_rows fs (tmp_out_of tmp_dir acc asm) (comparison_of acc asm) in
  compare_pair spawn out tmp_dir qf d acc asm w =
    if bool_decide (returncode p ≠ 0%Z)
    then (inl (RuntimeError (command_failed cmd p)),
          MkWorld fs (tables w) env (trace w ++ [EvRun cmd]))
    else (inr tt,
          MkWorld fs (<[Pathlib.str out := rows0 ++ rows]> (tables w)) env
            (trace w ++ EvRun cmd :: (EvWriteRow (Pathlib.str out) <$> rows))).
Proof.
  intros Hd Hr. simpl. unfold compare_pair, dict_get. rewrite Hd.
  unfold bind at 1, ret at 1. fold (tmp_out_of tmp_dir acc asm).
  unfold blast_one, run. unfold bind at 1 2. rewrite subprocess_run_eq.
  case_bool_decide; [done|]. unfold ret at 1.
  unfold bind at 1, get_files at 1. cbn [files].
  unfold pair_rows.
  destruct (present _ (tmp_out_of tmp_dir acc asm)) eqn:Hp.
  - unfold read_text, bind at 1 2, get_files. cbn [files].
    destruct (_ !! Pathlib.str (tmp_out_of tmp_dir acc asm)) as [data|] eqn:Hl.
    + unfold ret at 1. erewrite write_hits_eq by (simpl; exact Hr). simpl.
      by rewrite <- app_assoc.
    + rewrite present_nonempty_at in Hp. unfold nonempty_at in Hp.
      by rewrite Hl in Hp.
  - unfold writerow. simpl. rewrite Hr. simpl. by rewrite <- app_assoc.
Qed.

Lemma ensure_fasta_download_result g acc q w p w' :
  ensure_fasta_download spawn g acc q w = (inr p, w') -> p = fasta_path_of q acc.
Proof.
  destruct (spawn [g; acc] (files w) (outside w)) as [[pr fs] env] eqn:Hs.
  destruct (present (files w) (fasta_path_of q acc)) eqn:Hp.
  - rewrite (ensure_fasta_download_hit _ g acc q w Hp). by intros [= <- _].
  - rewrite (ensure_fasta_download_miss _ g acc q w pr fs env Hp Hs).
    repeat case_match; by intros [= <- _].
Qed.

(** [accession_to_fasta] after the first loop. *)
Lemma download_queries_dict g q accs d w d' w' :
  download_queries spawn g q accs d w = (inr d', w') ->
  forall a, d' !! a =
    if decide (a ∈ accs) then Some (fasta_path_of q a) else d !! a.
Proof.
  revert d w. induction accs as [|acc accs IH]; intros d w H a.
  - simpl in H. unfold ret in H. injection H as <- _.
    rewrite decide_False; [done|apply not_elem_of_nil].
  - simpl in H. bind_ok_inv H p w1 H1.
    apply ensure_fasta_download_result in H1 as ->.
    rewrite (IH _ _ H a).
    destruct (decide (a ∈ accs)) as [Hin|Hnin].
    + rewrite decide_True; [done|by right].
    + destruct (decide (a = acc)) as [->|Hne].
      * rewrite decide_True by left. apply lookup_insert_eq.
      * rewrite decide_False by (by intros [?|?]%elem_of_cons).
        by apply lookup_insert_ne.
Qed.

(** [assembly_to_dbprefix] after the second loop. *)
Lemma build_dbs_dict db_dir paths d w d' w' :
  build_dbs spawn db_dir paths d w = (inr d', w') ->
  forall m, d' !! m =
    if decide (m ∈ paths) then Some (db_prefix_of db_dir m) else d !! m.
Proof.
  revert d w. induction paths as [|asm paths IH]; intros d w H m.
  - simpl in H. unfold ret in H. injection H as <- _.
    rewrite decide_False; [done|apply not_elem_of_nil].
  - simpl in H. bind_ok_inv H u w1 H1.
    rewrite (IH _ _ H m).
    destruct (decide (m ∈ paths)) as [Hin|Hnin].
    + rewrite decide_True; [done|by right].
    + destruct (decide (m = asm)) as [->|Hne].
      * rewrite decide_True by left. apply lookup_insert_eq.
      * rewrite decide_False by (by intros [?|?]%elem_of_cons).
        by apply lookup_insert_ne.
Qed.

Lemma blast_runs_app evs1 evs2 :
  blast_runs (evs1 ++ evs2) = blast_runs evs1 ++ blast_runs evs2.
Proof. apply omap_app. Qed.

Lemma blast_runs_before evs : Forall before_report evs -> blast_runs evs = [].
Proof.
  intros F. apply (omap_none_Forall _ _ _ F).
  intros [] He; try done. simpl in He. rewrite decide_False; [done|].
  rewrite He. by intros [=].
Qed.

Lemma blast_runs_rows out rows : blast_runs (EvWriteRow out <$> rows) = [].
Proof. by induction rows. Qed.

(** The inner loop when every search returns. *)
Lemma inner_loop_ok out tmp_dir db_dir qf d acc paths :
  (forall m, m ∈ paths -> d !! m = Some (db_prefix_of db_dir m)) ->
  forall w w' rows0,
    tables w !! Pathlib.str out = Some rows0 ->
    for_ paths (compare_pair spawn out tmp_dir qf d acc) w = (inr tt, w') ->
    exists evs rows,
      trace w' = trace w ++ evs
      /\ blast_runs evs =
           (fun m => blastn_cmd qf (db_prefix_of db_dir m)
                       (tmp_out_of tmp_dir acc m)) <$> paths
      /\ tables w' !! Pathlib.str out = Some (rows0 ++ rows)
      /\ (no_hits spawn ->
            rows = (fun m => placeholder (comparison_of acc m)) <$> paths).
Proof.
  induction paths as [|m paths IH]; intros Hd w w' rows0 Hr H.
  - simpl in H. unfold ret in H. injection H as <-.
    exists [], []. rewrite !app_nil_r. by repeat split.
  - simpl in H. bind_ok_inv H u w1 H1.
    rewrite (compare_pair_eq out tmp_dir qf d acc m _ w rows0
               (Hd m ltac:(left)) Hr) in H1.
    simpl in H1. case_bool_decide; [done|]. destruct u. injection H1 as <-.
    assert (forall m0, m0 ∈ paths -> d !! m0 = Some (db_prefix_of db_dir m0))
      as Hd' by (intros; apply Hd; by right).
    match type of H with
    | for_ _ _ ?w1 = _ =>
        assert (tables w1 !! Pathlib.str out = Some (rows0 ++
                  pair_rows (files w1) (tmp_out_of tmp_dir acc m)
                    (comparison_of acc m))) as Hr1
          by (simpl; apply lookup_insert_eq)
    end.
    destruct (IH Hd' _ _ _ Hr1 H) as (evs & rows & E & B & T & N).
    eexists (_ :: _ ++ evs), (_ ++ rows). split; [|split; [|split]].
    + rewrite E. simpl. by rewrite <- app_assoc.
    + simpl. rewrite blast_runs_app, blast_runs_rows, B. done.
    + by rewrite T, <- app_assoc.
    + intros Hno. rewrite (N Hno). unfold pair_rows. cbn [files].
      by rewrite Hno.
Qed.

(** Both loops when every search returns. *)
Lemma loops_ok out tmp_dir db_dir q d1 d2 accs paths :
  (forall a, a ∈ accs -> d1 !! a = Some (fasta_path_of q a)) ->
  (forall m, m ∈ paths -> d2 !! m = Some (db_prefix_of db_dir m)) ->
  forall w w' rows0,
    tables w !! Pathlib.str out = Some rows0 ->
    for_ accs (fun acc =>
      qf <- dict_get d1 acc acc ;;
      for_ paths (compare_pair spawn out tmp_dir qf d2 acc)) w = (inr tt, w') ->
    exists evs rows,
      trace w' = trace w ++ evs
      /\ blast_runs evs =
           all_pairs (fun a m => blastn_cmd (fasta_path_of q a)
                                  (db_prefix_of db_dir m)
                                  (tmp_out_of tmp_dir a m)) accs paths
      /\ tables w' !! Pathlib.str out = Some (rows0 ++ rows)
      /\ (no_hits spawn ->
            rows = all_pairs (fun a m => placeholder (comparison_of a m))
                     accs paths).
Proof.
  intros Hd1 Hd2. induction accs as [|a accs IH]; intros w w' rows0 Hr H.
  - simpl in H. unfold ret in H. injection H as <-.
    exists [], []. rewrite !app_nil_r. by repeat split.
  - simpl in H. bind_ok_inv H u w1 H1.
    unfold dict_get in H1. rewrite (Hd1 a ltac:(left)) in H1.
    unfold bind, ret in H1.
    destruct u.
    apply (inner_loop_ok _ _ db_dir _ _ _ _ Hd2 _ _ _ Hr) in H1
      as (evs1 & rows1 & E1 & B1 & T1 & N1).
    assert (forall a0, a0 ∈ accs -> d1 !! a0 = Some (fasta_path_of q a0))
      as Hd1' by (intros; apply Hd1; by right).
    destruct (IH Hd1' _ _ _ T1 H) as (evs & rows & E & B & T & N).
    exists (evs1 ++ evs), (rows1 ++ rows). split; [|split; [|split]].
    + by rewrite E, E1, <- app_assoc.
    + by rewrite blast_runs_app, B1, B.
    + by rewrite T, <- app_assoc.
    + intros Hno. by rewrite (N1 Hno), (N Hno).
Qed.

(** A run of [pipeline] that returns: one search for each pair, in the
    order of the loops, and the header and the rows in the report. *)
Lemma pipeline_ok args paths accs w z w' :
  pipeline spawn resolve args paths accs w = (inr z, w') ->
  exists evs rows,
    trace w' = trace w ++ evs
    /\ blast_runs evs = all_pairs (search_cmd resolve args) accs paths
    /\ tables w' !! Pathlib.str (out_path_of resolve args)
         = Some (header :: rows)
    /\ (no_hits spawn ->
          rows = all_pairs (fun a m => placeholder (comparison_of a m))
                   accs paths).
Proof.
  unfold pipeline, mkdir, print. rewrite !bind_log. intros H.
  bind_ok_inv H d1 w1 H1. bind_ok_inv H d2 w2 H2.
  destruct (emits_download_queries _ _ _ _ _ _ _ _ H1) as (evs1 & E1 & F1).
  destruct (emits_build_dbs _ _ _ _ _ _ _ H2) as (evs2 & E2 & F2).
  pose proof (download_queries_dict _ _ _ _ _ _ _ H1) as D1.
  pose proof (build_dbs_dict _ _ _ _ _ _ H2) as D2.
  unfold bind at 1 in H. unfold open_w at 1 in H.
  unfold bind at 1, finally at 1, write_cumulative, bind at 1, writerow at 1 in H.
  match type of H with
  | context [for_ accs ?body ?w0] =>
      destruct (for_ accs body w0) as [r3 w3] eqn:H3
  end.
  destruct r3 as [e3|[]]; [done|].
  rewrite !bind_log in H. unfold ret in H. injection H as _ <-.
  eapply (loops_ok _ _ (db_dir_of resolve args) (queries_dir_of resolve args))
    with (rows0 := [header]) in H3 as (evs3 & rows & E3 & B3 & T3 & N3).
  - exists (EvMkdir (Pathlib.str (tmp_dir_of resolve args))
            :: EvMkdir (Pathlib.str (outdir_of resolve args))
            :: evs1 ++ evs2
            ++ EvOpen (Pathlib.str (out_path_of resolve args))
            :: EvWriteRow (Pathlib.str (out_path_of resolve args)) header
            :: evs3
            ++ [EvClose (Pathlib.str (out_path_of resolve args));
                EvPrint ("Done. Cumulative results: "
                         +:+ Pathlib.str (out_path_of resolve args));
                EvPrint ("Cached workdir: "
                         +:+ Pathlib.str (workdir_of resolve args))]), rows.
    split; [|split; [|split]].
    + simpl. rewrite E3. simpl. rewrite E2, E1. by app_norm.
    + change (blast_runs (?a :: ?b :: ?l)) with (blast_runs l).
      rewrite !blast_runs_app.
      rewrite (blast_runs_before evs1), (blast_runs_before evs2).
      * change (blast_runs (?a :: ?b :: ?l)) with (blast_runs l).
        rewrite blast_runs_app, B3. simpl. by rewrite app_nil_r.
      * eapply Forall_impl; [exact F2|apply before_report_build].
      * eapply Forall_impl; [exact F1|apply before_report_fetch].
    + simpl. exact T3.
    + exact N3.
  - intros a Ha. rewrite D1. by rewrite decide_True.
  - intros m Hm. rewrite D2. by rewrite decide_True.
  - simpl. by rewrite !lookup_insert_eq.
Qed.

Lemma main_returns args w z w' :
  main spawn resolve args w = (inr z, w') ->
  exists assemblies accessions,
    read_inputs args w = (inr (assemblies, accessions), w)
    /\ pipeline spawn resolve args (resolve_all resolve assemblies)
         accessions w = (inr z, w').
Proof.
  intros H. apply main_cases in H as [[_ [e [=]]]|(A & I & H1 & _ & _ & _ & H)].
  by exists A, I.
Qed.

End Comparisons.

(** ** The input lists *)

Section InputFacts.

Context {Env : Type}.
Variable spawn :
  list string -> gmap string string -> Env -> proc * gmap string string * Env.
Variable resolve : Path -> Path.
Implicit Types w : world Env.

Lemma lstrip_blank line :
  Spec.first_non_space line = None -> Str.lstrip line = "".
Proof.
  induction line as [|c line IH]; simpl; [done|].
  by destruct (Str.isspace c).
Qed.

Lemma lstrip_first line c :
  Spec.first_non_space line = Some c ->
  exists rest, Str.lstrip line = String c rest /\ Str.isspace c = false.
Proof.
  induction line as [|a line IH]; simpl; [done|].
  destruct (Str.isspace a) eqn:E; [done|].
  intros [= ->]. by exists line.
Qed.

Lemma rstrip_first c rest :
  Str.isspace c = false -> exists rest', Str.rstrip (String c rest) = String c rest'.
Proof.
  intros Hc. simpl. destruct (Str.rstrip rest); rewrite ?Hc; by eexists.
Qed.

Lemma startswith_hash c rest :
  Str.startswith (String c rest) "#" = Ascii.eqb c "#".
Proof.
  unfold Str.startswith. cbn [String.prefix].
  destruct (ascii_dec "#" c) as [<-|Hne].
  - rewrite Ascii.eqb_refl. by destruct rest.
  - symmetry. apply Ascii.eqb_neq. congruence.
Qed.

(** A line counts exactly when what [strip] leaves of it is not empty
    and does not begin with the comment sign. *)
Lemma counts_strip line :
  Spec.counts line = true <->
  Str.strip line ≠ "" /\ Str.startswith (Str.strip line) "#" = false.
Proof.
  unfold Spec.counts, Str.strip.
  destruct (Spec.first_non_space line) as [c|] eqn:E.
  - destruct (lstrip_first _ _ E) as (rest & -> & Hc).
    destruct (rstrip_first c rest Hc) as (rest' & ->).
    rewrite startswith_hash.
    destruct (Ascii.eqb c "#"); simpl; [|done]. split; [done|]. by intros [_ ?].
  - rewrite (lstrip_blank _ E). simpl. split; [done|]. by intros [? _].
Qed.

Lemma list_items_counts text :
  list_items text =
    map Str.strip (filter (fun l => Spec.counts l = true) (Str.splitlines text)).
Proof.
  unfold list_items. induction (Str.splitlines text) as [|l ls IH]; [done|].
  simpl. rewrite !filter_cons, IH.
  destruct (decide (Spec.counts l = true)) as [Hc|Hc].
  - rewrite decide_True; [done|]. by apply counts_strip.
  - rewrite decide_False; [done|]. by rewrite <- counts_strip.
Qed.

Lemma read_list_files_found l w :
  find (fun fp => Spec.missing (files w) (Pathlib.parse fp)) l = None ->
  read_list_files l w = (inr (flat_map (Spec.listed (files w)) l), w).
Proof.
  induction l as [|fp l IH]; simpl; [done|].
  unfold Spec.missing at 1, bind at 1, get_files at 1, path_exists.
  destruct (bool_decide (is_Some (files w !! Pathlib.str (Pathlib.parse fp))))
    eqn:Hex; simpl; [|done].
  intros Hf. unfold read_text, bind at 1 2, get_files.
  apply bool_decide_eq_true_1 in Hex as [data Hd]. rewrite Hd.
  unfold ret at 1. unfold bind. rewrite (IH Hf).
  unfold ret, Spec.listed. rewrite Hd. by rewrite list_items_counts.
Qed.

Lemma read_list_files_missing l w fp :
  find (fun fp => Spec.missing (files w) (Pathlib.parse fp)) l = Some fp ->
  read_list_files l w =
    (inl (FileNotFoundError ("List file not found: " +:+ fp)), w).
Proof.
  induction l as [|a l IH]; simpl; [done|].
  unfold Spec.missing at 1, bind at 1, get_files at 1, path_exists.
  destruct (bool_decide (is_Some (files w !! Pathlib.str (Pathlib.parse a))))
    eqn:Hex; simpl.
  - intros Hf. unfold read_text, bind at 1 2, get_files.
    apply bool_decide_eq_true_1 in Hex as [data Hd]. rewrite Hd.
    unfold ret at 1. unfold bind. by rewrite (IH Hf).
  - by intros [= ->].
Qed.

Lemma find_app {A} (f : A -> bool) l1 l2 :
  find f (l1 ++ l2) =
    match find f l1 with Some x => Some x | None => find f l2 end.
Proof. induction l1 as [|x l1 IH]; simpl; [done|]. by destruct (f x). Qed.

Lemma read_inputs_found args w :
  find (fun fp => Spec.missing (files w) (Pathlib.parse fp))
    (Spec.list_files args) = None ->
  read_inputs args w =
    (inr (Spec.assemblies args (files w), Spec.accessions args (files w)), w).
Proof.
  unfold Spec.list_files. rewrite find_app.
  destruct (find _ (assembly_file args)) eqn:HA; [done|]. intros HI.
  unfold read_inputs.
  rewrite (bind_ok _ _ _ _ _ (read_list_files_found _ _ HA)).
  by rewrite (bind_ok _ _ _ _ _ (read_list_files_found _ _ HI)).
Qed.

Lemma read_inputs_missing args w fp :
  find (fun fp => Spec.missing (files w) (Pathlib.parse fp))
    (Spec.list_files args) = Some fp ->
  read_inputs args w =
    (inl (FileNotFoundError ("List file not found: " +:+ fp)), w).
Proof.
  unfold Spec.list_files. rewrite find_app.
  destruct (find _ (assembly_file args)) eqn:HA.
  - intros [= ->]. unfold read_inputs.
    by rewrite (bind_err _ _ _ _ _ (read_list_files_missing _ _ _ HA)).
  - intros HI. unfold read_inputs.
    rewrite (bind_ok _ _ _ _ _ (read_list_files_found _ _ HA)).
    by rewrite (bind_err _ _ _ _ _ (read_list_files_missing _ _ _ HI)).
Qed.

Lemma check_assemblies_found paths w :
  find (Spec.missing (files w)) paths = None ->
  check_assemblies paths w = (inr tt, w).
Proof.
  unfold check_assemblies.
  induction paths as [|p paths IH]; simpl; [done|].
  unfold Spec.missing at 1, bind at 1 2, get_files at 1, path_exists.
  destruct (bool_decide (is_Some (files w !! Pathlib.str p))); simpl; [|done].
  apply IH.
Qed.

Lemma check_assemblies_missing paths w p :
  find (Spec.missing (files w)) paths = Some p ->
  check_assemblies paths w =
    (inl (FileNotFoundError ("Assembly not found: " +:+ Pathlib.str p)), w).
Proof.
  unfold check_assemblies.
  induction paths as [|a paths IH]; simpl; [done|].
  unfold Spec.missing at 1, bind at 1 2, get_files at 1, path_exists.
  destruct (bool_decide (is_Some (files w !! Pathlib.str a))); simpl.
  - apply IH.
  - by intros [= ->].
Qed.

(** Every input error stops [main] with the world as it was. *)
Lemma main_input_fault args w e :
  Spec.input_fault resolve args (files w) e ->
  main spawn resolve args w = (inl e, w).
Proof.
  intros [fp Hf|Hf HA|Hf HA HI|p Hf HA HI Hp]; unfold main.
  - by rewrite (bind_err _ _ _ _ _ (read_inputs_missing _ _ _ Hf)).
  - rewrite (bind_ok _ _ _ _ _ (read_inputs_found _ _ Hf)).
    by rewrite bool_decide_eq_true_2.
  - rewrite (bind_ok _ _ _ _ _ (read_inputs_found _ _ Hf)).
    rewrite bool_decide_eq_false_2 by done.
    by rewrite bool_decide_eq_true_2.
  - rewrite (bind_ok _ _ _ _ _ (read_inputs_found _ _ Hf)).
    rewrite !bool_decide_eq_false_2 by done.
    by rewrite (bind_err _ _ _ _ _ (check_assemblies_missing _ _ _ Hp)).
Qed.

End InputFacts.

(** ** The report, search by search *)

Section SearchFacts.

Context {Env : Type}.
Variable spawn :
  list string -> gmap string string -> Env -> proc * gmap string string * Env.
Variable resolve : Path -> Path.
Implicit Types w : world Env.

Lemma search_all_app cmd l1 l2 fs env :
  search_all spawn cmd (l1 ++ l2) fs env =
    match (search_all spawn cmd l1 fs env).2 with
    | Some f => search_all spawn cmd l1 fs env
    | None =>
        let e := search_end spawn cmd l1 fs env in
        ((search_all spawn cmd l1 fs env).1
           ++ (search_all spawn cmd l2 e.1 e.2).1,
         (search_all spawn cmd l2 e.1 e.2).2)
    end.
Proof.
  revert fs env. induction l1 as [|pr l1 IH]; intros fs env.
  - simpl. by destruct (search_all spawn cmd l2 fs env).
  - cbn [app search_all search_end]. case_bool_decide; [done|].
    cbn [fst snd]. rewrite IH.
    by destruct (search_all spawn cmd l1 _ _) as [dn [f|]].
Qed.

Lemma search_end_app cmd l1 l2 fs env :
  search_end spawn cmd (l1 ++ l2) fs env =
    match (search_all spawn cmd l1 fs env).2 with
    | Some f => search_end spawn cmd l1 fs env
    | None =>
        let e := search_end spawn cmd l1 fs env in
        search_end spawn cmd l2 e.1 e.2
    end.
Proof.
  revert fs env. induction l1 as [|pr l1 IH]; intros fs env.
  - done.
  - cbn [app search_all search_end]. case_bool_decide; [done|].
    cbn [fst snd]. by rewrite IH.
Qed.

(** The pairs searched are the first pairs of the list: those whose search
    returned, then the one whose search failed; every search that returned
    gave status 0, and the one that failed did not. *)
Lemma search_all_pairs cmd pairs fs env :
  let s := search_all spawn cmd pairs fs env in
  Forall (fun d => returncode d.2.1.1 = 0%Z) s.1
  /\ match s.2 with
     | Some f =>
         returncode f.2.1.1 ≠ 0%Z
         /\ exists later, pairs = (fst <$> s.1) ++ f.1 :: later
     | None => pairs = fst <$> s.1
     end.
Proof.
  revert fs env. induction pairs as [|pr pairs IH]; intros fs env.
  - by split.
  - cbn [search_all]. case_bool_decide as Hrc.
    + split; [constructor|]. split; [done|]. by exists pairs.
    + destruct (IH (spawn (cmd pr) fs env).1.2 (spawn (cmd pr) fs env).2)
        as [F P].
      destruct (search_all spawn cmd pairs (spawn (cmd pr) fs env).1.2
                  (spawn (cmd pr) fs env).2) as [dn fo].
      cbn [fst snd] in *. split.
      * constructor; [|done]. cbn [fst snd].
        destruct (decide (returncode (spawn (cmd pr) fs env).1.1 = 0%Z))
          as [E|E]; [exact E|first [done|by destruct Hrc]].
      * destruct fo as [f|].
        -- destruct P as [Hf [later P]]. split; [done|]. exists later.
           cbn [fmap list_fmap app fst]. by f_equal.
        -- cbn [fmap list_fmap fst]. by f_equal.
Qed.

(** Every search that returned was run on the files and the outside the
    search before it left, the first on those the loops began with. *)
Lemma search_all_chain cmd pairs fs env :
  let s := search_all spawn cmd pairs fs env in
  forall i d,
    s.1 !! i = Some d ->
    d.2 = spawn (cmd d.1)
            (search_end spawn cmd (take i pairs) fs env).1
            (search_end spawn cmd (take i pairs) fs env).2.
Proof.
  revert fs env. induction pairs as [|pr pairs IH]; intros fs env s i d.
  - subst s. by destruct i.
  - subst s. cbn [search_all].
    destruct (bool_decide (returncode (spawn (cmd pr) fs env).1.1 ≠ 0%Z))
      eqn:Hrc; [by destruct i|].
    destruct i as [|i]; cbn [fst snd].
    + by intros [= <-].
    + intros Hd. cbn [take search_end]. rewrite Hrc. by apply IH.
Qed.

Lemma inner_loop_run out tmp_dir db_dir q d acc paths :
  (forall m, m ∈ paths -> d !! m = Some (db_prefix_of db_dir m)) ->
  let cmd := fun pr : string * Path =>
    blastn_cmd (fasta_path_of q pr.1) (db_prefix_of db_dir pr.2)
      (tmp_out_of tmp_dir pr.1 pr.2) in
  forall w r w' rows0,
    tables w !! Pathlib.str out = Some rows0 ->
    for_ paths (compare_pair spawn out tmp_dir (fasta_path_of q acc) d acc) w
      = (r, w') ->
    let s := search_all spawn cmd (pair acc <$> paths) (files w) (outside w) in
    r = search_result cmd s.2 tt
    /\ trace w' = trace w ++ concat (events_of cmd out tmp_dir <$> s.1)
                    ++ failed_event cmd s.2
    /\ tables w' !! Pathlib.str out
       = Some (rows0 ++ concat (rows_of tmp_dir <$> s.1))
    /\ (files w', outside w')
       = search_end spawn cmd (pair acc <$> paths) (files w) (outside w).
Proof.
  intros Hd cmd.
  induction paths as [|m paths IH]; intros w r w' rows0 Hr H s.
  - simpl in H. unfold ret in H. injection H as <- <-. subst s. simpl.
    rewrite !app_nil_r. by repeat split.
  - simpl in H.
    pose proof (compare_pair_eq spawn out tmp_dir (fasta_path_of q acc) d acc m
                  _ w rows0 (Hd m ltac:(left)) Hr) as Hc.
    simpl in Hc. subst s. cbn [fmap list_fmap search_all search_end].
    change (cmd (acc, m)) with
      (blastn_cmd (fasta_path_of q acc) (db_prefix_of db_dir m)
         (tmp_out_of tmp_dir acc m)).
    bind_cases H u w1 H1.
    + rewrite Hc in H1. case_bool_decide as Hrc; [done|]. destruct u.
      injection H1 as <-.
      assert (forall m0, m0 ∈ paths -> d !! m0 = Some (db_prefix_of db_dir m0))
        as Hd' by (intros; apply Hd; by right).
      match type of H with
      | for_ _ _ ?w1 = _ =>
          assert (tables w1 !! Pathlib.str out = Some (rows0 ++
                    pair_rows (files w1) (tmp_out_of tmp_dir acc m)
                      (comparison_of acc m))) as Hr1
            by (simpl; apply lookup_insert_eq)
      end.
      destruct (IH Hd' _ _ _ _ Hr1 H) as (R & T & B & E).
      cbn [files outside trace] in R, T, B, E.
      cbn [fst snd fmap list_fmap concat].
      split; [exact R|]. split; [|split; [|exact E]].
      * rewrite T. unfold events_of at 2, rows_of. cbn [fst snd].
        by rewrite <- !app_assoc.
      * rewrite B. unfold rows_of at 2. cbn [fst snd].
        by rewrite <- app_assoc.
    + rewrite Hc in H. case_bool_decide as Hrc; [|done].
      injection H as <- <-. cbn [fst snd fmap list_fmap concat].
      rewrite !app_nil_r. by repeat split.
Qed.

Lemma loops_run out tmp_dir db_dir q d1 d2 accs paths :
  (forall a, a ∈ accs -> d1 !! a = Some (fasta_path_of q a)) ->
  (forall m, m ∈ paths -> d2 !! m = Some (db_prefix_of db_dir m)) ->
  let cmd := fun pr : string * Path =>
    blastn_cmd (fasta_path_of q pr.1) (db_prefix_of db_dir pr.2)
      (tmp_out_of tmp_dir pr.1 pr.2) in
  forall w r w' rows0,
    tables w !! Pathlib.str out = Some rows0 ->
    for_ accs (fun acc =>
      qf <- dict_get d1 acc acc ;;
      for_ paths (compare_pair spawn out tmp_dir qf d2 acc)) w = (r, w') ->
    let s := search_all spawn cmd (all_pairs pair accs paths)
               (files w) (outside w) in
    r = search_result cmd s.2 tt
    /\ trace w' = trace w ++ concat (events_of cmd out tmp_dir <$> s.1)
                    ++ failed_event cmd s.2
    /\ tables w' !! Pathlib.str out
       = Some (rows0 ++ concat (rows_of tmp_dir <$> s.1))
    /\ (files w', outside w')
       = search_end spawn cmd (all_pairs pair accs paths) (files w) (outside w).
Proof.
  intros Hd1 Hd2 cmd.
  induction accs as [|a accs IH]; intros w r w' rows0 Hr H s.
  - simpl in H. unfold ret in H. injection H as <- <-. subst s. simpl.
    rewrite !app_nil_r. by repeat split.
  - simpl in H. unfold dict_get in H. rewrite (Hd1 a ltac:(left)) in H.
    change (bind (ret ?x) ?k) with (k x) in H.
    assert (forall a0, a0 ∈ accs -> d1 !! a0 = Some (fasta_path_of q a0))
      as Hd1' by (intros; apply Hd1; by right).
    subst s. unfold all_pairs. cbn [flat_map].
    fold (all_pairs pair accs paths).
    change (map (pair a) paths) with (pair a <$> paths).
    rewrite search_all_app, search_end_app.
    bind_cases H u w1 H1.
    + destruct (inner_loop_run out tmp_dir db_dir q d2 a paths Hd2
                  _ _ _ _ Hr H1) as (R1 & T1 & B1 & E1).
      fold cmd in R1, T1, B1, E1.
      destruct (search_all spawn cmd (pair a <$> paths) (files w) (outside w)).2
        as [f|] eqn:Hf; [done|].
      cbn [failed_event] in T1. rewrite app_nil_r in T1.
      destruct (IH Hd1' _ _ _ _ B1 H) as (R & T & B & E).
      rewrite <- E1. cbn [fst snd].
      split; [exact R|]. split; [|split; [|exact E]].
      * rewrite T, T1, fmap_app, concat_app. by rewrite <- !app_assoc.
      * rewrite B, fmap_app, concat_app. by rewrite <- app_assoc.
    + destruct (inner_loop_run out tmp_dir db_dir q d2 a paths Hd2
                  _ _ _ _ Hr H) as (R1 & T1 & B1 & E1).
      fold cmd in R1, T1, B1, E1.
      destruct (search_all spawn cmd (pair a <$> paths) (files w) (outside w)).2
        as [f|] eqn:Hf; [|done].
      rewrite Hf. by repeat split.
Qed.

End SearchFacts.

Section RunFacts.

Context {Env : Type}.
Variable spawn :
  list string -> gmap string string -> Env -> proc * gmap string string * Env.
Variable resolve : Path -> Path.
Implicit Types w : world Env.

Lemma blast_runs_blastn q db o l :
  blast_runs (EvRun (blastn_cmd q db o) :: l)
  = blastn_cmd q db o :: blast_runs l.
Proof. reflexivity. Qed.

Lemma blast_runs_events_of args out tmp_dir
    (ds : list ((string * Path) * (proc * gmap string string * Env))) :
  blast_runs (concat (events_of (search_of resolve args) out tmp_dir <$> ds))
  = search_of resolve args <$> (fst <$> ds).
Proof.
  induction ds as [|d ds IH]; [done|].
  cbn [fmap list_fmap concat]. unfold events_of at 1.
  rewrite blast_runs_app, IH. unfold search_of at 1, search_cmd.
  by rewrite blast_runs_blastn, blast_runs_rows.
Qed.

Lemma blast_runs_report_end args
    (f : option ((string * Path) * (proc * gmap string string * Env))) :
  blast_runs (report_end resolve args f)
  = search_of resolve args <$> option_list (fst <$> f).
Proof.
  destruct f as [f|]; [|done]. unfold report_end, failed_event.
  cbn [app]. unfold search_of at 1, search_cmd.
  by rewrite blast_runs_blastn.
Qed.

(** A run of [pipeline], search by search. *)
Lemma pipeline_run args paths accs w r w' :
  pipeline spawn resolve args paths accs w = (r, w') ->
  exists evs1,
    Forall before_report evs1
    /\ ((trace w' = trace w ++ evs1 /\ exists e, r = inl e)
        \/ exists w2,
             trace w2 = trace w ++ evs1
             /\ let s := search_all spawn (search_of resolve args)
                           (all_pairs pair accs paths)
                           (files w2) (outside w2) in
                r = search_result (search_of resolve args) s.2 0%Z
                /\ trace w' =
                     trace w2
                     ++ EvOpen (Pathlib.str (out_path_of resolve args))
                     :: EvWriteRow (Pathlib.str (out_path_of resolve args))
                          header
                     :: concat (events_of (search_of resolve args)
                                  (out_path_of resolve args)
                                  (tmp_dir_of resolve args) <$> s.1)
                     ++ report_end resolve args s.2
                /\ tables w' !! Pathlib.str (out_path_of resolve args)
                   = Some (header
                           :: concat (rows_of (tmp_dir_of resolve args)
                                        <$> s.1))).
Proof.
  unfold pipeline, mkdir, print. rewrite !bind_log. intros H.
  pose (evs0 := [EvMkdir (Pathlib.str (tmp_dir_of resolve args));
                 EvMkdir (Pathlib.str (outdir_of resolve args))]).
  assert (Forall before_report evs0) as F0 by (by repeat constructor).
  bind_cases H d1 w1 H1.
  2: { destruct (emits_download_queries _ _ _ _ _ _ _ _ H) as (evs1 & E1 & F1).
       cbn [emit trace] in E1.
       exists (evs0 ++ evs1). split.
       - apply Forall_app. split; [done|].
         eapply Forall_impl; [exact F1|apply before_report_fetch].
       - left. split; [|by eexists].
         rewrite E1. subst evs0. by rewrite <- !app_assoc. }
  destruct (emits_download_queries _ _ _ _ _ _ _ _ H1) as (evs1 & E1 & F1).
  cbn [emit trace] in E1.
  pose proof (download_queries_dict _ _ _ _ _ _ _ _ H1) as D1.
  bind_cases H d2 w2 H2.
  2: { destruct (emits_build_dbs _ _ _ _ _ _ _ H) as (evs2 & E2 & F2).
       exists (evs0 ++ evs1 ++ evs2). split.
       - repeat (apply Forall_app; split); [done|..].
         + eapply Forall_impl; [exact F1|apply before_report_fetch].
         + eapply Forall_impl; [exact F2|apply before_report_build].
       - left. split; [|by eexists].
         rewrite E2, E1. subst evs0. by rewrite <- !app_assoc. }
  destruct (emits_build_dbs _ _ _ _ _ _ _ H2) as (evs2 & E2 & F2).
  pose proof (build_dbs_dict _ _ _ _ _ _ _ H2) as D2.
  exists (evs0 ++ evs1 ++ evs2). split.
  { repeat (apply Forall_app; split); [done|..].
    - eapply Forall_impl; [exact F1|apply before_report_fetch].
    - eapply Forall_impl; [exact F2|apply before_report_build]. }
  right. exists w2. split.
  { rewrite E2, E1. subst evs0. by rewrite <- !app_assoc. }
  unfold bind at 1 in H. unfold open_w at 1 in H.
  unfold bind at 1, finally at 1, write_cumulative, bind at 1, writerow at 1 in H.
  match type of H with
  | context [for_ accs ?body ?w0] =>
      destruct (for_ accs body w0) as [r3 w3] eqn:H3
  end.
  eapply (loops_run spawn (out_path_of resolve args) (tmp_dir_of resolve args)
            (db_dir_of resolve args) (queries_dir_of resolve args))
    with (rows0 := [header]) in H3 as (R3 & T3 & B3 & _).
  - cbn [files outside trace] in R3, T3, B3. cbn zeta.
    fold (search_of resolve args) in R3, T3, B3.
    destruct (search_all spawn _ _ _ _).2 as [f|] eqn:Hf.
    + subst r3. cbn [search_result] in H. injection H as <- <-.
      split; [done|]. split; [|exact B3].
      cbn [emit trace]. rewrite T3. unfold report_end.
      by rewrite <- !app_assoc.
    + subst r3. cbn [search_result] in H. rewrite !bind_log in H.
      unfold ret in H. injection H as <- <-.
      split; [done|]. split; [|exact B3].
      cbn [emit trace]. rewrite T3. unfold report_end.
      by rewrite <- !app_assoc.
  - intros a Ha. rewrite D1. by rewrite decide_True.
  - intros m Hm. rewrite D2. by rewrite decide_True.
  - simpl. by rewrite !lookup_insert_eq.
Qed.

(** A run of [main], search by search. *)
Lemma main_run args w r w' :
  main spawn resolve args w = (r, w') ->
  exists evs1,
    Forall before_report evs1
    /\ ((trace w' = trace w ++ evs1 /\ exists e, r = inl e)
        \/ exists w2,
             trace w2 = trace w ++ evs1
             /\ let s := search_all spawn (search_of resolve args)
                           (all_pairs pair (Spec.accessions args (files w))
                              (resolve_all resolve
                                 (Spec.assemblies args (files w))))
                           (files w2) (outside w2) in
                r = search_result (search_of resolve args) s.2 0%Z
                /\ trace w' =
                     trace w2
                     ++ EvOpen (Pathlib.str (out_path_of resolve args))
                     :: EvWriteRow (Pathlib.str (out_path_of resolve args))
                          header
                     :: concat (events_of (search_of resolve args)
                                  (out_path_of resolve args)
                                  (tmp_dir_of resolve args) <$> s.1)
                     ++ report_end resolve args s.2
                /\ tables w' !! Pathlib.str (out_path_of resolve args)
                   = Some (header
                           :: concat (rows_of (tmp_dir_of resolve args)
                                        <$> s.1))).
Proof.
  intros H. apply main_cases in H as [[-> He]|(A & I & H1 & _ & _ & _ & H)].
  { exists []. split; [constructor|]. left. by rewrite app_nil_r. }
  destruct (find (fun fp => Spec.missing (files w) (Pathlib.parse fp))
              (Spec.list_files args)) as [fp|] eqn:Hf.
  { by rewrite (read_inputs_missing _ _ _ Hf) in H1. }
  rewrite (read_inputs_found _ _ Hf) in H1. injection H1 as <- <-.
  by apply pipeline_run.
Qed.

End RunFacts.

(** ** Facts about one row and one pair *)

Lemma placeholder_shape comparison :
  placeholder comparison = comparison :: replicate 11 "".
Proof. reflexivity. Qed.

Lemma pair_rows_absent fs tmp_out comparison :
  present fs tmp_out = false ->
  pair_rows fs tmp_out comparison = [placeholder comparison].
Proof. unfold pair_rows. by intros ->. Qed.

Lemma pair_rows_label fs tmp_out comparison row :
  row ∈ pair_rows fs tmp_out comparison -> head row = Some comparison.
Proof.
  unfold pair_rows, hit_rows.
  destruct (present fs tmp_out).
  - destruct (fs !! Pathlib.str tmp_out); [|by intros ?%elem_of_nil].
    by intros (line & -> & _)%list_elem_of_fmap.
  - by intros ->%list_elem_of_singleton.
Qed.

Lemma all_pairs_length {A B C} (f : A -> B -> C) xs ys :
  length (all_pairs f xs ys) = length xs * length ys.
Proof.
  unfold all_pairs. induction xs as [|x xs IH]; simpl; [done|].
  by rewrite length_app, length_map, IH.
Qed.

Lemma toy_tools_keep_files fetched hits status :
  keeps_files (Toy.tools fetched hits status) "get_ref.sh".
Proof. intros acc fs env key H. exact H. Qed.

Lemma toy_tools_no_hits fetched status :
  no_hits (Toy.tools fetched (Some "") status).
Proof.
  intros q db out fs env. rewrite present_nonempty_at. unfold nonempty_at.
  simpl. by rewrite lookup_insert_eq.
Qed.

(** ** The claims of the specification *)

(** C1, at the input where the script departs from it.  The claim: every
    pair has at least one row in the report.  Here the search of the only
    pair leaves a result file that holds one line feed: the file is not
    empty, so no placeholder is written, and its only line is blank, so no
    row is written either.  The run returns and the report holds the header
    and nothing else. *)
Theorem C1_blank_result_leaves_no_row :
  let run :=
    main (Toy.tools Toy.fasta_of (Some (String Str.LF "")) 0) id
      (Toy.args_of ["/data/genome.fasta"] ["NC_001"])
      (Toy.world_with {[ "/data/genome.fasta" := ">chr1" ]}) in
  run.1 = inr 0%Z
  /\ files run.2 !! "/w/tmp/NC_001_vs_genome_asm_db.tsv" = Some (String Str.LF "")
  /\ pair_rows (files run.2)
       (Pathlib.parse "/w/tmp/NC_001_vs_genome_asm_db.tsv")
       "NC_001_vs_genome_asm_db" = []
  /\ Toy.report run.2 = Some [header].
Proof. vm_compute. by repeat split. Qed.

(** C2 as stated fails: the labels of the rows are not unique.  With the
    accessions NC_001 and NC_002 and two assemblies of the same file name in
    two directories, the four rows carry two labels. *)
Lemma C2_labels_repeat :
  let run :=
    main (Toy.tools Toy.fasta_of None 0) id
      (Toy.args_of ["/a/genomeA.fasta"; "/b/genomeA.fna"] ["NC_001"; "NC_002"])
      (Toy.world_with
         {[ "/a/genomeA.fasta" := ">chr1"; "/b/genomeA.fna" := ">chr1" ]}) in
  run.1 = inr 0%Z
  /\ exists rows,
       Toy.report run.2 = Some (header :: rows)
       /\ length rows = 2 * 2
       /\ omap head rows =
            ["NC_001_vs_genomeA_asm_db"; "NC_001_vs_genomeA_asm_db";
             "NC_002_vs_genomeA_asm_db"; "NC_002_vs_genomeA_asm_db"]
       /\ ~ NoDup (omap head rows).
Proof.
  split; [by vm_compute|]. eexists. split; [by vm_compute|].
  split; [done|]. split; [done|].
  intros [Hnotin _]%NoDup_cons. apply Hnotin. left.
Qed.

(** C2, amended.  When no search leaves a result behind (no file, or an
    empty one) and the run returns, the report holds the header and one
    placeholder row for each pair, the accessions outside and the
    assemblies inside: the label of the pair and eleven empty fields.
    That is one row for each element of the product of the two lists,
    duplicates counted. *)
Theorem C2_rows_without_hits {Env} spawn resolve args (w : world Env)
    assemblies accessions z w' :
  no_hits spawn ->
  read_inputs args w = (inr (assemblies, accessions), w) ->
  main spawn resolve args w = (inr z, w') ->
  exists rows,
    tables w' !! Pathlib.str (out_path_of resolve args) = Some (header :: rows)
    /\ rows = all_pairs (fun a m => comparison_of a m :: replicate 11 "")
                accessions (resolve_all resolve assemblies)
    /\ length rows = length accessions * length assemblies.
Proof.
  intros Hno Hin H.
  apply main_returns in H as (A & I & Hin' & H).
  rewrite Hin in Hin'. injection Hin' as <- <-.
  apply pipeline_ok in H as (evs & rows & _ & _ & T & N).
  exists rows. split; [done|]. rewrite (N Hno). split; [done|].
  rewrite all_pairs_length. unfold resolve_all. by rewrite length_map.
Qed.

Lemma C2_rows_without_hits_witness :
  let tools := Toy.tools Toy.fasta_of (Some "") 0 in
  let args := Toy.args_of ["/data/genome.fasta"] ["NC_001"; "NC_001"] in
  let w := Toy.world_with {[ "/data/genome.fasta" := ">chr1" ]} in
  no_hits tools
  /\ exists rows,
       tables (main tools id args w).2 !! Pathlib.str (out_path_of id args)
         = Some (header :: rows)
       /\ rows = all_pairs (fun a m => comparison_of a m :: replicate 11 "")
                   ["NC_001"; "NC_001"] (resolve_all id ["/data/genome.fasta"])
       /\ length rows = 2 * 1.
Proof.
  split; [apply toy_tools_no_hits|].
  apply (C2_rows_without_hits (Toy.tools Toy.fasta_of (Some "") 0) id
           (Toy.args_of ["/data/genome.fasta"] ["NC_001"; "NC_001"])
           (Toy.world_with {[ "/data/genome.fasta" := ">chr1" ]})
           ["/data/genome.fasta"] ["NC_001"; "NC_001"] 0%Z).
  - apply toy_tools_no_hits.
  - vm_compute. reflexivity.
  - vm_compute. reflexivity.
Defined.

(** C3 as stated fails: the field layout has eleven fields, not thirteen.
    The search of a run asks for eleven fields, and the aggregator takes a
    result line of any number of fields. *)
Lemma C3_eleven_fields :
  length OUTFMT_COLUMNS <> 13
  /\ length OUTFMT_COLUMNS = 11
  /\ blast_runs
       (trace (main (Toy.tools Toy.fasta_of (Some "q1	s1") 0) id
                 (Toy.args_of ["/data/genome.fasta"] ["NC_001"])
                 (Toy.world_with {[ "/data/genome.fasta" := ">chr1" ]})).2)
     = [["blastn"; "-query"; "/w/queries/NC_001.fasta";
         "-db"; "/w/blastdb/genome_asm_db"; "-outfmt";
         "6 qseqid sseqid pident length qstart qend sstart send evalue bitscore qlen";
         "-max_target_seqs"; "20"; "-evalue"; "1e-20";
         "-out"; "/w/tmp/NC_001_vs_genome_asm_db.tsv"]]
  /\ Toy.report
       (main (Toy.tools Toy.fasta_of (Some "q1	s1") 0) id
          (Toy.args_of ["/data/genome.fasta"] ["NC_001"])
          (Toy.world_with {[ "/data/genome.fasta" := ">chr1" ]})).2
     = Some [header; ["NC_001_vs_genome_asm_db"; "q1"; "s1"]].
Proof. split; [by intros [=]|]. by vm_compute. Qed.

(** C3, amended.  In a run that returns, the searches are one for each
    pair, the accessions outside and the assemblies inside, and each is
    invoked with the layout of eleven named fields, at most 20 matches for
    a query and the e-value ceiling 1e-20.  A placeholder row has eleven
    empty fields behind its label, and a result line becomes a row by
    splitting it at the tabs, whatever the number of its fields. *)
Theorem C3_search_invocations {Env} spawn resolve args (w : world Env)
    assemblies accessions z w' :
  read_inputs args w = (inr (assemblies, accessions), w) ->
  main spawn resolve args w = (inr z, w') ->
  (exists evs,
     trace w' = trace w ++ evs
     /\ blast_runs evs =
          all_pairs
            (fun a m =>
               ["blastn";
                "-query";
                Pathlib.str (fasta_path_of (queries_dir_of resolve args) a);
                "-db";
                Pathlib.str (db_prefix_of (db_dir_of resolve args) m);
                "-outfmt";
                "6 qseqid sseqid pident length qstart qend sstart send evalue bitscore qlen";
                "-max_target_seqs"; "20"; "-evalue"; "1e-20";
                "-out";
                Pathlib.str (tmp_out_of (tmp_dir_of resolve args) a m)])
            accessions (resolve_all resolve assemblies))
  /\ length OUTFMT_COLUMNS = 11
  /\ (forall c, placeholder c = c :: replicate 11 "")
  /\ (forall c line,
        Str.strip line <> "" -> hit_rows c [line] = [c :: Str.split Str.TAB line]).
Proof.
  intros Hin H. split; [|split; [done|split; [done|]]].
  - apply main_returns in H as (A & I & Hin' & H).
    rewrite Hin in Hin'. injection Hin' as <- <-.
    apply pipeline_ok in H as (evs & rows & E & B & _ & _).
    exists evs. split; [done|]. exact B.
  - intros c line Hl. unfold hit_rows. rewrite filter_cons, decide_True by done.
    done.
Qed.

Lemma C3_search_invocations_witness :
  (exists evs,
     trace (main (Toy.tools Toy.fasta_of (Some "") 0) id
              (Toy.args_of ["/data/genome.fasta"] ["NC_001"])
              (Toy.world_with {[ "/data/genome.fasta" := ">chr1" ]})).2
       = [] ++ evs
     /\ blast_runs evs =
          [["blastn"; "-query"; "/w/queries/NC_001.fasta";
            "-db"; "/w/blastdb/genome_asm_db"; "-outfmt";
            "6 qseqid sseqid pident length qstart qend sstart send evalue bitscore qlen";
            "-max_target_seqs"; "20"; "-evalue"; "1e-20";
            "-out"; "/w/tmp/NC_001_vs_genome_asm_db.tsv"]])
  /\ length OUTFMT_COLUMNS = 11
  /\ (forall c, placeholder c = c :: replicate 11 "")
  /\ (forall c line,
        Str.strip line <> "" -> hit_rows c [line] = [c :: Str.split Str.TAB line]).
Proof.
  apply (C3_search_invocations (Toy.tools Toy.fasta_of (Some "") 0) id
           (Toy.args_of ["/data/genome.fasta"] ["NC_001"])
           (Toy.world_with {[ "/data/genome.fasta" := ">chr1" ]})
           ["/data/genome.fasta"] ["NC_001"] 0%Z).
  - vm_compute. reflexivity.
  - vm_compute. reflexivity.
Defined.

(** C4, at the input where the script departs from it.  The claim: the
    index build is skipped exactly when the companion files, named by the
    full prefix and each suffix, are there and not empty, also for a key
    with a dot.  For the assembly genome.v2.fasta the key is genome.v2; with
    the three companion files of the layout in place the build is run all
    the same, because [with_suffix] takes the part of the name behind its
    last dot for a suffix and replaces it: the files looked for are
    genome.nhr, genome.nin and genome.nsq.  With those three in place
    instead, the build is skipped though no companion file exists. *)
Theorem C4_dotted_key_misses_cache :
  let asm := Pathlib.parse "/data/genome.v2.fasta" in
  let db := db_prefix_of (Pathlib.parse "/w/blastdb") asm in
  let cached : gmap string string :=
    {[ "/w/blastdb/genome.v2_asm_db.nhr" := "h";
       "/w/blastdb/genome.v2_asm_db.nin" := "i";
       "/w/blastdb/genome.v2_asm_db.nsq" := "s" ]} in
  let stray : gmap string string :=
    {[ "/w/blastdb/genome.nhr" := "h";
       "/w/blastdb/genome.nin" := "i";
       "/w/blastdb/genome.nsq" := "s" ]} in
  let tools := Toy.tools Toy.fasta_of None 0 in
  sanitize_basename "/data/genome.v2.fasta" = "genome.v2"
  /\ Pathlib.str db = "/w/blastdb/genome.v2_asm_db"
  /\ Spec.companion_files db = ["/w/blastdb/genome.v2_asm_db.nhr";
                                "/w/blastdb/genome.v2_asm_db.nin";
                                "/w/blastdb/genome.v2_asm_db.nsq"]
  /\ Spec.index_cached cached db = true
  /\ (db_exists db (Toy.world_with cached)).1 = inr false
  /\ trace (make_db_if_needed tools asm db (Toy.world_with cached)).2
     = [EvMkdir "/w/blastdb";
        EvRun ["makeblastdb"; "-in"; "/data/genome.v2.fasta"; "-dbtype"; "nucl";
               "-parse_seqids"; "-out"; "/w/blastdb/genome.v2_asm_db"]]
  /\ Spec.index_cached stray db = false
  /\ (db_exists db (Toy.world_with stray)).1 = inr true
  /\ trace (make_db_if_needed tools asm db (Toy.world_with stray)).2
     = [EvMkdir "/w/blastdb"].
Proof. vm_compute. by repeat split. Qed.

(** C5 as stated fails: the report is open while searches are pending.
    In this run of two accessions against one assembly the first search
    returns with a hit and the second fails.  The report was opened and its
    header written before the first search was started; the row of the
    first pair was written before the second search was started; and the
    run leaves a report of the header and that row. *)
Lemma C5_report_open_during_search :
  let run :=
    main (Toy.flaky Toy.fasta_of (Some "q1	s1	99.1") "/w/queries/NC_002.fasta") id
      (Toy.args_of ["/data/genome.fasta"] ["NC_001"; "NC_002"])
      (Toy.world_with {[ "/data/genome.fasta" := ">chr1" ]}) in
  (exists msg, run.1 = inl (RuntimeError msg))
  /\ Toy.report run.2
     = Some [header; ["NC_001_vs_genome_asm_db"; "q1"; "s1"; "99.1"]]
  /\ drop 10 (trace run.2)
     = [EvOpen "/out/cumulative_results.tsv";
        EvWriteRow "/out/cumulative_results.tsv" header;
        EvRun ["blastn"; "-query"; "/w/queries/NC_001.fasta";
               "-db"; "/w/blastdb/genome_asm_db"; "-outfmt";
               "6 qseqid sseqid pident length qstart qend sstart send evalue bitscore qlen";
               "-max_target_seqs"; "20"; "-evalue"; "1e-20";
               "-out"; "/w/tmp/NC_001_vs_genome_asm_db.tsv"];
        EvWriteRow "/out/cumulative_results.tsv"
          ["NC_001_vs_genome_asm_db"; "q1"; "s1"; "99.1"];
        EvRun ["blastn"; "-query"; "/w/queries/NC_002.fasta";
               "-db"; "/w/blastdb/genome_asm_db"; "-outfmt";
               "6 qseqid sseqid pident length qstart qend sstart send evalue bitscore qlen";
               "-max_target_seqs"; "20"; "-evalue"; "1e-20";
               "-out"; "/w/tmp/NC_002_vs_genome_asm_db.tsv"];
        EvClose "/out/cumulative_results.tsv"].
Proof. split; [eexists; by vm_compute|]. by vm_compute. Qed.

(** C5, amended.  Let [pairs] be the pairs of the run, the accessions
    outside and the assemblies inside.  In every run, first come the
    events [evs1]: directories, fetches, cached downloads, index builds,
    and nothing else.  Either the run ends there with an error and the
    report was never opened; or it comes to the world [w2] and from there
    does exactly this: it opens the report, once; it writes the header;
    then, pair after pair, it runs the search of the pair and, when the
    search has returned with status 0, writes the rows of the pair, read
    from the files as that search left them, before the next search is
    started; at the first search that returns another status, or behind
    the last pair, it closes the report.  So the report is open while the
    searches run, and it is written as they return.  The report then holds
    the header and the rows of the pairs whose search returned: all the
    pairs when the run returns 0; the pairs before the one whose search
    failed when the run ends with the error of that search. *)
Theorem C5_report_opened_before_searches {Env} spawn resolve args
    (w : world Env) :
  let run := main spawn resolve args w in
  let out := out_path_of resolve args in
  let tmp_dir := tmp_dir_of resolve args in
  let cmd := search_of resolve args in
  let pairs :=
    all_pairs pair (Spec.accessions args (files w))
      (resolve_all resolve (Spec.assemblies args (files w))) in
  exists evs1,
    Forall before_report evs1
    /\ ((trace run.2 = trace w ++ evs1 /\ exists e, run.1 = inl e)
        \/ exists w2,
             trace w2 = trace w ++ evs1
             /\ let s := search_all spawn cmd pairs (files w2) (outside w2) in
                trace run.2 =
                  trace w2
                  ++ EvOpen (Pathlib.str out)
                  :: EvWriteRow (Pathlib.str out) header
                  :: concat (events_of cmd out tmp_dir <$> s.1)
                  ++ report_end resolve args s.2
                /\ tables run.2 !! Pathlib.str out
                   = Some (header :: concat (rows_of tmp_dir <$> s.1))
                /\ run.1 = search_result cmd s.2 0%Z
                /\ Forall (fun d => returncode d.2.1.1 = 0%Z) s.1
                /\ match s.2 with
                   | Some f =>
                       returncode f.2.1.1 ≠ 0%Z
                       /\ exists later, pairs = (fst <$> s.1) ++ f.1 :: later
                   | None => pairs = fst <$> s.1
                   end).
Proof.
  intros run out tmp_dir cmd pairs. subst run.
  destruct (main spawn resolve args w) as [r w'] eqn:H.
  apply main_run in H as (evs1 & F1 & [[E He]|(w2 & E2 & R & T & B)]).
  - exists evs1. split; [done|]. by left.
  - exists evs1. split; [done|]. right. exists w2. split; [done|].
    cbn zeta. cbn [fst snd]. split; [exact T|]. split; [exact B|].
    split; [exact R|].
    apply (search_all_pairs spawn cmd pairs (files w2) (outside w2)).
Qed.

(** C6.  Let the inputs be valid and let the downloads before [acc] have
    gone well.  If the cache misses for [acc] and the fetch tool returns
    with status 0 and an output that does not begin with the record
    marker, the run stops with the content-shape error: the files are as
    the fetch tool left them (the script writes no cache file), the last
    thing done is the call of the fetch tool, and before it the run has
    only created directories, fetched and cached the earlier downloads:
    no index was built, no search run, no report opened. *)
Theorem C6_bad_fetch_aborts {Env} spawn resolve args (w : world Env)
    assemblies pre acc post d w2 p fs env :
  read_inputs args w = (inr (assemblies, pre ++ acc :: post), w) ->
  assemblies <> [] ->
  check_assemblies (resolve_all resolve assemblies) w = (inr tt, w) ->
  download_queries spawn (get_ref args) (queries_dir_of resolve args) pre ∅
    (emit (EvMkdir (Pathlib.str (outdir_of resolve args)))
       (emit (EvMkdir (Pathlib.str (tmp_dir_of resolve args))) w))
    = (inr d, w2) ->
  present (files w2) (fasta_path_of (queries_dir_of resolve args) acc) = false ->
  spawn [get_ref args; acc] (files w2) (outside w2) = (p, fs, env) ->
  returncode p = 0%Z ->
  Str.startswith (stdout p) ">" = false ->
  exists evs,
    main spawn resolve args w =
      (inl (RuntimeError (not_fasta acc (stdout p))),
       MkWorld fs (tables w) env
         (trace w ++ evs ++ [EvShellOut [get_ref args; acc]]))
    /\ Forall fetch_event evs.
Proof.
  intros Hin HA Hck Hpre Hmiss Hs Hrc Hgt.
  assert (pre ++ acc :: post <> []) as HI by (by destruct pre).
  rewrite (main_ok spawn resolve args w _ _ Hin HA HI Hck).
  destruct (pipeline_bad_fetch spawn resolve args (resolve_all resolve assemblies)
              pre acc post w d w2 p fs env Hpre Hmiss Hs Hrc Hgt)
    as (Hrun & evs & E & F).
  exists (evs ++ [EvMkdir (Pathlib.str (queries_dir_of resolve args))]).
  split.
  - rewrite Hrun, E. by rewrite <- !app_assoc.
  - apply Forall_app. split; [done|]. by constructor.
Qed.

Lemma C6_bad_fetch_aborts_witness :
  exists evs,
    main (Toy.tools (fun _ => "<html>") None 0) id
      (Toy.args_of ["/data/genome.fasta"] ["NC_001"])
      (Toy.world_with {[ "/data/genome.fasta" := ">chr1" ]})
    = (inl (RuntimeError (not_fasta "NC_001" "<html>")),
       MkWorld {[ "/data/genome.fasta" := ">chr1" ]} ∅ tt
         ([] ++ evs ++ [EvShellOut ["get_ref.sh"; "NC_001"]]))
    /\ Forall fetch_event evs.
Proof.
  apply (C6_bad_fetch_aborts (Toy.tools (fun _ => "<html>") None 0) id
           (Toy.args_of ["/data/genome.fasta"] ["NC_001"])
           (Toy.world_with {[ "/data/genome.fasta" := ">chr1" ]})
           ["/data/genome.fasta"] [] "NC_001" [] ∅
           (MkWorld {[ "/data/genome.fasta" := ">chr1" ]} ∅ tt
              [EvMkdir "/w/tmp"; EvMkdir "/out"])
           (MkProc 0 "<html>" "")).
  - vm_compute. reflexivity.
  - discriminate.
  - vm_compute. reflexivity.
  - vm_compute. reflexivity.
  - vm_compute. reflexivity.
  - vm_compute. reflexivity.
  - reflexivity.
  - vm_compute. reflexivity.
Defined.

(** C7, at the input where the script departs from it.  The claim:
    [sanitize] strips one trailing ending of the final component and
    squashes the unsafe runs.  For a final component that ends with a line
    feed the pattern of the script still strips the ending in front of the
    line feed ([$] also holds just before a last line feed), where the
    algorithm of the claim finds no trailing ending. *)
Theorem C7_ending_before_line_feed :
  sanitize_basename ("/data/genome.fa" +:+ String Str.LF "") = "genome_"
  /\ Spec.sanitize ("/data/genome.fa" +:+ String Str.LF "") = "genome.fa_"
  /\ Pathlib.name (Pathlib.parse ("/data/genome.fa" +:+ String Str.LF ""))
     = "genome.fa" +:+ String Str.LF "".
Proof. vm_compute. by repeat split. Qed.

(** C8.  Every input error stops the run before anything is done: the
    result is the error and the world is as it was, so no tool has run.
    The errors are, in this order: a list file that does not exist (named
    in the message); no assembly; no accession; an assembly whose resolved
    path does not exist (named in the message).  The lists are the direct
    values and the lines of the list files that are neither blank nor begin,
    behind white space, with the comment sign; this is how the script reads
    a list file. *)
Theorem C8_input_faults_stop_the_run {Env} spawn resolve args (w : world Env) e :
  Spec.input_fault resolve args (files w) e ->
  main spawn resolve args w = (inl e, w)
  /\ (forall text,
        list_items text =
          map Str.strip
            (filter (fun l => Spec.counts l = true) (Str.splitlines text))).
Proof.
  intros Hf. split; [by apply main_input_fault|]. apply list_items_counts.
Qed.

Lemma C8_input_faults_stop_the_run_witness :
  Spec.input_fault id
    (MkArgs [] ["/lists/assemblies.txt"] ["NC_001"] [] "get_ref.sh" "/w" "/out"
       "cumulative_results.tsv")
    (files (Toy.world_with {[ "/data/genome.fasta" := ">chr1" ]}))
    (FileNotFoundError "List file not found: /lists/assemblies.txt")
  /\ main (Toy.tools Toy.fasta_of None 0) id
       (MkArgs [] ["/lists/assemblies.txt"] ["NC_001"] [] "get_ref.sh" "/w" "/out"
          "cumulative_results.tsv")
       (Toy.world_with {[ "/data/genome.fasta" := ">chr1" ]})
     = (inl (FileNotFoundError "List file not found: /lists/assemblies.txt"),
        Toy.world_with {[ "/data/genome.fasta" := ">chr1" ]})
  /\ (forall text,
        list_items text =
          map Str.strip
            (filter (fun l => Spec.counts l = true) (Str.splitlines text))).
Proof.
  split.
  - apply (Spec.fault_list_file _ _ _ "/lists/assemblies.txt"). reflexivity.
  - apply (C8_input_faults_stop_the_run (Toy.tools Toy.fasta_of None 0) id).
    apply (Spec.fault_list_file _ _ _ "/lists/assemblies.txt"). reflexivity.
Defined.

(** C9, at the input where the script departs from it.  The claim: a
    second run on the same work directory fetches nothing and builds no
    index.  With the assembly genome.v2.fasta the first run builds the index
    and the tool writes the three companion files; the second run fetches
    nothing, but it builds the index again, because the cache test looks
    for genome.nhr and not for genome.v2_asm_db.nhr (the defect of C4). *)
Theorem C9_second_run_rebuilds_index :
  let tools := Toy.tools Toy.fasta_of None 0 in
  let args := Toy.args_of ["/data/genome.v2.fasta"] ["NC_001"] in
  let first := main tools id args
                 (Toy.world_with {[ "/data/genome.v2.fasta" := ">chr1" ]}) in
  let second := main tools id args first.2 in
  first.1 = inr 0%Z
  /\ second.1 = inr 0%Z
  /\ Spec.index_cached (files first.2)
       (db_prefix_of (db_dir_of id args) (Pathlib.parse "/data/genome.v2.fasta"))
     = true
  /\ shell_outs (drop (length (trace first.2)) (trace second.2)) = []
  /\ makedb_runs (drop (length (trace first.2)) (trace second.2))
     = [["makeblastdb"; "-in"; "/data/genome.v2.fasta"; "-dbtype"; "nucl";
         "-parse_seqids"; "-out"; "/w/blastdb/genome.v2_asm_db"]].
Proof. vm_compute. by repeat split. Qed.

(** C10.  If the fetch tool neither removes nor empties a file, then in
    every run the fetch tool is called at most once for an accession: the
    calls of the run are the command lines of a list of accessions without
    duplicates. *)
Theorem C10_fetch_at_most_once {Env} spawn resolve args (w : world Env) :
  keeps_files spawn (get_ref args) ->
  exists evs new,
    trace (main spawn resolve args w).2 = trace w ++ evs
    /\ shell_outs evs = (fun a => [get_ref args; a]) <$> new
    /\ NoDup new
    /\ NoDup (shell_outs evs).
Proof.
  intros Hkeep.
  destruct (main_fetch_once spawn resolve args w _ _ Hkeep
              (surjective_pairing _)) as (evs & new & E & S & N).
  exists evs, new. repeat split; [done..|].
  rewrite S. apply NoDup_fmap_2; [|done]. by intros a b [=].
Qed.

Lemma C10_fetch_at_most_once_witness :
  keeps_files (Toy.tools Toy.fasta_of None 0) "get_ref.sh"
  /\ exists evs new,
       trace (main (Toy.tools Toy.fasta_of None 0) id
                (Toy.args_of ["/data/genome.fasta"] ["NC_001"; "NC_001"])
                (Toy.world_with {[ "/data/genome.fasta" := ">chr1" ]})).2
         = [] ++ evs
       /\ shell_outs evs = (fun a => ["get_ref.sh"; a]) <$> new
       /\ NoDup new
       /\ NoDup (shell_outs evs).
Proof.
  split; [apply toy_tools_keep_files|].
  apply (C10_fetch_at_most_once (Toy.tools Toy.fasta_of None 0) id
           (Toy.args_of ["/data/genome.fasta"] ["NC_001"; "NC_001"])
           (Toy.world_with {[ "/data/genome.fasta" := ">chr1" ]})).
  apply toy_tools_keep_files.
Defined.

(** ** [sanitize_basename] and the algorithm *)

Lemma unsafe_safe c : unsafe c = negb (Spec.safe c).
Proof. reflexivity. Qed.

Arguments unsafe : simpl never.
Arguments Spec.safe : simpl never.

Lemma plus_match_run c s :
  Re.plus_match false (Re.Class true word_chars) (String c s) Some =
    if unsafe c then Some (drop_run s) else None.
Proof.
  revert c. induction s as [|c' s IH]; intros c.
  - cbn [Re.plus_match drop_run].
    change (Re.atom_match false (Re.Class true word_chars) c) with (unsafe c).
    by destruct (unsafe c).
  - cbn [Re.plus_match] in *. rewrite IH.
    change (Re.atom_match false (Re.Class true word_chars) c) with (unsafe c).
    change (Re.atom_match false (Re.Class true word_chars) c') with (unsafe c').
    cbn [drop_run]. by destruct (unsafe c), (unsafe c').
Qed.

Lemma drop_run_length s : String.length (drop_run s) <= String.length s.
Proof. induction s as [|c s IH]; simpl; [done|]. destruct (unsafe c); simpl; lia. Qed.

Lemma squash_run s : Spec.squash true s = Spec.squash false (drop_run s).
Proof.
  induction s as [|c s IH]; [done|]. simpl. rewrite unsafe_safe.
  destruct (Spec.safe c) eqn:E; simpl; [by rewrite E|done].
Qed.

Lemma sub_unsafe_squash fuel s :
  String.length s < fuel ->
  Re.sub_go fuel false unsafe_re "_" s = Spec.squash false s.
Proof.
  revert s. induction fuel as [|fuel IH]; intros s Hlen; [lia|].
  destruct s as [|c s]; [done|].
  cbn [Re.sub_go]. unfold unsafe_re at 1. cbn [Re.rmatch].
  rewrite plus_match_run. simpl in Hlen.
  cbn [Spec.squash]. rewrite unsafe_safe.
  destruct (Spec.safe c); simpl.
  - rewrite IH by lia. done.
  - pose proof (drop_run_length s).
    rewrite (proj2 (Nat.ltb_lt _ _)) by (simpl; lia).
    rewrite IH by lia. by rewrite squash_run.
Qed.

Lemma sub_unsafe s : Re.sub false unsafe_re "_" s = Spec.squash false s.
Proof. apply sub_unsafe_squash. lia. Qed.

Lemma rmatch_word w s k :
  Re.rmatch true (Re.word w) s k =
    match strip_ci w s with Some s' => k s' | None => None end.
Proof.
  revert s. induction w as [|x w IH]; intros s; [done|].
  cbn [Re.word Re.rmatch strip_ci Re.atom_match].
  destruct s as [|c s]; [done|].
  destruct (Ascii.eqb (Re.lower c) (Re.lower x)); [apply IH|done].
Qed.

Lemma rmatch_lit x s k :
  Re.rmatch true (Re.Atom (Re.Lit x)) s k =
    match strip_ci (String x "") s with Some s' => k s' | None => None end.
Proof.
  cbn [Re.rmatch strip_ci Re.atom_match]. destruct s as [|c s]; [done|].
  by destruct (Ascii.eqb (Re.lower c) (Re.lower x)).
Qed.

Lemma strip_ci_app w1 w2 s :
  strip_ci (w1 +:+ w2) s = strip_ci w1 s ≫= strip_ci w2.
Proof.
  revert s. induction w1 as [|x w1 IH]; intros s; [done|].
  change (String x w1 +:+ w2) with (String x (w1 +:+ w2)).
  cbn [strip_ci]. destruct s as [|c s]; [done|].
  destruct (Ascii.eqb (Re.lower c) (Re.lower x)); [apply IH|done].
Qed.

Lemma strip_ci_nolf w s t :
  strip_ci w s = Some t -> last_is_lf s = false -> last_is_lf t = false.
Proof.
  revert s. induction w as [|x w IH]; intros s; cbn [strip_ci].
  - by intros [= ->].
  - destruct s as [|c s]; [done|].
    destruct (Ascii.eqb (Re.lower c) (Re.lower x)); [|done].
    intros Ht Hs. apply (IH _ Ht). destruct s; [done|exact Hs].
Qed.

Lemma dollar_nolf t : last_is_lf t = false -> dollar t = is_empty t.
Proof.
  destruct t as [|c [|c' t]]; [done| |done]. simpl. by intros ->.
Qed.

Lemma rmatch_dollar s k : Re.rmatch true Re.Dollar s k = dollar s ≫= k.
Proof.
  destruct s as [|c [|c' s]]; simpl; try done. by destruct (Ascii.eqb c Str.LF).
Qed.

Lemma lower_eqb_strip e s :
  Spec.lower_string e = e ->
  String.eqb (Spec.lower_string s) e =
    match strip_ci e s with Some EmptyString => true | _ => false end.
Proof.
  revert s. induction e as [|x e IH]; intros s He.
  - by destruct s.
  - injection He as Hx He. destruct s as [|c s]; [done|].
    cbn [Spec.lower_string strip_ci String.eqb]. rewrite Hx.
    destruct (Ascii.eqb (Re.lower c) x); [by apply IH|done].
Qed.

Lemma rmatch_gz t :
  last_is_lf t = false -> Re.rmatch true gz_re t Some = gz_tail t.
Proof.
  intros Ht. unfold gz_re, gz_tail.
  change (Re.Cat (Re.Atom (Re.Lit "."%char)) (Re.word "gz")) with (Re.word ".gz").
  cbn [Re.rmatch]. rewrite rmatch_word.
  destruct (strip_ci ".gz" t) as [u|] eqn:E; cbn [mbind option_bind].
  - fold (dollar u). fold (dollar t).
    rewrite (dollar_nolf u (strip_ci_nolf _ _ _ E Ht)).
    destruct (is_empty u); [done|]. by rewrite (dollar_nolf t Ht).
  - fold (dollar t). by rewrite (dollar_nolf t Ht).
Qed.

Lemma rmatch_ext ext s1 :
  last_is_lf s1 = false ->
  Re.rmatch true (Re.word ext) s1 (fun s' => Re.rmatch true gz_re s' Some) =
    strip_ci ext s1 ≫= gz_tail.
Proof.
  intros H1. rewrite rmatch_word.
  destruct (strip_ci ext s1) as [t|] eqn:E; [|done].
  apply rmatch_gz, (strip_ci_nolf _ _ _ E H1).
Qed.

Lemma suffix_match_nolf s :
  last_is_lf s = false -> suffix_match s = if ends s then Some "" else None.
Proof.
  intros Hs. unfold suffix_match, suffix_re, ends, Spec.endings.
  cbn [existsb].
  rewrite !lower_eqb_strip by reflexivity.
  change ".fa" with ("." +:+ "fa"). change ".fna" with ("." +:+ "fna").
  change ".fasta" with ("." +:+ "fasta"). change ".fas" with ("." +:+ "fas").
  change ".fa.gz" with ("." +:+ "fa" +:+ ".gz").
  change ".fna.gz" with ("." +:+ "fna" +:+ ".gz").
  change ".fasta.gz" with ("." +:+ "fasta" +:+ ".gz").
  change ".fas.gz" with ("." +:+ "fas" +:+ ".gz").
  rewrite !strip_ci_app.
  fold gz_re.
  change (Re.rmatch true (Re.Cat (Re.Atom (Re.Lit "."%char)) ?r) s Some)
    with (Re.rmatch true (Re.Atom (Re.Lit "."%char)) s
            (fun s' => Re.rmatch true r s' Some)).
  rewrite rmatch_lit.
  destruct (strip_ci "." s) as [s1|] eqn:E1; [|done].
  pose proof (strip_ci_nolf _ _ _ E1 Hs) as H1.
  cbn [mbind option_bind Re.rmatch].
  rewrite !(rmatch_ext _ s1 H1), !strip_ci_app.
  assert (forall t, gz_tail t = if match strip_ci ".gz" t with
                                    | Some EmptyString => true | _ => false end
                                   || String.eqb t ""
                                then Some "" else None) as Hgz.
  { intros t. unfold gz_tail, is_empty.
    destruct (strip_ci ".gz" t) as [[|? ?]|]; cbn [mbind option_bind String.eqb];
      by destruct t. }
  destruct (strip_ci "fa" s1) as [t1|]; destruct (strip_ci "fna" s1) as [t2|];
    destruct (strip_ci "fasta" s1) as [t3|]; destruct (strip_ci "fas" s1) as [t4|];
    cbn [mbind option_bind]; rewrite ?Hgz;
    repeat match goal with
      | |- context [strip_ci ".gz" ?t] =>
          destruct (strip_ci ".gz" t) as [[|? ?]|]
      end;
    repeat match goal with
      | |- context [String.eqb ?t ""] => is_var t; destruct t as [|? ?]
      end; reflexivity.
Qed.

Lemma lower_string_app s t :
  Spec.lower_string (s +:+ t) = Spec.lower_string s +:+ Spec.lower_string t.
Proof.
  induction s as [|c s IH]; [done|].
  change (String c s +:+ t) with (String c (s +:+ t)).
  cbn [Spec.lower_string]. by rewrite IH.
Qed.

Lemma chop_sound e s stem :
  Spec.chop e s = Some stem ->
  Spec.lower_string s = Spec.lower_string stem +:+ e.
Proof.
  revert stem. induction s as [|c s IH]; intros stem; cbn [Spec.chop].
  - destruct (String.eqb_spec (Spec.lower_string "") e) as [<-|]; [|done].
    by intros [= <-].
  - destruct (String.eqb_spec (Spec.lower_string (String c s)) e) as [<-|].
    + by intros [= <-].
    + destruct (Spec.chop e s) as [stem'|]; [|done]. intros [= <-].
      cbn [Spec.lower_string]. by rewrite (IH stem').
Qed.

Lemma tails_app x e : x <> "" -> e ∈ tails (x +:+ e).
Proof.
  induction x as [|a x IH]; [done|]. intros _.
  change (String a x +:+ e) with (String a (x +:+ e)). cbn [tails].
  destruct x as [|b x]; [left|]. right. by apply IH.
Qed.

Lemma endings_no_tail :
  forallb (fun e0 =>
             forallb (fun t => negb (existsb (String.eqb t) Spec.endings))
               (tails e0)) Spec.endings = true.
Proof. vm_compute. reflexivity. Qed.

Lemma ends_elem s : ends s = true <-> Spec.lower_string s ∈ Spec.endings.
Proof.
  unfold ends. rewrite existsb_exists. split.
  - intros (e & He%list_elem_of_In & ->%String.eqb_eq). done.
  - intros He. exists (Spec.lower_string s). split; [by apply list_elem_of_In|].
    apply String.eqb_refl.
Qed.

Lemma chop_whole e s stem :
  ends s = true -> e ∈ Spec.endings -> Spec.chop e s = Some stem -> stem = "".
Proof.
  intros Hs He Hc. apply chop_sound in Hc.
  destruct stem as [|a stem]; [done|]. exfalso.
  apply ends_elem in Hs. rewrite Hc in Hs.
  pose proof endings_no_tail as Hno.
  rewrite forallb_forall in Hno. apply list_elem_of_In, Hno in Hs.
  rewrite forallb_forall in Hs.
  assert (e ∈ tails (Spec.lower_string (String a stem) +:+ e)) as Ht
    by (by apply tails_app).
  apply list_elem_of_In, Hs in Ht. apply negb_true_iff in Ht.
  assert (existsb (String.eqb e) Spec.endings = true) as Hex; [|congruence].
  apply existsb_exists. exists e. split; [by apply list_elem_of_In|].
  apply String.eqb_refl.
Qed.

Lemma chop_here s : Spec.chop (Spec.lower_string s) s = Some "".
Proof. destruct s; cbn [Spec.chop]; by rewrite String.eqb_refl. Qed.

Lemma strip_ending_whole s : ends s = true -> Spec.strip_ending s = "".
Proof.
  intros Hs. unfold Spec.strip_ending.
  destruct (omap (fun e => Spec.chop e s) Spec.endings) as [|stem l] eqn:E.
  - apply ends_elem in Hs.
    assert ("" ∈ omap (fun e => Spec.chop e s) Spec.endings) as Hin.
    { apply list_elem_of_omap. exists (Spec.lower_string s). split; [done|].
      apply chop_here. }
    rewrite E in Hin. by apply elem_of_nil in Hin.
  - assert (stem ∈ omap (fun e => Spec.chop e s) Spec.endings) as Hin
      by (rewrite E; left).
    apply list_elem_of_omap in Hin as (e & He & Hc).
    by apply (chop_whole e s).
Qed.

Lemma strip_ending_cons c s :
  ends (String c s) = false ->
  Spec.strip_ending (String c s) = String c (Spec.strip_ending s).
Proof.
  intros Hs. unfold Spec.strip_ending, ends in *.
  induction Spec.endings as [|e l IH]; [done|].
  cbn [existsb] in Hs. apply orb_false_iff in Hs as [He Hl].
  cbn [omap list_omap Spec.chop]. rewrite He.
  destruct (Spec.chop e s) as [stem|]; cbn [fmap option_fmap option_map]; [done|].
  by apply IH.
Qed.

Lemma sub_suffix_strip fuel s :
  String.length s < fuel ->
  last_is_lf s = false ->
  Re.sub_go fuel true suffix_re "" s = Spec.strip_ending s.
Proof.
  revert s. induction fuel as [|fuel IH]; intros s Hlen Hlf; [lia|].
  cbn [Re.sub_go]. fold (suffix_match s). rewrite (suffix_match_nolf s Hlf).
  destruct s as [|c s]; [done|].
  destruct (ends (String c s)) eqn:He.
  - rewrite (strip_ending_whole _ He). cbn [String.length Nat.ltb Nat.leb].
    by destruct fuel.
  - rewrite (strip_ending_cons _ _ He). f_equal. apply IH.
    + simpl in Hlen. lia.
    + destruct s; [done|exact Hlf].
Qed.

(** The second pattern leaves only characters of the safe alphabet. *)
Lemma squash_all_safe b s : all_chars Spec.safe (Spec.squash b s) = true.
Proof.
  revert b. induction s as [|c s IH]; intros b; [done|].
  cbn [Spec.squash]. destruct (Spec.safe c) eqn:E.
  - cbn [all_chars]. by rewrite E, IH.
  - destruct b; [apply IH|]. cbn [all_chars]. by rewrite IH.
Qed.

Lemma sanitize_basename_squash p :
  sanitize_basename p =
    Spec.squash false
      (Re.sub true suffix_re "" (Pathlib.name (Pathlib.parse p))).
Proof. unfold sanitize_basename. apply sub_unsafe. Qed.

Lemma sub_suffix s :
  last_is_lf s = false -> Re.sub true suffix_re "" s = Spec.strip_ending s.
Proof. intros H. apply sub_suffix_strip; [lia|done]. Qed.

(** *** Appending strings *)

Lemma append_cons c s t : String c s +:+ t = String c (s +:+ t).
Proof. reflexivity. Qed.

Lemma append_assoc s t u : (s +:+ t) +:+ u = s +:+ t +:+ u.
Proof. induction s as [|c s IH]; [done|]. by rewrite !append_cons, IH. Qed.

Lemma append_nil_r s : s +:+ "" = s.
Proof. induction s as [|c s IH]; [done|]. by rewrite append_cons, IH. Qed.

Lemma all_chars_app P s t :
  all_chars P (s +:+ t) = all_chars P s && all_chars P t.
Proof.
  induction s as [|c s IH]; [done|]. rewrite append_cons. cbn [all_chars].
  by rewrite IH, andb_assoc.
Qed.

(** *** Splitting at a character *)

Lemma split_cons_inv sep s : exists h t, Str.split sep s = h :: t.
Proof.
  induction s as [|c s (h & t & IH)]; cbn [Str.split]; [by eauto|].
  destruct (Ascii.eqb c sep); [by eauto|]. rewrite IH. by eauto.
Qed.

Lemma split_app sep a b :
  Str.split sep (a +:+ String sep b) = Str.split sep a ++ Str.split sep b.
Proof.
  induction a as [|x a IH].
  - change ("" +:+ String sep b) with (String sep b). cbn [Str.split].
    by rewrite Ascii.eqb_refl.
  - change (String x a +:+ String sep b) with (String x (a +:+ String sep b)).
    cbn [Str.split]. rewrite IH.
    destruct (Ascii.eqb x sep); [done|].
    by destruct (split_cons_inv sep a) as (h & t & ->).
Qed.

Lemma split_free sep s : free_of sep s = true -> Str.split sep s = [s].
Proof.
  induction s as [|c s IH]; [done|]. unfold free_of. cbn [all_chars Str.split].
  intros [Hc Hs]%andb_true_iff. apply negb_true_iff in Hc. rewrite Hc.
  by rewrite (IH Hs).
Qed.

Lemma concat_cons sep x y l :
  String.concat sep (x :: y :: l) = x +:+ sep +:+ String.concat sep (y :: l).
Proof. reflexivity. Qed.

Lemma join_split sep s : Str.join (String sep "") (Str.split sep s) = s.
Proof.
  unfold Str.join. induction s as [|c s IH]; [done|]. cbn [Str.split].
  destruct (split_cons_inv sep s) as (h & t & E). rewrite E in *.
  destruct (Ascii.eqb_spec c sep) as [->|Hne].
  - by rewrite concat_cons, IH.
  - destruct t as [|y t]; [by rewrite <- IH|].
    rewrite concat_cons. rewrite concat_cons in IH. by rewrite <- IH.
Qed.

(** *** Paths of one more component *)

Lemma component_is_part n : component n -> Pathlib.is_part n = true.
Proof.
  intros (H1 & H2 & _). unfold Pathlib.is_part.
  destruct (String.eqb_spec n ""); [done|].
  by destruct (String.eqb_spec n ".").
Qed.

Lemma parse_component n : component n -> Pathlib.parse n = Pathlib.MkPath "" [n].
Proof.
  intros Hn. pose proof (component_is_part n Hn) as Hp.
  destruct Hn as (H1 & H2 & H3). unfold Pathlib.parse.
  rewrite (split_free _ _ H3). rewrite filter_cons, decide_True by done.
  f_equal. destruct n as [|c n]; [done|]. unfold free_of in H3. cbn in H3.
  apply andb_true_iff in H3 as [Hc _]. apply negb_true_iff in Hc.
  unfold Pathlib.parse_root.
  destruct (Ascii.eqb_spec c "/"); [done|].
  destruct c as [[] [] [] [] [] [] [] []]; try done.
Qed.

Lemma joinpath_component p n :
  component n ->
  Pathlib.joinpath p n = Pathlib.MkPath (Pathlib.root p) (Pathlib.tail p ++ [n]).
Proof. intros Hn. unfold Pathlib.joinpath. by rewrite (parse_component n Hn). Qed.

Lemma concat_snoc sep l x :
  l <> [] -> String.concat sep (l ++ [x]) = String.concat sep l +:+ sep +:+ x.
Proof.
  induction l as [|a l IH]; [done|]. intros _.
  destruct l as [|b l]; [done|].
  change ((a :: b :: l) ++ [x]) with (a :: b :: (l ++ [x])).
  rewrite !concat_cons.
  change (b :: l ++ [x]) with ((b :: l) ++ [x]).
  rewrite IH by done. by rewrite !append_assoc.
Qed.

Lemma str_joinpath_component p n :
  component n -> Pathlib.tail p <> [] ->
  Pathlib.str (Pathlib.joinpath p n) = Pathlib.str p +:+ "/" +:+ n.
Proof.
  intros Hn Ht. rewrite (joinpath_component p n Hn).
  unfold Pathlib.str, Str.join. cbn [Pathlib.root Pathlib.tail].
  destruct (Pathlib.tail p) as [|x l]; [done|].
  destruct (Pathlib.root p) as [|a r].
  - change (String.concat "/" ((x :: l) ++ [n])
            = String.concat "/" (x :: l) +:+ "/" +:+ n).
    by apply concat_snoc.
  - change (String a r +:+ String.concat "/" ((x :: l) ++ [n])
            = (String a r +:+ String.concat "/" (x :: l)) +:+ "/" +:+ n).
    by rewrite concat_snoc, append_assoc.
Qed.

Lemma name_joinpath_component p n :
  component n -> Pathlib.name (Pathlib.joinpath p n) = n.
Proof.
  intros Hn. rewrite (joinpath_component p n Hn). unfold Pathlib.name.
  cbn [Pathlib.tail]. apply last_last.
Qed.

Lemma name_parse_in_dir d n :
  component n -> Pathlib.name (Pathlib.parse (d +:+ "/" +:+ n)) = n.
Proof.
  intros Hn. unfold Pathlib.name, Pathlib.parse. cbn [Pathlib.tail].
  change ("/" +:+ n) with (String "/"%char n).
  rewrite split_app, filter_app.
  destruct Hn as (H1 & H2 & H3). rewrite (split_free _ _ H3).
  rewrite (filter_cons _ n), decide_True
    by (by apply component_is_part).
  apply last_last.
Qed.

(** *** The key is a component *)

Lemma length_append s t :
  String.length (s +:+ t) = String.length s + String.length t.
Proof. induction s as [|c s IH]; [done|]. rewrite append_cons. simpl. by rewrite IH. Qed.

Lemma all_chars_impl (P Q : ascii -> bool) s :
  (forall c, P c = true -> Q c = true) ->
  all_chars P s = true -> all_chars Q s = true.
Proof.
  intros HPQ. induction s as [|c s IH]; [done|]. cbn [all_chars].
  intros [Hc Hs]%andb_true_iff. by rewrite (HPQ c Hc), (IH Hs).
Qed.

Lemma safe_not_slash c : Spec.safe c = true -> negb (Ascii.eqb c "/") = true.
Proof. destruct (Ascii.eqb_spec c "/") as [->|]; [by vm_compute|done]. Qed.

Lemma sanitize_basename_safe p : all_chars Spec.safe (sanitize_basename p) = true.
Proof. rewrite sanitize_basename_squash. apply squash_all_safe. Qed.

Lemma sanitize_basename_no_slash p : free_of "/" (sanitize_basename p) = true.
Proof.
  eapply all_chars_impl; [apply safe_not_slash|apply sanitize_basename_safe].
Qed.

Lemma long_component n :
  2 <= String.length n -> free_of "/" n = true -> component n.
Proof.
  intros Hl Hf. repeat split; [| |done]; intros ->; simpl in Hl; lia.
Qed.

Lemma db_name_component p : component (sanitize_basename p +:+ "_asm_db").
Proof.
  apply long_component.
  - rewrite length_append. simpl. lia.
  - unfold free_of. rewrite all_chars_app. fold (free_of "/" (sanitize_basename p)).
    by rewrite sanitize_basename_no_slash.
Qed.

Lemma fasta_name_component acc :
  free_of "/" acc = true -> component (acc +:+ ".fasta").
Proof.
  intros Ha. apply long_component.
  - rewrite length_append. simpl. lia.
  - unfold free_of. rewrite all_chars_app. fold (free_of "/" acc). by rewrite Ha.
Qed.

Lemma tmp_name_component acc asm :
  free_of "/" acc = true -> component (comparison_of acc asm +:+ ".tsv").
Proof.
  intros Ha. apply long_component.
  - rewrite length_append. simpl. lia.
  - unfold free_of, comparison_of. rewrite !all_chars_app.
    fold (free_of "/" acc). fold (free_of "/" (sanitize_basename (Pathlib.str asm))).
    by rewrite Ha, sanitize_basename_no_slash.
Qed.

Lemma name_db_prefix db_dir asm :
  Pathlib.name (db_prefix_of db_dir asm)
  = sanitize_basename (Pathlib.str asm) +:+ "_asm_db".
Proof. apply name_joinpath_component, db_name_component. Qed.

(** *** The last dot of a name *)

Lemma rfind_dot_free t : free_of "." t = true -> Pathlib.rfind_dot t = None.
Proof.
  induction t as [|c t IH]; [done|]. unfold free_of. cbn [all_chars].
  intros [Hc Ht]%andb_true_iff. cbn [Pathlib.rfind_dot]. rewrite (IH Ht).
  by apply negb_true_iff in Hc as ->.
Qed.

Lemma rfind_dot_app s t :
  free_of "." t = true -> Pathlib.rfind_dot (s +:+ t) = Pathlib.rfind_dot s.
Proof.
  intros Ht. induction s as [|c s IH]; [by apply rfind_dot_free|].
  rewrite append_cons. cbn [Pathlib.rfind_dot]. by rewrite IH.
Qed.

Lemma rfind_dot_lt s i : Pathlib.rfind_dot s = Some i -> i < String.length s.
Proof.
  revert i. induction s as [|c s IH]; intros i; [done|]. cbn [Pathlib.rfind_dot].
  destruct (Pathlib.rfind_dot s) as [j|].
  - intros [= <-]. specialize (IH j eq_refl). simpl. lia.
  - destruct (Ascii.eqb c "."); [|done]. intros [= <-]. simpl. lia.
Qed.

Lemma suffix_db_prefix db_dir asm :
  inner_dot (sanitize_basename (Pathlib.str asm)) = false ->
  Pathlib.suffix (db_prefix_of db_dir asm) = "".
Proof.
  unfold inner_dot, Pathlib.suffix. rewrite name_db_prefix.
  rewrite rfind_dot_app by done.
  by destruct (Pathlib.rfind_dot _) as [[|i]|].
Qed.

Lemma take_all s : Str.take (String.length s) s = s.
Proof. induction s as [|c s IH]; [done|]. simpl. by rewrite IH. Qed.

Lemma concat_last_append sep (l : list string) suf :
  l <> [] ->
  String.concat sep (removelast l ++ [List.last l "" +:+ suf])
  = String.concat sep l +:+ suf.
Proof.
  induction l as [|a l IH]; [done|]. intros _.
  destruct l as [|b l]; [done|].
  change (removelast (a :: b :: l)) with (a :: removelast (b :: l)).
  change (List.last (a :: b :: l) "") with (List.last (b :: l) "").
  specialize (IH ltac:(done)).
  destruct (removelast (b :: l) ++ [List.last (b :: l) "" +:+ suf])
    as [|x r] eqn:E.
  { by destruct (removelast (b :: l)). }
  change ((a :: removelast (b :: l)) ++ [List.last (b :: l) "" +:+ suf])
    with (a :: (removelast (b :: l) ++ [List.last (b :: l) "" +:+ suf])).
  rewrite E, !concat_cons, IH. by rewrite !append_assoc.
Qed.

(** Without a suffix to replace, [with_suffix] appends. *)
Lemma with_suffix_plain db suf :
  Pathlib.name db <> "" -> Pathlib.suffix db = "" ->
  exists p, Pathlib.with_suffix db suf = Some p
            /\ Pathlib.str p = Pathlib.str db +:+ suf.
Proof.
  intros Hn Hs. unfold Pathlib.with_suffix.
  destruct (String.eqb_spec (Pathlib.name db) ""); [done|].
  rewrite Hs. cbn [String.length]. rewrite Nat.sub_0_r, take_all.
  eexists. split; [done|].
  unfold Pathlib.str, Pathlib.name in *. cbn [Pathlib.root Pathlib.tail].
  destruct (Pathlib.tail db) as [|x l] eqn:Et; [done|].
  unfold Str.join.
  destruct (Pathlib.root db) as [|a r].
  - destruct (removelast (x :: l) ++ [List.last (x :: l) "" +:+ suf])
      as [|y r] eqn:E.
    { by destruct (removelast (x :: l)). }
    rewrite <- E, concat_last_append by done. done.
  - rewrite concat_last_append by done. by rewrite append_assoc.
Qed.

Section IndexCache.

Context {Env : Type}.
Variable spawn :
  list string -> gmap string string -> Env -> proc * gmap string string * Env.
Implicit Types w : world Env.

Lemma db_exists_plain db w :
  Pathlib.name db <> "" -> Pathlib.suffix db = "" ->
  db_exists db w = (inr (Spec.index_cached (files w) db), w).
Proof.
  intros Hn Hs. unfold db_exists, db_suffixes, Spec.index_cached,
    Spec.companion_files, db_suffixes.
  destruct (with_suffix_plain db ".nhr" Hn Hs) as (p1 & E1' & E1).
  destruct (with_suffix_plain db ".nin" Hn Hs) as (p2 & E2' & E2).
  destruct (with_suffix_plain db ".nsq" Hn Hs) as (p3 & E3' & E3).
  cbn [mapM]. rewrite E1', E2', E3'.
  cbn [mbind option_bind mret option_ret].
  unfold bind, get_files, ret. cbn [forallb map].
  by rewrite !present_nonempty_at, E1, E2, E3.
Qed.

Lemma make_db_if_needed_plain asm db w :
  Pathlib.name db <> "" -> Pathlib.suffix db = "" ->
  make_db_if_needed spawn asm db w =
    if Spec.index_cached (files w) db
    then (inr tt, emit (EvMkdir (Pathlib.str (Pathlib.parent db))) w)
    else run spawn (makeblastdb_cmd asm db)
           (emit (EvMkdir (Pathlib.str (Pathlib.parent db))) w).
Proof.
  intros Hn Hs. unfold make_db_if_needed, mkdir. rewrite bind_log.
  unfold bind at 1. rewrite (db_exists_plain db _ Hn Hs). cbn [files emit].
  by destruct (Spec.index_cached (files w) db).
Qed.

End IndexCache.

(** *** What [db_exists] looks for *)

Lemma str_snoc r t x :
  t <> [] ->
  Pathlib.str (Pathlib.MkPath r (t ++ [x]))
  = Pathlib.str (Pathlib.MkPath r t) +:+ "/" +:+ x.
Proof.
  intros Ht. unfold Pathlib.str, Str.join. cbn [Pathlib.root Pathlib.tail].
  destruct t as [|y l]; [done|].
  destruct r as [|a r].
  - change (String.concat "/" ((y :: l) ++ [x])
            = String.concat "/" (y :: l) +:+ "/" +:+ x).
    by apply concat_snoc.
  - change (String a r +:+ String.concat "/" ((y :: l) ++ [x])
            = (String a r +:+ String.concat "/" (y :: l)) +:+ "/" +:+ x).
    by rewrite concat_snoc, append_assoc.
Qed.

Lemma length_drop k s :
  String.length (Pathlib.drop k s) = String.length s - k.
Proof.
  revert s. induction k as [|k IH]; intros s; simpl; [lia|].
  destruct s as [|c s]; [done|]. simpl. apply IH.
Qed.

Lemma str_take_app_le k s t :
  k <= String.length s -> Str.take k (s +:+ t) = Str.take k s.
Proof.
  revert s. induction k as [|k IH]; intros s Hk.
  - by destruct s, t.
  - destruct s as [|c s]; [simpl in Hk; lia|]. rewrite append_cons.
    cbn [Str.take]. rewrite IH; [done|]. simpl in Hk. lia.
Qed.

Lemma with_suffix_db_prefix db_dir asm suf :
  Pathlib.tail db_dir <> [] ->
  exists p,
    Pathlib.with_suffix (db_prefix_of db_dir asm) suf = Some p
    /\ Pathlib.str p =
         Pathlib.str db_dir +:+ "/"
           +:+ checked_name (sanitize_basename (Pathlib.str asm)) +:+ suf.
Proof.
  intros Ht. unfold Pathlib.with_suffix, Pathlib.suffix.
  rewrite name_db_prefix.
  set (key := sanitize_basename (Pathlib.str asm)).
  assert (String.length (key +:+ "_asm_db") = String.length key + 7) as Hlen
    by (by rewrite length_append).
  destruct (String.eqb_spec (key +:+ "_asm_db") "") as [E|_].
  { rewrite E in Hlen. simpl in Hlen. lia. }
  unfold db_prefix_of. fold key.
  rewrite (joinpath_component db_dir (key +:+ "_asm_db")
             (db_name_component (Pathlib.str asm))).
  cbn [Pathlib.root Pathlib.tail]. rewrite removelast_last.
  eexists. split; [done|]. rewrite str_snoc by done.
  replace (Pathlib.MkPath (Pathlib.root db_dir) (Pathlib.tail db_dir))
    with db_dir by (by destruct db_dir).
  do 2 f_equal. unfold checked_name. rewrite rfind_dot_app by done.
  destruct (Pathlib.rfind_dot key) as [[|i]|] eqn:Er.
  - cbn [Nat.ltb Nat.leb andb String.length]. by rewrite Nat.sub_0_r, take_all.
  - apply rfind_dot_lt in Er.
    replace ((0 <? S i) && (S i <? String.length (key +:+ "_asm_db") - 1))
      with true.
    2: { symmetry. apply andb_true_iff. split; apply Nat.ltb_lt; lia. }
    rewrite length_drop.
    replace (String.length (key +:+ "_asm_db")
             - (String.length (key +:+ "_asm_db") - S i)) with (S i) by lia.
    by rewrite str_take_app_le by lia.
  - cbn [String.length]. by rewrite Nat.sub_0_r, take_all.
Qed.

Lemma checked_name_plain key :
  inner_dot key = false -> checked_name key = key +:+ "_asm_db".
Proof. unfold inner_dot, checked_name. by destruct (Pathlib.rfind_dot key) as [[|i]|]. Qed.

Section IndexCacheKey.

Context {Env : Type}.
Implicit Types w : world Env.

Lemma db_exists_db_prefix db_dir asm w :
  Pathlib.tail db_dir <> [] ->
  db_exists (db_prefix_of db_dir asm) w =
    (inr (forallb (nonempty_at (files w))
            (map (fun suf =>
                    Pathlib.str db_dir +:+ "/"
                      +:+ checked_name (sanitize_basename (Pathlib.str asm))
                      +:+ suf) db_suffixes)), w).
Proof.
  intros Ht. unfold db_exists, db_suffixes.
  destruct (with_suffix_db_prefix db_dir asm ".nhr" Ht) as (p1 & E1' & E1).
  destruct (with_suffix_db_prefix db_dir asm ".nin" Ht) as (p2 & E2' & E2).
  destruct (with_suffix_db_prefix db_dir asm ".nsq" Ht) as (p3 & E3' & E3).
  cbn [mapM]. rewrite E1', E2', E3'.
  cbn [mbind option_bind mret option_ret].
  unfold bind, get_files, ret. cbn [forallb map].
  by rewrite !present_nonempty_at, E1, E2, E3.
Qed.

End IndexCacheKey.

(** ** The errors of a run *)

Section Errors.

Context {Env : Type}.
Variable spawn :
  list string -> gmap string string -> Env -> proc * gmap string string * Env.
Variable resolve : Path -> Path.
Implicit Types w : world Env.

Lemma raises_ret {A} P (a : A) : raises P (@ret Env A a).
Proof. by intros w e w' [=]. Qed.

Lemma raises_bind {A B} P (c : M Env A) (k : A -> M Env B) :
  raises P c -> (forall a, raises P (k a)) -> raises P (bind c k).
Proof.
  intros Hc Hk w e w' H. unfold bind in H.
  destruct (c w) as [[e1|a] w1] eqn:E.
  - injection H as <- <-. by eapply Hc.
  - by eapply Hk.
Qed.

Lemma raises_for_in {A} P (l : list A) (body : A -> M Env unit) :
  (forall x, x ∈ l -> raises P (body x)) -> raises P (for_ l body).
Proof.
  induction l as [|x l IH]; intros Hb; cbn [for_]; [apply raises_ret|].
  apply raises_bind; [apply Hb; left|]. intros _. apply IH.
  intros y Hy. apply Hb. by right.
Qed.

Lemma raises_log P e : raises P (@log Env e).
Proof. by intros w e' w' [=]. Qed.

Lemma raises_get_files P : raises P (@get_files Env).
Proof. by intros w e' w' [=]. Qed.

Lemma raises_writerow P p row : raises P (@writerow Env p row).
Proof. by intros w e' w' [=]. Qed.

Lemma raises_run cmd : raises tool_fault (run spawn cmd).
Proof.
  intros w e w'. unfold run, bind. rewrite subprocess_run_eq.
  case_bool_decide; [|done]. intros [= <- <-]. by constructor.
Qed.

Lemma raises_ensure_fasta_download g acc q :
  raises tool_fault (ensure_fasta_download spawn g acc q).
Proof.
  intros w e w'.
  destruct (spawn [g; acc] (files w) (outside w)) as [[p fs] env] eqn:Hs.
  destruct (present (files w) (fasta_path_of q acc)) eqn:Hp.
  - by rewrite (ensure_fasta_download_hit _ g acc q w Hp).
  - rewrite (ensure_fasta_download_miss _ g acc q w p fs env Hp Hs).
    case_bool_decide; [intros [= <- <-]; by constructor|].
    destruct (Str.startswith (stdout p) ">") eqn:Hgt; [done|].
    intros [= <- <-]. by constructor.
Qed.

Lemma raises_download_queries g q accs d :
  raises tool_fault (download_queries spawn g q accs d).
Proof.
  revert d. induction accs as [|acc accs IH]; intros d; cbn [download_queries].
  - apply raises_ret.
  - apply raises_bind; [apply raises_ensure_fasta_download|]. intros p. apply IH.
Qed.

Lemma with_suffix_named db suf :
  Pathlib.name db <> "" -> is_Some (Pathlib.with_suffix db suf).
Proof.
  intros Hn. unfold Pathlib.with_suffix.
  destruct (String.eqb_spec (Pathlib.name db) ""); [done|]. by eexists.
Qed.

Lemma raises_db_exists P db :
  Pathlib.name db <> "" -> raises P (@db_exists Env db).
Proof.
  intros Hn. unfold db_exists, db_suffixes. cbn [mapM].
  destruct (with_suffix_named db ".nhr" Hn) as [p1 ->].
  destruct (with_suffix_named db ".nin" Hn) as [p2 ->].
  destruct (with_suffix_named db ".nsq" Hn) as [p3 ->].
  cbn [mbind option_bind mret option_ret].
  apply raises_bind; [apply raises_get_files|]. intros fs. apply raises_ret.
Qed.

Lemma name_db_prefix_ne db_dir asm : Pathlib.name (db_prefix_of db_dir asm) <> "".
Proof.
  rewrite name_db_prefix. intros E.
  apply (f_equal String.length) in E. rewrite length_append in E.
  simpl in E. lia.
Qed.

Lemma raises_make_db_if_needed db_dir asm :
  raises tool_fault (make_db_if_needed spawn asm (db_prefix_of db_dir asm)).
Proof.
  unfold make_db_if_needed, mkdir.
  apply raises_bind; [apply raises_log|]. intros _.
  apply raises_bind; [apply raises_db_exists, name_db_prefix_ne|]. intros hit.
  destruct hit; [apply raises_ret|apply raises_run].
Qed.

Lemma raises_build_dbs db_dir paths d :
  raises tool_fault (build_dbs spawn db_dir paths d).
Proof.
  revert d. induction paths as [|asm paths IH]; intros d; cbn [build_dbs].
  - apply raises_ret.
  - apply raises_bind; [apply raises_make_db_if_needed|]. intros _. apply IH.
Qed.

Lemma raises_write_hits P out comparison lines :
  raises P (@write_hits Env out comparison lines).
Proof.
  unfold write_hits. apply raises_for_in. intros line _.
  destruct (String.eqb _ _); [apply raises_ret|apply raises_writerow].
Qed.

Lemma raises_compare_pair out tmp_dir qf d acc asm db :
  d !! asm = Some db ->
  raises tool_fault (compare_pair spawn out tmp_dir qf d acc asm).
Proof.
  intros Hd. unfold compare_pair, dict_get. rewrite Hd.
  apply raises_bind; [apply raises_ret|]. intros db'.
  apply raises_bind; [apply raises_run|]. intros _.
  intros w e w'. unfold bind at 1, get_files at 1.
  destruct (present (files w) _) eqn:Hp.
  - unfold read_text, bind at 1 2, get_files.
    rewrite present_nonempty_at in Hp. unfold nonempty_at in Hp.
    destruct (files w !! _) as [data|]; [|done].
    unfold ret at 1. apply raises_write_hits.
  - apply raises_writerow.
Qed.

Lemma raises_pipeline args paths accs :
  raises tool_fault (pipeline spawn resolve args paths accs).
Proof.
  intros w e w' H. unfold pipeline, mkdir, print in H. rewrite !bind_log in H.
  unfold bind at 1 in H.
  destruct (download_queries _ _ _ _ _ _) as [[e1|d1] w1] eqn:H1.
  { injection H as <- <-. by eapply raises_download_queries. }
  pose proof (download_queries_dict _ _ _ _ _ _ _ _ H1) as D1.
  unfold bind at 1 in H.
  destruct (build_dbs _ _ _ _ _) as [[e2|d2] w2] eqn:H2.
  { injection H as <- <-. by eapply raises_build_dbs. }
  pose proof (build_dbs_dict _ _ _ _ _ _ _ H2) as D2.
  unfold bind at 1, open_w at 1, bind at 1, finally at 1 in H.
  match type of H with
  | context [write_cumulative ?a ?b ?c ?d ?e ?f ?w0] =>
      destruct (write_cumulative a b c d e f w0) as [[e3|[]] w3] eqn:H3
  end.
  - injection H as <- <-. revert H3. apply raises_bind.
    + apply raises_writerow.
    + intros _. apply raises_for_in. intros acc Hacc.
      unfold dict_get. rewrite D1, decide_True by done.
      apply raises_bind; [apply raises_ret|]. intros qf.
      apply raises_for_in. intros asm Hasm.
      apply (raises_compare_pair _ _ _ _ _ _
               (db_prefix_of (db_dir_of resolve args) asm)).
      by rewrite D2, decide_True.
  - by rewrite !bind_log in H.
Qed.

Lemma read_inputs_spec args w :
  read_inputs args w =
    match find (fun fp => Spec.missing (files w) (Pathlib.parse fp))
            (Spec.list_files args) with
    | Some fp => (inl (FileNotFoundError ("List file not found: " +:+ fp)), w)
    | None => (inr (Spec.assemblies args (files w),
                    Spec.accessions args (files w)), w)
    end.
Proof.
  destruct (find _ _) as [fp|] eqn:E.
  - by apply read_inputs_missing.
  - by apply read_inputs_found.
Qed.

(** Every error of [main] is an input error, met with the world as it
    was, or the error of a tool. *)
Lemma main_errors args w e w' :
  main spawn resolve args w = (inl e, w') ->
  (Spec.input_fault resolve args (files w) e /\ w' = w) \/ tool_fault e.
Proof.
  intros H.
  destruct (find (fun fp => Spec.missing (files w) (Pathlib.parse fp))
              (Spec.list_files args)) as [fp|] eqn:Hf.
  { left. pose proof (Spec.fault_list_file resolve args (files w) fp Hf) as F.
    rewrite (main_input_fault spawn resolve args w _ F) in H.
    by injection H as <- <-. }
  destruct (decide (Spec.assemblies args (files w) = [])) as [HA|HA].
  { left. pose proof (Spec.fault_no_assembly resolve args (files w) Hf HA) as F.
    rewrite (main_input_fault spawn resolve args w _ F) in H.
    by injection H as <- <-. }
  destruct (decide (Spec.accessions args (files w) = [])) as [HI|HI].
  { left. pose proof (Spec.fault_no_accession resolve args (files w) Hf HA HI) as F.
    rewrite (main_input_fault spawn resolve args w _ F) in H.
    by injection H as <- <-. }
  destruct (find (Spec.missing (files w))
              (map (fun a => resolve (Pathlib.parse a))
                 (Spec.assemblies args (files w)))) as [p|] eqn:Hp.
  { left. pose proof (Spec.fault_assembly resolve args (files w) p Hf HA HI Hp) as F.
    rewrite (main_input_fault spawn resolve args w _ F) in H.
    by injection H as <- <-. }
  right.
  rewrite (main_ok spawn resolve args w _ _ (read_inputs_found args w Hf) HA HI
             (check_assemblies_found _ w Hp)) in H.
  by eapply raises_pipeline.
Qed.

End Errors.

(** ** What a run leaves in the caches *)

Section Persistence.

Context {Env : Type}.
Variable spawn :
  list string -> gmap string string -> Env -> proc * gmap string string * Env.
Variable resolve : Path -> Path.
Implicit Types w : world Env.

Lemma reads_keeps {A} (c : M Env A) : reads c -> keeps c.
Proof. intros Hc w r w' key H. by apply Hc in H as ->. Qed.

Lemma keeps_ret {A} (a : A) : keeps (@ret Env A a).
Proof. apply reads_keeps, reads_ret. Qed.

Lemma keeps_bind {A B} (c : M Env A) (k : A -> M Env B) :
  keeps c -> (forall a, keeps (k a)) -> keeps (bind c k).
Proof.
  intros Hc Hk w r w' key H Hn.
  apply bind_inv in H as [(a & w1 & H1 & H2)|(e & H1 & _)].
  - eapply Hk; [exact H2|]. by eapply Hc.
  - by eapply Hc.
Qed.

Lemma keeps_for {A} (l : list A) (body : A -> M Env unit) :
  (forall x, keeps (body x)) -> keeps (for_ l body).
Proof.
  intros Hb. induction l as [|x l IH]; cbn [for_]; [apply keeps_ret|].
  apply keeps_bind; [apply Hb|]. intros _. apply IH.
Qed.

Lemma keeps_log e : keeps (@log Env e).
Proof. by intros w r w' key [= <- <-]. Qed.

Lemma keeps_open_w p : keeps (@open_w Env p).
Proof. by intros w r w' key [= <- <-]. Qed.

Lemma keeps_writerow p row : keeps (@writerow Env p row).
Proof. by intros w r w' key [= <- <-]. Qed.

Lemma keeps_finally {A} (c : M Env A) e : keeps c -> keeps (finally c (emit e)).
Proof.
  intros Hc w r w' key. unfold finally.
  destruct (c w) as [r1 w1] eqn:E. intros [= <- <-]. simpl. by eapply Hc.
Qed.

Lemma keeps_run cmd : keeps_all spawn -> keeps (run spawn cmd).
Proof.
  intros Hk w r w' key. unfold run, bind. rewrite subprocess_run_eq.
  case_bool_decide; intros [= <- <-] Hn; by apply Hk.
Qed.

Lemma keeps_ensure_fasta_download g acc q :
  keeps_all spawn -> keeps (ensure_fasta_download spawn g acc q).
Proof.
  intros Hk w r w' key.
  destruct (spawn [g; acc] (files w) (outside w)) as [[p fs] env] eqn:Hs.
  pose proof (Hk [g; acc] (files w) (outside w) key) as Hkey.
  rewrite Hs in Hkey. simpl in Hkey.
  destruct (present (files w) (fasta_path_of q acc)) eqn:Hp.
  - rewrite (ensure_fasta_download_hit _ g acc q w Hp). by intros [= <- <-].
  - rewrite (ensure_fasta_download_miss _ g acc q w p fs env Hp Hs).
    case_bool_decide; [intros [= <- <-]; exact Hkey|].
    destruct (Str.startswith (stdout p) ">") eqn:Hgt;
      intros [= <- <-] Hn; [|by apply Hkey].
    simpl. unfold nonempty_at.
    destruct (decide (Pathlib.str (fasta_path_of q acc) = key)) as [<-|Hne].
    + rewrite lookup_insert_eq. by eapply startswith_nonempty.
    + rewrite lookup_insert_ne by done. by apply Hkey.
Qed.

Lemma keeps_download_queries g q accs d :
  keeps_all spawn -> keeps (download_queries spawn g q accs d).
Proof.
  intros Hk. revert d.
  induction accs as [|acc accs IH]; intros d; cbn [download_queries].
  - apply keeps_ret.
  - apply keeps_bind; [by apply keeps_ensure_fasta_download|]. intros p. apply IH.
Qed.

Lemma reads_db_exists db : reads (@db_exists Env db).
Proof. unfold db_exists. repeat reads_step. Qed.

Lemma keeps_make_db_if_needed asm db :
  keeps_all spawn -> keeps (make_db_if_needed spawn asm db).
Proof.
  intros Hk. unfold make_db_if_needed, mkdir.
  apply keeps_bind; [apply keeps_log|]. intros _.
  apply keeps_bind; [apply reads_keeps, reads_db_exists|]. intros hit.
  destruct hit; [apply keeps_ret|by apply keeps_run].
Qed.

Lemma keeps_build_dbs db_dir paths d :
  keeps_all spawn -> keeps (build_dbs spawn db_dir paths d).
Proof.
  intros Hk. revert d.
  induction paths as [|asm paths IH]; intros d; cbn [build_dbs].
  - apply keeps_ret.
  - apply keeps_bind; [by apply keeps_make_db_if_needed|]. intros _. apply IH.
Qed.

Lemma keeps_compare_pair out tmp_dir qf d acc asm :
  keeps_all spawn -> keeps (compare_pair spawn out tmp_dir qf d acc asm).
Proof.
  intros Hk. unfold compare_pair, blast_one, write_hits.
  apply keeps_bind; [apply reads_keeps, reads_dict_get|]. intros db.
  apply keeps_bind; [by apply keeps_run|]. intros _.
  apply keeps_bind; [apply reads_keeps, reads_get_files|]. intros fs.
  destruct (present fs _); [|apply keeps_writerow].
  apply keeps_bind; [apply reads_keeps, reads_read_text|]. intros text.
  apply keeps_for. intros line.
  destruct (String.eqb _ _); [apply keeps_ret|apply keeps_writerow].
Qed.

Lemma pipeline_phases args paths accs w :
  pipeline spawn resolve args paths accs w =
    bind (download_queries spawn (get_ref args) (queries_dir_of resolve args)
            accs ∅)
      (after_download spawn resolve args paths accs)
      (emit (EvMkdir (Pathlib.str (outdir_of resolve args)))
         (emit (EvMkdir (Pathlib.str (tmp_dir_of resolve args))) w)).
Proof. reflexivity. Qed.

Lemma after_download_phases args paths accs d1 w :
  after_download spawn resolve args paths accs d1 w =
    bind (build_dbs spawn (db_dir_of resolve args) paths ∅)
      (after_build spawn resolve args paths accs d1) w.
Proof. reflexivity. Qed.

Lemma keeps_after_build args paths accs d1 d2 :
  keeps_all spawn -> keeps (after_build spawn resolve args paths accs d1 d2).
Proof.
  intros Hk. unfold after_build, write_cumulative, print.
  apply keeps_bind; [apply keeps_open_w|]. intros _.
  apply keeps_bind.
  { apply keeps_finally. apply keeps_bind; [apply keeps_writerow|]. intros _.
    apply keeps_for. intros acc.
    apply keeps_bind; [apply reads_keeps, reads_dict_get|]. intros qf.
    apply keeps_for. intros asm. by apply keeps_compare_pair. }
  intros _. apply keeps_bind; [apply keeps_log|]. intros _.
  apply keeps_bind; [apply keeps_log|]. intros _. apply keeps_ret.
Qed.

Lemma keeps_after_download args paths accs d1 :
  keeps_all spawn -> keeps (after_download spawn resolve args paths accs d1).
Proof.
  intros Hk. apply keeps_bind; [by apply keeps_build_dbs|]. intros d2.
  by apply keeps_after_build.
Qed.

Lemma emits_after_build args paths accs d1 d2 :
  emits (fun e => no_fetch e /\ forall cmd, e = EvRun cmd -> head cmd = Some "blastn")
    (after_build spawn resolve args paths accs d1 d2).
Proof.
  unfold after_build, write_cumulative, print.
  apply emits_bind; [by apply emits_open_w|]. intros _.
  apply emits_bind.
  { apply emits_finally; [|done].
    apply emits_bind; [by apply emits_writerow|]. intros _.
    eapply emits_mono; [|apply emits_compare_loops].
    intros [] He; try done. split; [done|]. by intros cmd' [= <-]. }
  intros _. repeat emits_step; done.
Qed.

End Persistence.

(** ** A second run *)

Section SecondRun.

Context {Env : Type}.
Variable spawn :
  list string -> gmap string string -> Env -> proc * gmap string string * Env.
Variable resolve : Path -> Path.
Implicit Types w : world Env.

Lemma ensure_fasta_download_present g acc q w p w' :
  ensure_fasta_download spawn g acc q w = (inr p, w') ->
  present (files w') (fasta_path_of q acc) = true.
Proof.
  destruct (spawn [g; acc] (files w) (outside w)) as [[pr fs] env] eqn:Hs.
  destruct (present (files w) (fasta_path_of q acc)) eqn:Hp.
  - rewrite (ensure_fasta_download_hit _ g acc q w Hp). by intros [= _ <-].
  - rewrite (ensure_fasta_download_miss _ g acc q w pr fs env Hp Hs).
    case_bool_decide; [done|].
    destruct (Str.startswith (stdout pr) ">") eqn:Hgt; [|done].
    intros [= _ <-]. rewrite present_nonempty_at. unfold nonempty_at. simpl.
    rewrite lookup_insert_eq. by eapply startswith_nonempty.
Qed.

Lemma download_queries_present g q accs d w d' w' :
  keeps_all spawn ->
  download_queries spawn g q accs d w = (inr d', w') ->
  forall a, a ∈ accs -> present (files w') (fasta_path_of q a) = true.
Proof.
  intros Hk. revert d w.
  induction accs as [|acc accs IH]; intros d w H a Ha.
  { by apply elem_of_nil in Ha. }
  cbn [download_queries] in H. bind_ok_inv H p w1 H1.
  apply elem_of_cons in Ha as [->|Ha]; [|by eapply IH].
  apply ensure_fasta_download_present in H1.
  rewrite present_nonempty_at in *.
  by eapply keeps_download_queries.
Qed.

(** With every accession in the cache the first loop calls no tool. *)
Lemma download_queries_hits g q accs d w :
  (forall a, a ∈ accs -> present (files w) (fasta_path_of q a) = true) ->
  exists d' evs,
    download_queries spawn g q accs d w =
      (inr d', MkWorld (files w) (tables w) (outside w) (trace w ++ evs))
    /\ Forall is_mkdir evs.
Proof.
  revert d w. induction accs as [|acc accs IH]; intros d w Hp.
  - exists d, []. rewrite app_nil_r. split; [by destruct w|done].
  - cbn [download_queries].
    rewrite (bind_ok _ _ _ _ _
               (ensure_fasta_download_hit spawn g acc q w (Hp acc ltac:(left)))).
    destruct (IH (<[acc:=fasta_path_of q acc]> d)
                (emit (EvMkdir (Pathlib.str q)) w)) as (d' & evs & E & F).
    { intros a Ha. apply Hp. by right. }
    exists d', (EvMkdir (Pathlib.str q) :: evs). split.
    + rewrite E. simpl. by rewrite <- app_assoc.
    + by constructor.
Qed.

Lemma index_cached_mono fs fs' db :
  (forall key, nonempty_at fs key = true -> nonempty_at fs' key = true) ->
  Spec.index_cached fs db = true -> Spec.index_cached fs' db = true.
Proof.
  intros Hm. unfold Spec.index_cached. rewrite !forallb_forall.
  intros H x Hx. by apply Hm, H.
Qed.

Lemma run_returns cmd w w' :
  run spawn cmd w = (inr tt, w') ->
  returncode (spawn cmd (files w) (outside w)).1.1 = 0%Z
  /\ files w' = (spawn cmd (files w) (outside w)).1.2.
Proof.
  unfold run, bind. rewrite subprocess_run_eq.
  case_bool_decide as Hrc; [done|]. intros [= <-]. split; [|done].
  by destruct (decide (returncode (spawn cmd (files w) (outside w)).1.1 = 0%Z)).
Qed.

Lemma make_db_if_needed_cached asm db w w' :
  builds_index spawn ->
  Pathlib.name db <> "" -> Pathlib.suffix db = "" ->
  make_db_if_needed spawn asm db w = (inr tt, w') ->
  Spec.index_cached (files w') db = true.
Proof.
  intros Hb Hn Hs. rewrite (make_db_if_needed_plain spawn asm db w Hn Hs).
  destruct (Spec.index_cached (files w) db) eqn:Hc.
  - by intros [= <-].
  - intros [Hrc ->]%run_returns. by apply Hb.
Qed.

Lemma build_dbs_cached db_dir paths d w d' w' :
  keeps_all spawn -> builds_index spawn -> plain_keys paths ->
  build_dbs spawn db_dir paths d w = (inr d', w') ->
  forall m, m ∈ paths ->
    Spec.index_cached (files w') (db_prefix_of db_dir m) = true.
Proof.
  intros Hk Hb. revert d w.
  induction paths as [|asm paths IH]; intros d w Hplain H m Hm.
  { by apply elem_of_nil in Hm. }
  cbn [build_dbs] in H. bind_ok_inv H u w1 H1. destruct u.
  apply elem_of_cons in Hm as [->|Hm].
  - apply make_db_if_needed_cached in H1;
      [|done|apply name_db_prefix_ne|apply suffix_db_prefix, Hplain; left].
    eapply index_cached_mono; [|exact H1].
    intros key. by eapply keeps_build_dbs.
  - eapply IH; [|exact H|done]. intros x Hx. apply Hplain. by right.
Qed.

(** With every index in the cache the second loop calls no tool. *)
Lemma build_dbs_hits db_dir paths d w :
  plain_keys paths ->
  (forall m, m ∈ paths ->
     Spec.index_cached (files w) (db_prefix_of db_dir m) = true) ->
  exists d' evs,
    build_dbs spawn db_dir paths d w =
      (inr d', MkWorld (files w) (tables w) (outside w) (trace w ++ evs))
    /\ Forall is_mkdir evs.
Proof.
  revert d w. induction paths as [|asm paths IH]; intros d w Hplain Hc.
  - exists d, []. rewrite app_nil_r. split; [by destruct w|done].
  - cbn [build_dbs].
    assert (make_db_if_needed spawn asm (db_prefix_of db_dir asm) w
            = (inr tt, emit (EvMkdir (Pathlib.str
                 (Pathlib.parent (db_prefix_of db_dir asm)))) w)) as Hhit.
    { rewrite make_db_if_needed_plain;
        [|apply name_db_prefix_ne|apply suffix_db_prefix, Hplain; left].
      by rewrite (Hc asm ltac:(left)). }
    rewrite (bind_ok _ _ _ _ _ Hhit).
    destruct (IH (<[asm:=db_prefix_of db_dir asm]> d)
                (emit (EvMkdir (Pathlib.str
                   (Pathlib.parent (db_prefix_of db_dir asm)))) w))
      as (d' & evs & E & F).
    { intros x Hx. apply Hplain. by right. }
    { intros x Hx. apply Hc. by right. }
    eexists d', (_ :: evs). split.
    + rewrite E. simpl. by rewrite <- app_assoc.
    + by constructor.
Qed.

Lemma shell_outs_mkdirs evs : Forall is_mkdir evs -> shell_outs evs = [].
Proof. intros F. apply (omap_none_Forall _ _ _ F). by intros []. Qed.

Lemma makedb_runs_mkdirs evs : Forall is_mkdir evs -> makedb_runs evs = [].
Proof. intros F. apply (omap_none_Forall _ _ _ F). by intros []. Qed.

Lemma makedb_runs_app evs1 evs2 :
  makedb_runs (evs1 ++ evs2) = makedb_runs evs1 ++ makedb_runs evs2.
Proof. apply omap_app. Qed.

Lemma after_build_quiet args paths accs d1 d2 w r w' :
  after_build spawn resolve args paths accs d1 d2 w = (r, w') ->
  exists evs, trace w' = trace w ++ evs
              /\ shell_outs evs = [] /\ makedb_runs evs = [].
Proof.
  intros H. destruct (emits_after_build _ _ _ _ _ _ _ _ _ _ H) as (evs & E & F).
  exists evs. split; [done|]. split.
  - apply (omap_none_Forall _ _ _ F). by intros [] [? _].
  - apply (omap_none_Forall _ _ _ F). intros [] [_ He]; try done.
    simpl. rewrite decide_False; [done|]. rewrite (He _ eq_refl). by intros [=].
Qed.

(** A run of [pipeline] in a world where the downloads are cached calls
    the fetch tool for nothing. *)
Lemma pipeline_fetches_nothing args paths accs w :
  (forall a, a ∈ accs ->
     present (files w) (fasta_path_of (queries_dir_of resolve args) a) = true) ->
  exists evs,
    trace (pipeline spawn resolve args paths accs w).2 = trace w ++ evs
    /\ shell_outs evs = [].
Proof.
  intros Hp. rewrite pipeline_phases.
  destruct (download_queries_hits (get_ref args) (queries_dir_of resolve args)
              accs ∅
              (emit (EvMkdir (Pathlib.str (outdir_of resolve args)))
                 (emit (EvMkdir (Pathlib.str (tmp_dir_of resolve args))) w)))
    as (d1 & evs1 & E1 & F1); [done|].
  rewrite (bind_ok _ _ _ _ _ E1).
  destruct (after_download _ _ _ _ _ _ _) as [r w'] eqn:H.
  assert (emits no_fetch (after_download spawn resolve args paths accs d1)) as Hrest.
  { apply emits_bind.
    { eapply emits_mono; [|apply emits_build_dbs]. by intros []. }
    intros d2. eapply emits_mono; [|apply emits_after_build]. by intros e [? _]. }
  destruct (Hrest _ _ _ H) as (evs2 & E2 & F2). simpl in E2.
  exists (EvMkdir (Pathlib.str (tmp_dir_of resolve args))
          :: EvMkdir (Pathlib.str (outdir_of resolve args)) :: evs1 ++ evs2).
  split.
  - simpl. rewrite E2. by app_norm.
  - simpl. rewrite shell_outs_app, (shell_outs_mkdirs _ F1).
    by rewrite (shell_outs_none _ F2).
Qed.

(** A run of [pipeline] that returns leaves every download in the
    cache. *)
Lemma pipeline_leaves_downloads args paths accs w z w' :
  keeps_all spawn ->
  pipeline spawn resolve args paths accs w = (inr z, w') ->
  forall a, a ∈ accs ->
    present (files w') (fasta_path_of (queries_dir_of resolve args) a) = true.
Proof.
  intros Hk. rewrite pipeline_phases. intros H a Ha.
  bind_ok_inv H d1 w1 H1.
  pose proof (download_queries_present _ _ _ _ _ _ _ Hk H1 a Ha) as Hp.
  rewrite present_nonempty_at in *.
  by eapply (keeps_after_download spawn resolve).
Qed.

(** A run of [pipeline] that returns leaves every index in the cache, for
    keys without an inner dot. *)
Lemma pipeline_leaves_indexes args paths accs w z w' :
  keeps_all spawn -> builds_index spawn -> plain_keys paths ->
  pipeline spawn resolve args paths accs w = (inr z, w') ->
  forall m, m ∈ paths ->
    Spec.index_cached (files w')
      (db_prefix_of (db_dir_of resolve args) m) = true.
Proof.
  intros Hk Hb Hplain. rewrite pipeline_phases. intros H m Hm.
  bind_ok_inv H d1 w1 H1. rewrite after_download_phases in H.
  bind_ok_inv H d2 w2 H2.
  pose proof (build_dbs_cached _ _ _ _ _ _ Hk Hb Hplain H2 m Hm) as Hc.
  eapply index_cached_mono; [|exact Hc].
  intros key. by eapply (keeps_after_build spawn resolve).
Qed.

(** A run of [pipeline] in a world where the indexes are cached builds
    none. *)
Lemma pipeline_builds_nothing args paths accs w :
  keeps_all spawn -> plain_keys paths ->
  (forall m, m ∈ paths ->
     Spec.index_cached (files w)
       (db_prefix_of (db_dir_of resolve args) m) = true) ->
  exists evs,
    trace (pipeline spawn resolve args paths accs w).2 = trace w ++ evs
    /\ makedb_runs evs = [].
Proof.
  intros Hk Hplain Hc. rewrite pipeline_phases.
  set (w0 := emit (EvMkdir (Pathlib.str (outdir_of resolve args)))
               (emit (EvMkdir (Pathlib.str (tmp_dir_of resolve args))) w)).
  destruct (download_queries spawn (get_ref args) (queries_dir_of resolve args)
              accs ∅ w0) as [[e|d1] w1] eqn:H1.
  - rewrite (bind_err _ _ _ _ _ H1).
    destruct (emits_download_queries _ _ _ _ _ _ _ _ H1) as (evs1 & E1 & F1).
    exists (EvMkdir (Pathlib.str (tmp_dir_of resolve args))
            :: EvMkdir (Pathlib.str (outdir_of resolve args)) :: evs1).
    split; [simpl; rewrite E1; unfold w0; by app_norm|].
    simpl. apply (omap_none_Forall _ _ _ F1). by intros [].
  - rewrite (bind_ok _ _ _ _ _ H1), after_download_phases.
    destruct (emits_download_queries _ _ _ _ _ _ _ _ H1) as (evs1 & E1 & F1).
    destruct (build_dbs_hits (db_dir_of resolve args) paths ∅ w1 Hplain)
      as (d2 & evs2 & E2 & F2).
    { intros m Hm. eapply index_cached_mono; [|exact (Hc m Hm)].
      intros key Hn. eapply keeps_download_queries; [done|exact H1|done]. }
    rewrite (bind_ok _ _ _ _ _ E2).
    destruct (after_build _ _ _ _ _ _ _ _) as [r w'] eqn:H.
    destruct (after_build_quiet _ _ _ _ _ _ _ _ H) as (evs3 & E3 & _ & M3).
    simpl in E3.
    exists (EvMkdir (Pathlib.str (tmp_dir_of resolve args))
            :: EvMkdir (Pathlib.str (outdir_of resolve args))
            :: evs1 ++ evs2 ++ evs3).
    split; [simpl; rewrite E3, E1; unfold w0; by app_norm|].
    simpl. rewrite !makedb_runs_app, (makedb_runs_mkdirs _ F2), M3.
    rewrite app_nil_r. apply (omap_none_Forall _ _ _ F1). by intros [].
Qed.

Lemma main_reads args w assemblies accessions w1 :
  read_inputs args w = (inr (assemblies, accessions), w1) ->
  assemblies = Spec.assemblies args (files w)
  /\ accessions = Spec.accessions args (files w).
Proof.
  rewrite read_inputs_spec. destruct (find _ _); [done|]. by intros [= <- <-].
Qed.

(** The second of two runs on the same accessions fetches nothing. *)
Lemma second_run_fetches_nothing args w z w1 :
  keeps_all spawn ->
  main spawn resolve args w = (inr z, w1) ->
  Spec.accessions args (files w1) = Spec.accessions args (files w) ->
  exists evs,
    trace (main spawn resolve args w1).2 = trace w1 ++ evs
    /\ shell_outs evs = [].
Proof.
  intros Hk H Hsame.
  apply main_returns in H as (A & I & Hin & H).
  apply main_reads in Hin as [-> ->].
  pose proof (pipeline_leaves_downloads _ _ _ _ _ _ Hk H) as Hp.
  destruct (main spawn resolve args w1) as [r w2] eqn:H2.
  apply main_cases in H2 as [[-> _]|(A' & I' & Hin' & _ & _ & _ & H2)].
  { exists []. by rewrite app_nil_r. }
  apply main_reads in Hin' as [-> ->]. rewrite Hsame in H2.
  destruct (pipeline_fetches_nothing args
              (resolve_all resolve (Spec.assemblies args (files w1)))
              (Spec.accessions args (files w)) w1 Hp) as (evs & E & S).
  rewrite H2 in E. by exists evs.
Qed.

(** The second of two runs on the same assemblies builds no index, when
    no key has an inner dot. *)
Lemma second_run_builds_nothing args w z w1 :
  keeps_all spawn -> builds_index spawn ->
  main spawn resolve args w = (inr z, w1) ->
  Spec.assemblies args (files w1) = Spec.assemblies args (files w) ->
  plain_keys (resolve_all resolve (Spec.assemblies args (files w))) ->
  exists evs,
    trace (main spawn resolve args w1).2 = trace w1 ++ evs
    /\ makedb_runs evs = [].
Proof.
  intros Hk Hb H Hsame Hplain.
  apply main_returns in H as (A & I & Hin & H).
  apply main_reads in Hin as [-> ->].
  pose proof (pipeline_leaves_indexes _ _ _ _ _ _ Hk Hb Hplain H) as Hc.
  destruct (main spawn resolve args w1) as [r w2] eqn:H2.
  apply main_cases in H2 as [[-> _]|(A' & I' & Hin' & _ & _ & _ & H2)].
  { exists []. by rewrite app_nil_r. }
  apply main_reads in Hin' as [-> ->]. rewrite Hsame in H2.
  destruct (pipeline_builds_nothing args
              (resolve_all resolve (Spec.assemblies args (files w)))
              (Spec.accessions args (files w1)) w1 Hk Hplain Hc)
    as (evs & E & S).
  rewrite H2 in E. by exists evs.
Qed.

End SecondRun.

(** ** Items and rows *)

Lemma lstrip_idem s : Str.lstrip (Str.lstrip s) = Str.lstrip s.
Proof.
  induction s as [|c s IH]; [done|]. cbn [Str.lstrip].
  destruct (Str.isspace c) eqn:E; [done|]. cbn [Str.lstrip]. by rewrite E.
Qed.

Lemma rstrip_idem s : Str.rstrip (Str.rstrip s) = Str.rstrip s.
Proof.
  induction s as [|c s IH]; [done|]. cbn [Str.rstrip].
  destruct (Str.rstrip s) as [|a r] eqn:E.
  - destruct (Str.isspace c) eqn:Ec; [done|]. cbn [Str.rstrip]. by rewrite Ec.
  - cbn [Str.rstrip]. cbn [Str.rstrip] in IH. by rewrite IH.
Qed.

Lemma lstrip_cases s :
  Str.lstrip s = ""
  \/ exists c r, Str.lstrip s = String c r /\ Str.isspace c = false.
Proof.
  induction s as [|c s IH]; [by left|]. cbn [Str.lstrip].
  destruct (Str.isspace c) eqn:E; [done|]. right. by exists c, s.
Qed.

Lemma strip_cases s :
  Str.strip s = ""
  \/ exists c r, Str.strip s = String c r /\ Str.isspace c = false.
Proof.
  unfold Str.strip. destruct (lstrip_cases s) as [->|(c & r & -> & Hc)]; [by left|].
  right. destruct (rstrip_first c r Hc) as (r' & ->). by exists c, r'.
Qed.

(** What [strip] leaves has no white space to strip. *)
Lemma strip_idem s : Str.strip (Str.strip s) = Str.strip s.
Proof.
  destruct (strip_cases s) as [E|(c & r & E & Hc)].
  - by rewrite E.
  - unfold Str.strip at 1. rewrite E. cbn [Str.lstrip]. rewrite Hc, <- E.
    unfold Str.strip. apply rstrip_idem.
Qed.

Lemma all_chars_lstrip P s :
  all_chars P s = true -> all_chars P (Str.lstrip s) = true.
Proof.
  induction s as [|c s IH]; [done|]. cbn [Str.lstrip].
  destruct (Str.isspace c); [|done]. cbn [all_chars].
  intros [_ Hs]%andb_true_iff. by apply IH.
Qed.

Lemma all_chars_rstrip P s :
  all_chars P s = true -> all_chars P (Str.rstrip s) = true.
Proof.
  induction s as [|c s IH]; [done|]. cbn [Str.rstrip all_chars].
  intros [Hc Hs]%andb_true_iff. specialize (IH Hs).
  destruct (Str.rstrip s) as [|a r].
  - destruct (Str.isspace c); [done|]. cbn [all_chars]. by rewrite Hc.
  - cbn [all_chars] in *. by rewrite Hc, IH.
Qed.

Lemma all_chars_strip P s :
  all_chars P s = true -> all_chars P (Str.strip s) = true.
Proof. intros H. by apply all_chars_rstrip, all_chars_lstrip. Qed.

(** The pieces of a split hold no separator. *)
Lemma split_pieces_free sep s : Forall (fun p => free_of sep p = true) (Str.split sep s).
Proof.
  induction s as [|c s IH]; cbn [Str.split]; [by repeat constructor|].
  destruct (Ascii.eqb c sep) eqn:E; [by constructor|].
  destruct (Str.split sep s) as [|h t].
  { constructor; [|constructor]. unfold free_of. cbn [all_chars]. by rewrite E. }
  apply Forall_cons in IH as [Hh Ht]. constructor; [|done].
  unfold free_of in *. cbn [all_chars]. by rewrite E, Hh.
Qed.

Lemma split_commas_clean values :
  Forall (fun p => clean p /\ free_of "," p = true) (split_commas values).
Proof.
  unfold split_commas. induction values as [|v values IH]; [constructor|].
  cbn [flat_map]. apply Forall_app. split; [|done].
  pose proof (split_pieces_free "," v) as Hf.
  induction Hf as [|p l Hp _ IHl]; [constructor|].
  cbn [map]. rewrite filter_cons.
  destruct (decide (Str.strip p <> "")); [|done].
  constructor; [|done]. split; [split; [done|apply strip_idem]|].
  by apply all_chars_strip.
Qed.

(** On items that are clean and hold no comma [split_commas] changes
    nothing. *)
Lemma split_commas_id values :
  Forall (fun v => clean v /\ free_of "," v = true) values ->
  split_commas values = values.
Proof.
  unfold split_commas. induction 1 as [|v values [[Hne Hs] Hf] _ IH]; [done|].
  cbn [flat_map]. rewrite IH, (split_free _ _ Hf). cbn [map].
  rewrite filter_cons, Hs, decide_True by done. by rewrite filter_nil.
Qed.

Lemma list_items_clean text :
  Forall (fun s => clean s /\ Str.startswith s "#" = false) (list_items text).
Proof.
  unfold list_items. induction (Str.splitlines text) as [|l ls IH]; [constructor|].
  cbn [map]. rewrite filter_cons.
  destruct (decide _) as [[Hne Hh]|]; [|done].
  constructor; [|done]. split; [split; [done|apply strip_idem]|done].
Qed.

(** The rows of the lines of a result file: behind the label, each row
    is its line again once joined with tabs, and the rows are those of the
    lines that are not blank, in their order. *)
Lemma hit_rows_lines comparison lines :
  Forall (fun row => head row = Some comparison) (hit_rows comparison lines)
  /\ map (fun row => Str.join (String Str.TAB "") (tail row))
       (hit_rows comparison lines)
     = filter (fun line => Str.strip line <> "") lines.
Proof.
  unfold hit_rows. induction lines as [|line lines [IH1 IH2]]; [by split|].
  rewrite filter_cons. destruct (decide _); [|done]. split.
  - by constructor.
  - cbn [fmap list_fmap map tail]. rewrite join_split. f_equal. exact IH2.
Qed.

(** A pair has no row exactly when its result file is not empty and all
    its lines are blank. *)
Lemma pair_rows_nil fs tmp_out comparison :
  pair_rows fs tmp_out comparison = [] <->
  exists data,
    fs !! Pathlib.str tmp_out = Some data /\ data <> ""
    /\ Forall (fun line => Str.strip line = "")
         (Str.splitlines (Str.universal_newlines data)).
Proof.
  unfold pair_rows. rewrite present_nonempty_at. unfold nonempty_at.
  destruct (fs !! Pathlib.str tmp_out) as [data|]; [|split; [done|by intros (? & [=] & _)]].
  destruct data as [|c data]; cbn [String.length Nat.ltb Nat.leb].
  { split; [done|]. by intros (? & [= <-] & ? & _). }
  unfold hit_rows. split.
  - intros H. exists (String c data). split; [done|]. split; [done|].
    apply fmap_nil_inv in H.
    induction (Str.splitlines _) as [|l ls IH]; [constructor|].
    rewrite filter_cons in H. destruct (decide (Str.strip l <> "")) as [|Hl]; [done|].
    constructor; [|by apply IH].
    by destruct (decide (Str.strip l = "")).
  - intros (d & [= <-] & _ & H).
    induction H as [|l ls Hl _ IH]; [done|].
    rewrite filter_cons, decide_False; [done|]. by intros ?.
Qed.

(** ** Everything a run does *)

Section Deeds.

Context {Env : Type}.
Variable spawn :
  list string -> gmap string string -> Env -> proc * gmap string string * Env.
Variable resolve : Path -> Path.
Implicit Types w : world Env.

Lemma parent_joinpath_component p n :
  component n -> Pathlib.parent (Pathlib.joinpath p n) = p.
Proof.
  intros Hn. rewrite (joinpath_component p n Hn). unfold Pathlib.parent.
  cbn [Pathlib.root Pathlib.tail]. rewrite removelast_last. by destruct p.
Qed.

Lemma allowed_mkdir_queries args accs paths :
  allowed resolve args accs paths (EvMkdir (Pathlib.str (queries_dir_of resolve args))).
Proof. cbn. set_solver. Qed.

Lemma allowed_mkdir_db args accs paths asm :
  allowed resolve args accs paths
    (EvMkdir (Pathlib.str
                (Pathlib.parent (db_prefix_of (db_dir_of resolve args) asm)))).
Proof.
  unfold db_prefix_of.
  rewrite parent_joinpath_component by apply db_name_component.
  cbn. set_solver.
Qed.

Lemma emits_for_in {A} P (l : list A) (body : A -> M Env unit) :
  (forall x, x ∈ l -> emits P (body x)) -> emits P (for_ l body).
Proof.
  induction l as [|x l IH]; intros Hb; cbn [for_]; [apply emits_ret|].
  apply emits_bind; [apply Hb; left|]. intros _. apply IH.
  intros y Hy. apply Hb. by right.
Qed.

Lemma allowed_ensure_fasta_download args accs paths acc :
  acc ∈ accs ->
  emits (allowed resolve args accs paths)
    (ensure_fasta_download spawn (get_ref args) acc (queries_dir_of resolve args)).
Proof.
  intros Ha w r w'.
  destruct (spawn [get_ref args; acc] (files w) (outside w))
    as [[p fs] env] eqn:Hs.
  destruct (present (files w)
              (fasta_path_of (queries_dir_of resolve args) acc)) eqn:Hp.
  - rewrite (ensure_fasta_download_hit _ _ acc _ w Hp). intros [= <- <-].
    eexists [_]. split; [done|]. constructor; [|done].
    apply allowed_mkdir_queries.
  - rewrite (ensure_fasta_download_miss _ _ acc _ w p fs env Hp Hs).
    assert (allowed resolve args accs paths (EvShellOut [get_ref args; acc])) as Hsh
      by (by exists acc).
    pose proof (allowed_mkdir_queries args accs paths) as Hmk.
    case_bool_decide.
    { intros [= <- <-]. eexists [_; _]. split; [done|].
      constructor; [done|]. by constructor. }
    destruct (Str.startswith (stdout p) ">") eqn:Hgt; intros [= <- <-].
    + eexists [_; _; _]. split; [done|].
      constructor; [done|]. constructor; [done|]. constructor; [|constructor].
      split; [by exists acc|done].
    + eexists [_; _]. split; [done|].
      constructor; [done|]. by constructor.
Qed.

Lemma allowed_download_queries args accs paths l d :
  l ⊆ accs ->
  emits (allowed resolve args accs paths)
    (download_queries spawn (get_ref args) (queries_dir_of resolve args) l d).
Proof.
  revert d. induction l as [|acc l IH]; intros d Hl; cbn [download_queries].
  - apply emits_ret.
  - apply emits_bind.
    + apply allowed_ensure_fasta_download, Hl. left.
    + intros p. apply IH. intros x Hx. apply Hl. by right.
Qed.

Lemma allowed_build_dbs args accs paths l d :
  l ⊆ paths ->
  emits (allowed resolve args accs paths)
    (build_dbs spawn (db_dir_of resolve args) l d).
Proof.
  revert d. induction l as [|asm l IH]; intros d Hl; cbn [build_dbs].
  - apply emits_ret.
  - apply emits_bind.
    + unfold make_db_if_needed, mkdir.
      apply emits_bind; [apply emits_log, allowed_mkdir_db|]. intros _.
      apply emits_bind; [apply emits_db_exists|]. intros hit.
      destruct hit; [apply emits_ret|]. apply emits_run. left.
      exists asm. split; [apply Hl; left|done].
    + intros _. apply IH. intros x Hx. apply Hl. by right.
Qed.

Lemma bind_ret {A B} (a : A) (k : A -> M Env B) : bind (ret a) k = k a.
Proof. reflexivity. Qed.

Lemma allowed_compare_pair args accs paths d acc asm :
  acc ∈ accs -> asm ∈ paths ->
  d !! asm = Some (db_prefix_of (db_dir_of resolve args) asm) ->
  emits (allowed resolve args accs paths)
    (compare_pair spawn (out_path_of resolve args) (tmp_dir_of resolve args)
       (fasta_path_of (queries_dir_of resolve args) acc) d acc asm).
Proof.
  intros Ha Hm Hd. unfold compare_pair, dict_get, blast_one, write_hits.
  rewrite Hd, bind_ret.
  apply emits_bind.
  { apply emits_run. right. by exists acc, asm. }
  intros _. apply emits_bind; [apply emits_get_files|]. intros fs.
  destruct (present fs _); [|by apply emits_writerow].
  apply emits_bind; [apply reads_emits, reads_read_text|]. intros text.
  apply emits_for. intros line.
  destruct (String.eqb _ _); [apply emits_ret|by apply emits_writerow].
Qed.

(** Whatever its end, a run of [pipeline] does nothing but this: it
    creates directories, fetches accessions of the list, caches a download
    that begins with the record marker under the name of its accession,
    builds indexes of assemblies of the list, opens, writes and closes the
    report, searches pairs of the two lists, and prints. *)
Lemma pipeline_allowed args paths accs :
  emits (allowed resolve args accs paths) (pipeline spawn resolve args paths accs).
Proof.
  intros w r w'. rewrite pipeline_phases. intros H.
  assert (emits (allowed resolve args accs paths)
            (bind (download_queries spawn (get_ref args)
                     (queries_dir_of resolve args) accs ∅)
               (after_download spawn resolve args paths accs))) as Hem.
  { intros w0 r0 w0' H0.
    destruct (download_queries spawn (get_ref args)
                (queries_dir_of resolve args) accs ∅ w0) as [[e|d1] w1] eqn:H1.
    - rewrite (bind_err _ _ _ _ _ H1) in H0. injection H0 as <- <-.
      by eapply (allowed_download_queries args accs paths accs ∅).
    - rewrite (bind_ok _ _ _ _ _ H1) in H0.
      destruct (allowed_download_queries args accs paths accs ∅ ltac:(done)
                  _ _ _ H1) as (evs1 & E1 & F1).
      pose proof (download_queries_dict _ _ _ _ _ _ _ _ H1) as D1.
      rewrite after_download_phases in H0.
      destruct (build_dbs spawn (db_dir_of resolve args) paths ∅ w1)
        as [[e|d2] w2] eqn:H2.
      + rewrite (bind_err _ _ _ _ _ H2) in H0. injection H0 as <- <-.
        destruct (allowed_build_dbs args accs paths paths ∅ ltac:(done)
                    _ _ _ H2) as (evs2 & E2 & F2).
        exists (evs1 ++ evs2). rewrite E2, E1, app_assoc. split; [done|].
        by apply Forall_app.
      + rewrite (bind_ok _ _ _ _ _ H2) in H0.
        destruct (allowed_build_dbs args accs paths paths ∅ ltac:(done)
                    _ _ _ H2) as (evs2 & E2 & F2).
        pose proof (build_dbs_dict _ _ _ _ _ _ _ H2) as D2.
        assert (emits (allowed resolve args accs paths)
                  (after_build spawn resolve args paths accs d1 d2)) as Hab.
        { unfold after_build, write_cumulative, print.
          apply emits_bind; [by apply emits_open_w|]. intros _.
          apply emits_bind.
          { apply emits_finally; [|done].
            apply emits_bind; [by apply emits_writerow|]. intros _.
            apply emits_for_in. intros acc Hacc.
            unfold dict_get. rewrite D1, decide_True by done.
            rewrite bind_ret. apply emits_for_in. intros asm Hasm.
            apply allowed_compare_pair; [done..|].
            by rewrite D2, decide_True. }
          intros _. repeat emits_step; done. }
        destruct (Hab _ _ _ H0) as (evs3 & E3 & F3).
        exists (evs1 ++ evs2 ++ evs3). rewrite E3, E2, E1, !app_assoc.
        split; [done|]. by repeat (apply Forall_app; split). }
  destruct (Hem _ _ _ H) as (evs & E & F).
  exists (EvMkdir (Pathlib.str (tmp_dir_of resolve args))
          :: EvMkdir (Pathlib.str (outdir_of resolve args)) :: evs).
  split; [rewrite E; by app_norm|].
  do 2 (constructor; [cbn; set_solver|]). done.
Qed.

End Deeds.

(** ** The report of a run that returns *)

Section Report.

Context {Env : Type}.
Variable spawn :
  list string -> gmap string string -> Env -> proc * gmap string string * Env.
Variable resolve : Path -> Path.
Implicit Types w : world Env.

Lemma inner_loop_groups out tmp_dir qf d acc paths :
  (forall m, m ∈ paths -> is_Some (d !! m)) ->
  forall w w' rows0,
    tables w !! Pathlib.str out = Some rows0 ->
    for_ paths (compare_pair spawn out tmp_dir qf d acc) w = (inr tt, w') ->
    exists groups,
      tables w' !! Pathlib.str out = Some (rows0 ++ concat groups)
      /\ Forall2 (pair_group tmp_dir) (map (pair acc) paths) groups.
Proof.
  induction paths as [|m paths IH]; intros Hd w w' rows0 Hr H.
  - simpl in H. unfold ret in H. injection H as <-.
    exists []. simpl. rewrite app_nil_r. by split.
  - simpl in H. bind_ok_inv H u w1 H1.
    destruct (Hd m ltac:(left)) as [db Hdb].
    rewrite (compare_pair_eq spawn out tmp_dir qf d acc m db w rows0 Hdb Hr)
      in H1.
    simpl in H1. case_bool_decide; [done|]. destruct u. injection H1 as <-.
    assert (forall m0, m0 ∈ paths -> is_Some (d !! m0))
      as Hd' by (intros; apply Hd; by right).
    match type of H with
    | for_ _ _ ?w1 = _ =>
        assert (tables w1 !! Pathlib.str out = Some (rows0 ++
                  pair_rows (files w1) (tmp_out_of tmp_dir acc m)
                    (comparison_of acc m))) as Hr1
          by (simpl; apply lookup_insert_eq)
    end.
    destruct (IH Hd' _ _ _ Hr1 H) as (groups & T & G).
    eexists (_ :: groups). split.
    + rewrite T. simpl. by rewrite <- app_assoc.
    + constructor; [|done]. by eexists.
Qed.

Lemma loops_groups out tmp_dir d1 d2 accs paths :
  (forall a, a ∈ accs -> is_Some (d1 !! a)) ->
  (forall m, m ∈ paths -> is_Some (d2 !! m)) ->
  forall w w' rows0,
    tables w !! Pathlib.str out = Some rows0 ->
    for_ accs (fun acc =>
      qf <- dict_get d1 acc acc ;;
      for_ paths (compare_pair spawn out tmp_dir qf d2 acc)) w = (inr tt, w') ->
    exists groups,
      tables w' !! Pathlib.str out = Some (rows0 ++ concat groups)
      /\ Forall2 (pair_group tmp_dir) (all_pairs pair accs paths) groups.
Proof.
  intros Hd1 Hd2. induction accs as [|a accs IH]; intros w w' rows0 Hr H.
  - simpl in H. unfold ret in H. injection H as <-.
    exists []. simpl. rewrite app_nil_r. by split.
  - simpl in H. bind_ok_inv H u w1 H1.
    unfold dict_get in H1. destruct (Hd1 a ltac:(left)) as [qf Hqf].
    rewrite Hqf in H1. unfold bind, ret in H1. destruct u.
    apply (inner_loop_groups _ _ _ _ _ _ Hd2 _ _ _ Hr) in H1
      as (groups1 & T1 & G1).
    assert (forall a0, a0 ∈ accs -> is_Some (d1 !! a0))
      as Hd1' by (intros; apply Hd1; by right).
    destruct (IH Hd1' _ _ _ T1 H) as (groups & T & G).
    exists (groups1 ++ groups). split.
    + by rewrite T, concat_app, <- app_assoc.
    + unfold all_pairs. simpl. by apply Forall2_app.
Qed.

(** A run of [pipeline] that returns gives 0, and leaves in the report
    the header and, for each pair in the order of the loops, the rows of
    that pair. *)
Lemma pipeline_report args paths accs w z w' :
  pipeline spawn resolve args paths accs w = (inr z, w') ->
  z = 0%Z
  /\ exists groups,
       tables w' !! Pathlib.str (out_path_of resolve args)
         = Some (header :: concat groups)
       /\ Forall2 (pair_group (tmp_dir_of resolve args))
            (all_pairs pair accs paths) groups.
Proof.
  unfold pipeline, mkdir, print. rewrite !bind_log. intros H.
  bind_ok_inv H d1 w1 H1. bind_ok_inv H d2 w2 H2.
  pose proof (download_queries_dict _ _ _ _ _ _ _ _ H1) as D1.
  pose proof (build_dbs_dict _ _ _ _ _ _ _ H2) as D2.
  unfold bind at 1 in H. unfold open_w at 1 in H.
  unfold bind at 1, finally at 1, write_cumulative, bind at 1, writerow at 1 in H.
  match type of H with
  | context [for_ accs ?body ?w0] =>
      destruct (for_ accs body w0) as [r3 w3] eqn:H3
  end.
  destruct r3 as [e3|[]]; [done|].
  rewrite !bind_log in H. unfold ret in H. injection H as <- <-.
  split; [done|].
  eapply (loops_groups _ _ _ _ _ _) with (rows0 := [header]) in H3
    as (groups & T3 & G3).
  - exists groups. split; [|exact G3]. simpl. exact T3.
  - intros a Ha. rewrite D1. by rewrite decide_True.
  - intros m Hm. rewrite D2. by rewrite decide_True.
  - simpl. by rewrite !lookup_insert_eq.
Qed.

Lemma main_report args w z w' :
  main spawn resolve args w = (inr z, w') ->
  z = 0%Z
  /\ exists groups,
       tables w' !! Pathlib.str (out_path_of resolve args)
         = Some (header :: concat groups)
       /\ Forall2 (pair_group (tmp_dir_of resolve args))
            (all_pairs pair (Spec.accessions args (files w))
               (resolve_all resolve (Spec.assemblies args (files w))))
            groups.
Proof.
  intros H. apply main_returns in H as (A & I & H1 & H).
  apply main_reads in H1 as [-> ->]. by apply pipeline_report in H.
Qed.

(** Every row of a group carries the label of its pair. *)
Lemma groups_labels tmp_dir prs groups :
  Forall2 (pair_group tmp_dir) prs groups ->
  Forall (fun row => exists pr, pr ∈ prs
                       /\ head row = Some (comparison_of pr.1 pr.2))
    (concat groups).
Proof.
  induction 1 as [|pr g prs groups [fs ->] _ IH]; [constructor|].
  simpl. apply Forall_app. split.
  - apply Forall_forall. intros row Hrow. exists pr. split; [left|].
    by apply pair_rows_label in Hrow.
  - eapply Forall_impl; [exact IH|]. intros row (pr' & Hin & Hh).
    exists pr'. split; [by right|done].
Qed.

(** *** A second call of [ensure_fasta_download] *)

Lemma ensure_fasta_download_again g acc q w p w' :
  ensure_fasta_download spawn g acc q w = (inr p, w') ->
  ensure_fasta_download spawn g acc q w' =
    (inr p, emit (EvMkdir (Pathlib.str q)) w').
Proof.
  intros H. pose proof (ensure_fasta_download_result _ _ _ _ _ _ _ H) as ->.
  apply ensure_fasta_download_hit.
  by eapply ensure_fasta_download_present.
Qed.

(** *** Everything [main] does *)

Lemma main_allowed args w r w' :
  main spawn resolve args w = (r, w') ->
  exists evs,
    trace w' = trace w ++ evs
    /\ Forall (allowed resolve args (Spec.accessions args (files w))
                 (resolve_all resolve (Spec.assemblies args (files w)))) evs.
Proof.
  intros H. apply main_cases in H as [[-> _]|(A & I & H1 & _ & _ & _ & H)].
  { exists []. by rewrite app_nil_r. }
  apply main_reads in H1 as [-> ->].
  by apply pipeline_allowed in H.
Qed.

End Report.

(** ** The concrete tools *)

Lemma append_inj_l s a b : s +:+ a = s +:+ b -> a = b.
Proof.
  induction s as [|c s IH]; [done|]. rewrite !append_cons. intros [= H].
  by apply IH.
Qed.

Lemma nonempty_at_insert fs k v key :
  (0 <? String.length v) = true ->
  nonempty_at fs key = true -> nonempty_at (<[k := v]> fs) key = true.
Proof.
  intros Hv H. unfold nonempty_at. destruct (decide (k = key)) as [->|Hne].
  - by rewrite lookup_insert_eq.
  - by rewrite lookup_insert_ne.
Qed.

Lemma toy_tools_files fetched status cmd fs env :
  let fs' := (Toy.tools fetched None status cmd fs env).1.2 in
  fs' = fs
  \/ exists out,
       fs' = <[out +:+ ".nhr" := "h"]>
               (<[out +:+ ".nin" := "i"]> (<[out +:+ ".nsq" := "s"]> fs)).
Proof.
  unfold Toy.tools.
  repeat match goal with
         | |- context [match ?x with _ => _ end] => destruct x
         end; cbn; eauto.
Qed.

Lemma toy_tools_keep_all fetched status :
  keeps_all (Toy.tools fetched None status).
Proof.
  intros cmd fs env key H.
  destruct (toy_tools_files fetched status cmd fs env) as [->|[out ->]];
    [done|].
  by do 3 (apply nonempty_at_insert; [done|]).
Qed.

Lemma toy_tools_build_index fetched hits status :
  builds_index (Toy.tools fetched hits status).
Proof.
  intros asm db fs env _. cbn.
  unfold Spec.index_cached, Spec.companion_files, db_suffixes, nonempty_at.
  cbn [map forallb].
  rewrite lookup_insert_eq.
  rewrite lookup_insert_ne by (by intros ?%append_inj_l).
  rewrite lookup_insert_eq.
  do 2 rewrite lookup_insert_ne by (by intros ?%append_inj_l).
  by rewrite lookup_insert_eq.
Qed.

(** ** The report is closed *)

Section Closing.

Context {Env : Type}.
Variable spawn :
  list string -> gmap string string -> Env -> proc * gmap string string * Env.
Variable resolve : Path -> Path.
Implicit Types w : world Env.

Lemma report_brackets_app evs1 evs2 :
  report_brackets (evs1 ++ evs2) = report_brackets evs1 ++ report_brackets evs2.
Proof. apply omap_app. Qed.

Lemma report_brackets_none (P : event -> Prop) evs :
  (forall f, ~ P (EvOpen f)) -> (forall f, ~ P (EvClose f)) ->
  Forall P evs -> report_brackets evs = [].
Proof.
  intros Ho Hc. induction 1 as [|e evs He _ IH]; [done|].
  unfold report_brackets in *. cbn [omap list_omap]. rewrite IH.
  destruct e; try done; [by apply Ho in He|by apply Hc in He].
Qed.

Lemma after_build_brackets args paths accs d1 d2 w r w' :
  after_build spawn resolve args paths accs d1 d2 w = (r, w') ->
  exists evs,
    trace w' = trace w ++ evs
    /\ report_brackets evs =
         [EvOpen (Pathlib.str (out_path_of resolve args));
          EvClose (Pathlib.str (out_path_of resolve args))].
Proof.
  unfold after_build, print. intros H.
  unfold bind at 1, open_w at 1 in H.
  unfold bind at 1, finally at 1 in H.
  match type of H with
  | context [write_cumulative ?a ?b ?c ?d ?e ?f ?g ?w0] =>
      destruct (write_cumulative a b c d e f g w0) as [r3 w3] eqn:H3
  end.
  assert (emits search_event
            (write_cumulative spawn (out_path_of resolve args)
               (tmp_dir_of resolve args) accs paths d1 d2)) as Hem.
  { unfold write_cumulative.
    apply emits_bind; [by apply emits_writerow|]. intros _.
    apply emits_compare_loops. }
  destruct (Hem _ _ _ H3) as (evs3 & E3 & F3). cbn [trace] in E3.
  assert (report_brackets evs3 = []) as B3
    by (apply (report_brackets_none search_event); [intros f []..|done]).
  destruct r3 as [e3|[]].
  - injection H as <- <-.
    exists (EvOpen (Pathlib.str (out_path_of resolve args))
            :: evs3 ++ [EvClose (Pathlib.str (out_path_of resolve args))]).
    split.
    + cbn [emit trace]. rewrite E3. by app_norm.
    + change (report_brackets (?e :: ?l)) with (e :: report_brackets l).
      by rewrite report_brackets_app, B3.
  - rewrite !bind_log in H. unfold ret in H. injection H as <- <-.
    eexists (EvOpen (Pathlib.str (out_path_of resolve args))
             :: evs3 ++ [EvClose (Pathlib.str (out_path_of resolve args));
                         EvPrint _; EvPrint _]).
    split.
    + cbn [emit trace]. rewrite E3. by app_norm.
    + change (report_brackets (?e :: ?l)) with (e :: report_brackets l).
      by rewrite report_brackets_app, B3.
Qed.

Lemma fetch_build_brackets args paths accs w r w' :
  bind (download_queries spawn (get_ref args) (queries_dir_of resolve args)
          accs ∅)
    (after_download spawn resolve args paths accs) w = (r, w') ->
  exists evs,
    trace w' = trace w ++ evs
    /\ ((report_brackets evs = [] /\ exists e, r = inl e)
        \/ report_brackets evs =
             [EvOpen (Pathlib.str (out_path_of resolve args));
              EvClose (Pathlib.str (out_path_of resolve args))]).
Proof.
  intros H.
  destruct (download_queries spawn (get_ref args)
              (queries_dir_of resolve args) accs ∅ w) as [[e|d1] w1] eqn:H1;
    destruct (emits_download_queries _ _ _ _ _ _ _ _ H1) as (evs1 & E1 & F1);
    (assert (report_brackets evs1 = []) as B1
       by (apply (report_brackets_none fetch_event); [intros f []..|done])).
  - rewrite (bind_err _ _ _ _ _ H1) in H. injection H as <- <-.
    exists evs1. split; [done|]. left. split; [done|by eexists].
  - rewrite (bind_ok _ _ _ _ _ H1) in H.
    rewrite after_download_phases in H.
    destruct (build_dbs spawn (db_dir_of resolve args) paths ∅ w1)
      as [[e|d2] w2] eqn:H2;
      destruct (emits_build_dbs _ _ _ _ _ _ _ H2) as (evs2 & E2 & F2);
      (assert (report_brackets evs2 = []) as B2
         by (apply (report_brackets_none build_event); [intros f []..|done])).
    + rewrite (bind_err _ _ _ _ _ H2) in H. injection H as <- <-.
      exists (evs1 ++ evs2).
      split; [by rewrite E2, E1, <- !app_assoc|].
      left. split; [|by eexists].
      by rewrite !report_brackets_app, B1, B2.
    + rewrite (bind_ok _ _ _ _ _ H2) in H.
      apply after_build_brackets in H as (evs3 & E3 & B3).
      exists (evs1 ++ evs2 ++ evs3).
      split; [by rewrite E3, E2, E1, <- !app_assoc|].
      right. by rewrite !report_brackets_app, B1, B2, B3.
Qed.

(** Whatever its end, a run of [pipeline] that opens the report closes
    it; a run that does not open it has failed. *)
Lemma pipeline_brackets args paths accs w r w' :
  pipeline spawn resolve args paths accs w = (r, w') ->
  exists evs,
    trace w' = trace w ++ evs
    /\ ((report_brackets evs = [] /\ exists e, r = inl e)
        \/ report_brackets evs =
             [EvOpen (Pathlib.str (out_path_of resolve args));
              EvClose (Pathlib.str (out_path_of resolve args))]).
Proof.
  rewrite pipeline_phases. intros H.
  apply fetch_build_brackets in H as (evs & E & B).
  exists (EvMkdir (Pathlib.str (tmp_dir_of resolve args))
          :: EvMkdir (Pathlib.str (outdir_of resolve args)) :: evs).
  split; [|exact B].
  rewrite E. cbn [emit trace]. by rewrite <- !app_assoc.
Qed.

Lemma main_brackets args w r w' :
  main spawn resolve args w = (r, w') ->
  exists evs,
    trace w' = trace w ++ evs
    /\ ((report_brackets evs = [] /\ exists e, r = inl e)
        \/ report_brackets evs =
             [EvOpen (Pathlib.str (out_path_of resolve args));
              EvClose (Pathlib.str (out_path_of resolve args))]).
Proof.
  intros H. apply main_cases in H as [[-> He]|(A & I & _ & _ & _ & _ & H)].
  { exists []. rewrite app_nil_r. split; [done|]. by left. }
  by apply pipeline_brackets in H.
Qed.

End Closing.

(** ** Names and places *)

Lemma sanitize_basename_algorithm p :
  last_is_lf (Pathlib.name (Pathlib.parse p)) = false ->
  sanitize_basename p = Spec.sanitize p.
Proof.
  intros H. rewrite sanitize_basename_squash. unfold Spec.sanitize.
  by rewrite sub_suffix.
Qed.

Lemma name_parse_component n :
  component n -> Pathlib.name (Pathlib.parse n) = n.
Proof. intros Hn. by rewrite parse_component. Qed.

Lemma sanitize_basename_in_dir d n :
  component n ->
  sanitize_basename (d +:+ "/" +:+ n) = sanitize_basename n.
Proof.
  intros Hn. rewrite !sanitize_basename_squash.
  by rewrite name_parse_in_dir, name_parse_component.
Qed.

Lemma tail_joinpath_component p n :
  component n -> Pathlib.tail (Pathlib.joinpath p n) <> [].
Proof.
  intros Hn. rewrite joinpath_component by done. cbn [Pathlib.tail].
  by destruct (Pathlib.tail p).
Qed.

Lemma queries_component : component "queries".
Proof. by repeat split. Qed.

Lemma blastdb_component : component "blastdb".
Proof. by repeat split. Qed.

Lemma tmp_component : component "tmp".
Proof. by repeat split. Qed.

Section Layout.

Variable resolve : Path -> Path.
Variable args : Args.

Lemma str_fasta_path acc :
  free_of "/" acc = true ->
  Pathlib.str (fasta_path_of (queries_dir_of resolve args) acc)
  = Pathlib.str (queries_dir_of resolve args) +:+ "/" +:+ acc +:+ ".fasta".
Proof.
  intros Ha. unfold fasta_path_of. apply str_joinpath_component.
  - by apply fasta_name_component.
  - apply tail_joinpath_component, queries_component.
Qed.

Lemma str_db_prefix asm :
  Pathlib.str (db_prefix_of (db_dir_of resolve args) asm)
  = Pathlib.str (db_dir_of resolve args) +:+ "/"
      +:+ sanitize_basename (Pathlib.str asm) +:+ "_asm_db".
Proof.
  unfold db_prefix_of. apply str_joinpath_component.
  - apply db_name_component.
  - apply tail_joinpath_component, blastdb_component.
Qed.

Lemma str_tmp_out acc asm :
  free_of "/" acc = true ->
  Pathlib.str (tmp_out_of (tmp_dir_of resolve args) acc asm)
  = Pathlib.str (tmp_dir_of resolve args) +:+ "/"
      +:+ comparison_of acc asm +:+ ".tsv".
Proof.
  intros Ha. unfold tmp_out_of. apply str_joinpath_component.
  - by apply tmp_name_component.
  - apply tail_joinpath_component, tmp_component.
Qed.

End Layout.

(** ** The list files *)

Section ListFiles.

Context {Env : Type}.
Implicit Types w : world Env.

(** [read_list_files]: the items of the files, file after file; or the
    error for the first file that is missing, and then no item at all. *)
Lemma read_list_files_spec l w :
  read_list_files l w =
    match find (fun fp => Spec.missing (files w) (Pathlib.parse fp)) l with
    | Some fp => (inl (FileNotFoundError ("List file not found: " +:+ fp)), w)
    | None => (inr (flat_map (Spec.listed (files w)) l), w)
    end.
Proof.
  destruct (find _ l) as [fp|] eqn:Hf.
  - by apply read_list_files_missing.
  - by apply read_list_files_found.
Qed.

End ListFiles.

(** ** More of the script *)

(** X1.  [sanitize_basename], step by step.  For a path whose final
    component does not end with a line feed, the two substitutions of the
    script give the final component without one trailing recognised ending
    (.fa, .fna, .fasta or .fas, with or without .gz behind it, in any case),
    each run of characters outside [[A-Za-z0-9._-]] turned into one
    underscore. *)
Theorem X1_sanitize_basename_by_steps p :
  last_is_lf (Pathlib.name (Pathlib.parse p)) = false ->
  sanitize_basename p = Spec.sanitize p.
Proof. apply sanitize_basename_algorithm. Qed.

Lemma X1_sanitize_basename_by_steps_witness :
  last_is_lf (Pathlib.name (Pathlib.parse "/data/My genome (v2).FASTA.gz"))
    = false
  /\ sanitize_basename "/data/My genome (v2).FASTA.gz"
     = Spec.sanitize "/data/My genome (v2).FASTA.gz".
Proof.
  split; [reflexivity|].
  apply (X1_sanitize_basename_by_steps "/data/My genome (v2).FASTA.gz").
  reflexivity.
Defined.

(** X2.  Whatever the path, the key that [sanitize_basename] returns holds
    only letters, digits, dots, underscores and hyphens; so it has no slash,
    and the names built from it stay in one directory. *)
Theorem X2_sanitize_basename_charset p :
  all_chars Spec.safe (sanitize_basename p) = true
  /\ free_of "/" (sanitize_basename p) = true.
Proof.
  split; [apply sanitize_basename_safe|apply sanitize_basename_no_slash].
Qed.

(** X3.  Only the final component of the path counts: two assemblies of
    the same file name in different directories have the same key. *)
Theorem X3_sanitize_basename_last_component d n :
  component n ->
  sanitize_basename (d +:+ "/" +:+ n) = sanitize_basename n.
Proof. apply sanitize_basename_in_dir. Qed.

Lemma X3_sanitize_basename_last_component_witness :
  component "genome.fasta"
  /\ sanitize_basename ("/data/run1" +:+ "/" +:+ "genome.fasta")
     = sanitize_basename "genome.fasta".
Proof.
  assert (component "genome.fasta") as H by (by repeat split).
  split; [exact H|].
  apply (X3_sanitize_basename_last_component "/data/run1" "genome.fasta").
  exact H.
Defined.

(** X4.  Where a run keeps its files.  For an accession without a slash
    the download is [<queries>/<accession>.fasta] and the result of a pair
    is [<tmp>/<accession>_vs_<key>_asm_db.tsv]; the index prefix of an
    assembly is [<blastdb>/<key>_asm_db], whatever the assembly. *)
Theorem X4_cache_layout resolve args acc asm :
  free_of "/" acc = true ->
  Pathlib.str (fasta_path_of (queries_dir_of resolve args) acc)
  = Pathlib.str (queries_dir_of resolve args) +:+ "/" +:+ acc +:+ ".fasta"
  /\ Pathlib.str (db_prefix_of (db_dir_of resolve args) asm)
     = Pathlib.str (db_dir_of resolve args) +:+ "/"
         +:+ sanitize_basename (Pathlib.str asm) +:+ "_asm_db"
  /\ Pathlib.str (tmp_out_of (tmp_dir_of resolve args) acc asm)
     = Pathlib.str (tmp_dir_of resolve args) +:+ "/"
         +:+ acc +:+ "_vs_" +:+ sanitize_basename (Pathlib.str asm)
         +:+ "_asm_db" +:+ ".tsv".
Proof.
  intros Ha. split; [by apply str_fasta_path|].
  split; [apply str_db_prefix|].
  rewrite str_tmp_out by done. unfold comparison_of.
  by rewrite !append_assoc.
Qed.

Lemma X4_cache_layout_witness :
  let args := Toy.args_of ["/data/genome.fasta"] ["NC_001"] in
  let asm := Pathlib.parse "/data/genome.fasta" in
  free_of "/" "NC_001" = true
  /\ Pathlib.str (fasta_path_of (queries_dir_of id args) "NC_001")
     = Pathlib.str (queries_dir_of id args) +:+ "/" +:+ "NC_001" +:+ ".fasta"
  /\ Pathlib.str (db_prefix_of (db_dir_of id args) asm)
     = Pathlib.str (db_dir_of id args) +:+ "/"
         +:+ sanitize_basename (Pathlib.str asm) +:+ "_asm_db"
  /\ Pathlib.str (tmp_out_of (tmp_dir_of id args) "NC_001" asm)
     = Pathlib.str (tmp_dir_of id args) +:+ "/"
         +:+ "NC_001" +:+ "_vs_" +:+ sanitize_basename (Pathlib.str asm)
         +:+ "_asm_db" +:+ ".tsv".
Proof.
  split; [reflexivity|].
  apply (X4_cache_layout id (Toy.args_of ["/data/genome.fasta"] ["NC_001"])
           "NC_001" (Pathlib.parse "/data/genome.fasta")).
  reflexivity.
Defined.

(** X5.  The files [db_exists] looks for.  For the index prefix of an
    assembly in a directory that is not a bare root, [db_exists] holds
    exactly when the three files [<dir>/<name><suffix>] are there and not
    empty, where the name is the key up to its last dot when the key has a
    dot behind its first character, and [<key>_asm_db] otherwise.  It reads
    the files and changes nothing. *)
Theorem X5_db_exists_checked_files {Env} db_dir asm (w : world Env) :
  Pathlib.tail db_dir <> [] ->
  db_exists (db_prefix_of db_dir asm) w =
    (inr (forallb (nonempty_at (files w))
            (map (fun suf =>
                    Pathlib.str db_dir +:+ "/"
                      +:+ checked_name (sanitize_basename (Pathlib.str asm))
                      +:+ suf) db_suffixes)), w).
Proof. apply db_exists_db_prefix. Qed.

Lemma X5_db_exists_checked_files_witness :
  let db_dir := Pathlib.parse "/w/blastdb" in
  let asm := Pathlib.parse "/data/genome.v2.fasta" in
  let w := Toy.world_with {[ "/w/blastdb/genome.nhr" := "h" ]} in
  Pathlib.tail db_dir <> []
  /\ checked_name (sanitize_basename (Pathlib.str asm)) = "genome"
  /\ db_exists (db_prefix_of db_dir asm) w =
       (inr (forallb (nonempty_at (files w))
               (map (fun suf =>
                       Pathlib.str db_dir +:+ "/"
                         +:+ checked_name (sanitize_basename (Pathlib.str asm))
                         +:+ suf) db_suffixes)), w).
Proof.
  split; [by vm_compute|]. split; [reflexivity|].
  apply (X5_db_exists_checked_files (Pathlib.parse "/w/blastdb")
           (Pathlib.parse "/data/genome.v2.fasta")
           (Toy.world_with {[ "/w/blastdb/genome.nhr" := "h" ]})).
  by vm_compute.
Defined.

(** X6.  The index cache for a key without a dot behind its first
    character.  [make_db_if_needed] creates the directory of the prefix;
    then it returns without calling the builder when the three companion
    files of the layout are there and not empty, and runs the builder
    otherwise. *)
Theorem X6_index_cache_plain_key {Env} spawn db_dir asm (w : world Env) :
  inner_dot (sanitize_basename (Pathlib.str asm)) = false ->
  let db := db_prefix_of db_dir asm in
  make_db_if_needed spawn asm db w =
    if Spec.index_cached (files w) db
    then (inr tt, emit (EvMkdir (Pathlib.str (Pathlib.parent db))) w)
    else run spawn (makeblastdb_cmd asm db)
           (emit (EvMkdir (Pathlib.str (Pathlib.parent db))) w).
Proof.
  intros Hk db. apply make_db_if_needed_plain.
  - apply name_db_prefix_ne.
  - by apply suffix_db_prefix.
Qed.

Lemma X6_index_cache_plain_key_witness :
  let tools := Toy.tools Toy.fasta_of None 0 in
  let asm := Pathlib.parse "/data/genome.fasta" in
  let db := db_prefix_of (Pathlib.parse "/w/blastdb") asm in
  let w :=
    Toy.world_with
      {[ "/w/blastdb/genome_asm_db.nhr" := "h";
         "/w/blastdb/genome_asm_db.nin" := "i";
         "/w/blastdb/genome_asm_db.nsq" := "s" ]} in
  inner_dot (sanitize_basename (Pathlib.str asm)) = false
  /\ Spec.index_cached (files w) db = true
  /\ make_db_if_needed tools asm db w =
       if Spec.index_cached (files w) db
       then (inr tt, emit (EvMkdir (Pathlib.str (Pathlib.parent db))) w)
       else run tools (makeblastdb_cmd asm db)
              (emit (EvMkdir (Pathlib.str (Pathlib.parent db))) w).
Proof.
  split; [reflexivity|]. split; [reflexivity|].
  apply (X6_index_cache_plain_key (Toy.tools Toy.fasta_of None 0)
           (Pathlib.parse "/w/blastdb") (Pathlib.parse "/data/genome.fasta")
           (Toy.world_with
              {[ "/w/blastdb/genome_asm_db.nhr" := "h";
                 "/w/blastdb/genome_asm_db.nin" := "i";
                 "/w/blastdb/genome_asm_db.nsq" := "s" ]})).
  reflexivity.
Defined.

(** X7.  The errors of a run.  When [main] ends with an error, either it
    is one of the four input errors, and then the world is as it was; or it
    is a [RuntimeError] of a tool: a command that returned a status other
    than 0, or a download that does not begin with the record marker.
    Nothing else is raised: no dictionary lookup of [main] fails, and
    [with_suffix] is never given a path without a name. *)
Theorem X7_errors_of_a_run {Env} spawn resolve args (w : world Env) e w' :
  main spawn resolve args w = (inl e, w') ->
  (Spec.input_fault resolve args (files w) e /\ w' = w) \/ tool_fault e.
Proof. apply main_errors. Qed.

Lemma X7_errors_of_a_run_witness :
  let tools := Toy.tools (fun _ => "<html>") None 0 in
  let args := Toy.args_of ["/data/genome.fasta"] ["NC_001"] in
  let w := Toy.world_with {[ "/data/genome.fasta" := ">chr1" ]} in
  let e := RuntimeError (not_fasta "NC_001" "<html>") in
  main tools id args w = (inl e, (main tools id args w).2)
  /\ ((Spec.input_fault id args (files w) e /\ (main tools id args w).2 = w)
      \/ tool_fault e).
Proof.
  split; [by vm_compute|].
  apply (X7_errors_of_a_run (Toy.tools (fun _ => "<html>") None 0) id
           (Toy.args_of ["/data/genome.fasta"] ["NC_001"])
           (Toy.world_with {[ "/data/genome.fasta" := ">chr1" ]})
           (RuntimeError (not_fasta "NC_001" "<html>"))
           (main (Toy.tools (fun _ => "<html>") None 0) id
              (Toy.args_of ["/data/genome.fasta"] ["NC_001"])
              (Toy.world_with {[ "/data/genome.fasta" := ">chr1" ]})).2).
  by vm_compute.
Defined.

(** X8.  The download cache, call after call.  When
    [ensure_fasta_download] returns, the download of the accession is there
    and not empty, and a second call for the same accession returns the
    same path without calling the fetch tool: it only creates the
    directory again. *)
Theorem X8_fetch_cache_idempotent {Env} spawn g acc q (w : world Env) p w' :
  ensure_fasta_download spawn g acc q w = (inr p, w') ->
  p = fasta_path_of q acc
  /\ present (files w') p = true
  /\ ensure_fasta_download spawn g acc q w' =
       (inr p, emit (EvMkdir (Pathlib.str q)) w').
Proof.
  intros H. pose proof (ensure_fasta_download_result _ _ _ _ _ _ _ H) as Hp.
  split; [done|]. split.
  - rewrite Hp. eapply ensure_fasta_download_present. exact H.
  - eapply ensure_fasta_download_again. exact H.
Qed.

Lemma X8_fetch_cache_idempotent_witness :
  let tools := Toy.tools Toy.fasta_of None 0 in
  let q := Pathlib.parse "/w/queries" in
  let first := ensure_fasta_download tools "get_ref.sh" "NC_001" q
                 (Toy.world_with ∅) in
  first.1 = inr (fasta_path_of q "NC_001")
  /\ files first.2 = {[ "/w/queries/NC_001.fasta" := ">NC_001" ]}
  /\ present (files first.2) (fasta_path_of q "NC_001") = true
  /\ ensure_fasta_download tools "get_ref.sh" "NC_001" q first.2 =
       (inr (fasta_path_of q "NC_001"), emit (EvMkdir (Pathlib.str q)) first.2).
Proof.
  split; [by vm_compute|]. split; [by vm_compute|].
  apply (X8_fetch_cache_idempotent (Toy.tools Toy.fasta_of None 0)
           "get_ref.sh" "NC_001" (Pathlib.parse "/w/queries")
           (Toy.world_with ∅) (fasta_path_of (Pathlib.parse "/w/queries") "NC_001")
           (ensure_fasta_download (Toy.tools Toy.fasta_of None 0)
              "get_ref.sh" "NC_001" (Pathlib.parse "/w/queries")
              (Toy.world_with ∅)).2).
  by vm_compute.
Defined.

(** X9.  A second run fetches nothing.  With tools that neither remove nor
    empty a file, after a run that returned, a run with the same arguments
    and the same list of accessions calls the fetch tool for no
    accession. *)
Theorem X9_second_run_fetches_nothing {Env} spawn resolve args
    (w : world Env) z w1 :
  keeps_all spawn ->
  main spawn resolve args w = (inr z, w1) ->
  Spec.accessions args (files w1) = Spec.accessions args (files w) ->
  exists evs,
    trace (main spawn resolve args w1).2 = trace w1 ++ evs
    /\ shell_outs evs = [].
Proof. apply second_run_fetches_nothing. Qed.

Lemma X9_second_run_fetches_nothing_witness :
  let tools := Toy.tools Toy.fasta_of None 0 in
  let args := Toy.args_of ["/data/genome.fasta"] ["NC_001"; "NC_002"] in
  let w := Toy.world_with {[ "/data/genome.fasta" := ">chr1" ]} in
  let w1 := (main tools id args w).2 in
  keeps_all tools
  /\ main tools id args w = (inr 0%Z, w1)
  /\ shell_outs (trace w1)
     = [["get_ref.sh"; "NC_001"]; ["get_ref.sh"; "NC_002"]]
  /\ exists evs,
       trace (main tools id args w1).2 = trace w1 ++ evs
       /\ shell_outs evs = [].
Proof.
  split; [apply toy_tools_keep_all|]. split; [by vm_compute|].
  split; [by vm_compute|].
  apply (X9_second_run_fetches_nothing (Toy.tools Toy.fasta_of None 0) id
           (Toy.args_of ["/data/genome.fasta"] ["NC_001"; "NC_002"])
           (Toy.world_with {[ "/data/genome.fasta" := ">chr1" ]}) 0%Z).
  - apply toy_tools_keep_all.
  - by vm_compute.
  - by vm_compute.
Defined.

(** X10.  A second run builds nothing, for keys without a dot behind
    their first character.  With tools that neither remove nor empty a file
    and an index builder that leaves the three companion files of the
    prefix it is given, after a run that returned, a run with the same
    arguments and the same list of assemblies calls the index builder for
    no assembly. *)
Theorem X10_second_run_builds_nothing {Env} spawn resolve args
    (w : world Env) z w1 :
  keeps_all spawn -> builds_index spawn ->
  main spawn resolve args w = (inr z, w1) ->
  Spec.assemblies args (files w1) = Spec.assemblies args (files w) ->
  plain_keys (resolve_all resolve (Spec.assemblies args (files w))) ->
  exists evs,
    trace (main spawn resolve args w1).2 = trace w1 ++ evs
    /\ makedb_runs evs = [].
Proof. apply second_run_builds_nothing. Qed.

Lemma X10_second_run_builds_nothing_witness :
  let tools := Toy.tools Toy.fasta_of None 0 in
  let args := Toy.args_of ["/data/genome.fasta"] ["NC_001"] in
  let w := Toy.world_with {[ "/data/genome.fasta" := ">chr1" ]} in
  let w1 := (main tools id args w).2 in
  keeps_all tools /\ builds_index tools
  /\ main tools id args w = (inr 0%Z, w1)
  /\ length (makedb_runs (trace w1)) = 1
  /\ exists evs,
       trace (main tools id args w1).2 = trace w1 ++ evs
       /\ makedb_runs evs = [].
Proof.
  split; [apply toy_tools_keep_all|]. split; [apply toy_tools_build_index|].
  split; [by vm_compute|]. split; [by vm_compute|].
  apply (X10_second_run_builds_nothing (Toy.tools Toy.fasta_of None 0) id
           (Toy.args_of ["/data/genome.fasta"] ["NC_001"])
           (Toy.world_with {[ "/data/genome.fasta" := ">chr1" ]}) 0%Z).
  - apply toy_tools_keep_all.
  - apply toy_tools_build_index.
  - by vm_compute.
  - by vm_compute.
  - intros m Hm. vm_compute in Hm.
    apply list_elem_of_singleton in Hm as ->. reflexivity.
Defined.

(** X11.  What [split_commas] returns.  Every item is not empty, has no
    white space at either end and no comma; splitting the items again
    gives the same items. *)
Theorem X11_split_commas_items values :
  Forall (fun p => clean p /\ free_of "," p = true) (split_commas values)
  /\ split_commas (split_commas values) = split_commas values.
Proof.
  split; [apply split_commas_clean|].
  apply split_commas_id, split_commas_clean.
Qed.

(** X12.  [split_commas] leaves alone the values that need no splitting:
    a list of values that are not empty, stripped and without a comma comes
    back as it is, in the same order and with its repetitions. *)
Theorem X12_split_commas_plain_values values :
  Forall (fun v => clean v /\ free_of "," v = true) values ->
  split_commas values = values.
Proof. apply split_commas_id. Qed.

Lemma X12_split_commas_plain_values_witness :
  Forall (fun v => clean v /\ free_of "," v = true) ["NC_001"; "NC 2"; "NC_001"]
  /\ split_commas ["NC_001"; "NC 2"; "NC_001"] = ["NC_001"; "NC 2"; "NC_001"].
Proof.
  assert (Forall (fun v => clean v /\ free_of "," v = true)
            ["NC_001"; "NC 2"; "NC_001"]) as H
    by (repeat constructor; done).
  split; [exact H|].
  apply (X12_split_commas_plain_values ["NC_001"; "NC 2"; "NC_001"]).
  exact H.
Defined.

(** X13.  The items of a list file.  Every item is not empty, has no white
    space at either end and does not begin with the comment sign. *)
Theorem X13_list_items_clean text :
  Forall (fun s => clean s /\ Str.startswith s "#" = false) (list_items text).
Proof. apply list_items_clean. Qed.

(** X14.  The rows of a result file.  Each row begins with the label of
    the pair, and the fields behind the label, joined by tabs, give back
    the lines of the file that are not blank, in their order: no field is
    added, dropped or changed. *)
Theorem X14_hit_rows_round_trip comparison lines :
  Forall (fun row => head row = Some comparison) (hit_rows comparison lines)
  /\ map (fun row => Str.join (String Str.TAB "") (tail row))
       (hit_rows comparison lines)
     = filter (fun line => Str.strip line <> "") lines.
Proof. apply hit_rows_lines. Qed.

(** X15.  When a pair leaves no row.  The rows written for a pair are
    none exactly when its result file is there, is not empty and has only
    blank lines; in every other case the pair has at least one row. *)
Theorem X15_pair_without_rows fs tmp_out comparison :
  pair_rows fs tmp_out comparison = [] <->
  exists data,
    fs !! Pathlib.str tmp_out = Some data /\ data <> ""
    /\ Forall (fun line => Str.strip line = "")
         (Str.splitlines (Str.universal_newlines data)).
Proof. apply pair_rows_nil. Qed.

(** X16.  The report of a run that returns.  [main] returns 0, and the
    report holds the header and then, for each accession in the order of
    the list and under it each assembly in the order of the list, the rows
    of that pair: the rows of its result file, or the placeholder. *)
Theorem X16_report_of_a_run {Env} spawn resolve args (w : world Env) z w' :
  main spawn resolve args w = (inr z, w') ->
  z = 0%Z
  /\ exists groups,
       tables w' !! Pathlib.str (out_path_of resolve args)
         = Some (header :: concat groups)
       /\ Forall2 (pair_group (tmp_dir_of resolve args))
            (all_pairs pair (Spec.accessions args (files w))
               (resolve_all resolve (Spec.assemblies args (files w))))
            groups
       /\ Forall (fun row =>
                    exists pr,
                      pr ∈ all_pairs pair (Spec.accessions args (files w))
                             (resolve_all resolve
                                (Spec.assemblies args (files w)))
                      /\ head row = Some (comparison_of pr.1 pr.2))
            (concat groups).
Proof.
  intros H. apply main_report in H as (Hz & groups & T & G).
  split; [done|]. exists groups. split; [done|]. split; [done|].
  by eapply groups_labels.
Qed.

Lemma X16_report_of_a_run_witness :
  let tools := Toy.tools Toy.fasta_of (Some "q1	s1	99.1") 0 in
  let args := Toy.args_of ["/data/genome.fasta"] ["NC_001"] in
  let w := Toy.world_with {[ "/data/genome.fasta" := ">chr1" ]} in
  let w' := (main tools id args w).2 in
  main tools id args w = (inr 0%Z, w')
  /\ 0%Z = 0%Z
  /\ exists groups,
       tables w' !! Pathlib.str (out_path_of id args)
         = Some (header :: concat groups)
       /\ Forall2 (pair_group (tmp_dir_of id args))
            (all_pairs pair (Spec.accessions args (files w))
               (resolve_all id (Spec.assemblies args (files w))))
            groups
       /\ Forall (fun row =>
                    exists pr,
                      pr ∈ all_pairs pair (Spec.accessions args (files w))
                             (resolve_all id (Spec.assemblies args (files w)))
                      /\ head row = Some (comparison_of pr.1 pr.2))
            (concat groups).
Proof.
  split; [by vm_compute|].
  apply (X16_report_of_a_run (Toy.tools Toy.fasta_of (Some "q1	s1	99.1") 0) id
           (Toy.args_of ["/data/genome.fasta"] ["NC_001"])
           (Toy.world_with {[ "/data/genome.fasta" := ">chr1" ]})).
  by vm_compute.
Defined.

(** X17.  Everything a run does.  Whatever its end, [main] does nothing
    but this: it creates the four directories of the layout; it calls the
    fetch tool with one accession of the list; it writes a download that
    begins with the record marker to the cache file of an accession of the
    list; it calls the index builder for an assembly of the list and its
    prefix; it calls the search tool for a pair of the two lists; it opens,
    writes and closes the report; it prints.  No other command is run and
    no other file is written. *)
Theorem X17_deeds_of_a_run {Env} spawn resolve args (w : world Env) :
  exists evs,
    trace (main spawn resolve args w).2 = trace w ++ evs
    /\ Forall (allowed resolve args (Spec.accessions args (files w))
                 (resolve_all resolve (Spec.assemblies args (files w)))) evs.
Proof.
  destruct (main spawn resolve args w) as [r w'] eqn:H.
  by apply main_allowed in H.
Qed.

(** X18.  What a run leaves in the caches.  With tools that neither remove
    nor empty a file, after a run that returned the download of every
    accession of the list is there and not empty; with an index builder
    that leaves the three companion files of the prefix it is given, and
    keys without a dot behind their first character, so are the companion
    files of every assembly of the list. *)
Theorem X18_run_fills_caches {Env} spawn resolve args (w : world Env) z w' :
  keeps_all spawn ->
  main spawn resolve args w = (inr z, w') ->
  (forall a, a ∈ Spec.accessions args (files w) ->
     present (files w') (fasta_path_of (queries_dir_of resolve args) a) = true)
  /\ (builds_index spawn ->
      plain_keys (resolve_all resolve (Spec.assemblies args (files w))) ->
      forall m, m ∈ resolve_all resolve (Spec.assemblies args (files w)) ->
        Spec.index_cached (files w')
          (db_prefix_of (db_dir_of resolve args) m) = true).
Proof.
  intros Hk H. apply main_returns in H as (A & I & H1 & H).
  apply main_reads in H1 as [-> ->]. split.
  - by eapply pipeline_leaves_downloads.
  - intros Hb Hp. by eapply pipeline_leaves_indexes.
Qed.

Lemma X18_run_fills_caches_witness :
  let tools := Toy.tools Toy.fasta_of None 0 in
  let args := Toy.args_of ["/data/genome.fasta"] ["NC_001"] in
  let w := Toy.world_with {[ "/data/genome.fasta" := ">chr1" ]} in
  let w' := (main tools id args w).2 in
  keeps_all tools
  /\ main tools id args w = (inr 0%Z, w')
  /\ (forall a, a ∈ Spec.accessions args (files w) ->
        present (files w') (fasta_path_of (queries_dir_of id args) a) = true)
  /\ (builds_index tools ->
      plain_keys (resolve_all id (Spec.assemblies args (files w))) ->
      forall m, m ∈ resolve_all id (Spec.assemblies args (files w)) ->
        Spec.index_cached (files w')
          (db_prefix_of (db_dir_of id args) m) = true).
Proof.
  split; [apply toy_tools_keep_all|]. split; [by vm_compute|].
  apply (X18_run_fills_caches (Toy.tools Toy.fasta_of None 0) id
           (Toy.args_of ["/data/genome.fasta"] ["NC_001"])
           (Toy.world_with {[ "/data/genome.fasta" := ">chr1" ]}) 0%Z).
  - apply toy_tools_keep_all.
  - by vm_compute.
Defined.

(** X19.  The report is closed.  Whatever its end, a run opens the report
    at most once, and a run that opened it closes it, also when a search
    fails; a run that never opened it has ended with an error. *)
Theorem X19_report_closed {Env} spawn resolve args (w : world Env) :
  let run := main spawn resolve args w in
  exists evs,
    trace run.2 = trace w ++ evs
    /\ ((report_brackets evs = [] /\ exists e, run.1 = inl e)
        \/ report_brackets evs =
             [EvOpen (Pathlib.str (out_path_of resolve args));
              EvClose (Pathlib.str (out_path_of resolve args))]).
Proof.
  intros run. subst run.
  destruct (main spawn resolve args w) as [r w'] eqn:H.
  by apply main_brackets in H.
Qed.

(** X20.  The report of a run that fails.  A run that ends with an error
    either has not come to the report, having done nothing but create
    directories, fetch, cache downloads and build indexes; or one search
    failed, and then: the pairs of the run are the pairs whose search
    returned, the pair whose search failed, and the pairs behind it; the
    searches that were run are those of the first and of the second, in
    this order, and none of the pairs behind; the error is the one of the
    search that failed; and the report holds the header and the rows of
    the pairs whose search returned, those of each pair read from the
    files as the search of that pair left them, and no row of the pair
    whose search failed or of a pair behind it. *)
Theorem X20_report_of_a_failed_run {Env} spawn resolve args
    (w : world Env) e w' :
  main spawn resolve args w = (inl e, w') ->
  let out := out_path_of resolve args in
  let tmp_dir := tmp_dir_of resolve args in
  let cmd := search_of resolve args in
  let pairs :=
    all_pairs pair (Spec.accessions args (files w))
      (resolve_all resolve (Spec.assemblies args (files w))) in
  exists evs,
    trace w' = trace w ++ evs
    /\ (Forall before_report evs
        \/ exists w2 evs1 f later,
             let s := search_all spawn cmd pairs (files w2) (outside w2) in
             trace w2 = trace w ++ evs1
             /\ Forall before_report evs1
             /\ s.2 = Some f
             /\ returncode f.2.1.1 ≠ 0%Z
             /\ e = RuntimeError (command_failed (cmd f.1) f.2.1.1)
             /\ pairs = (fst <$> s.1) ++ f.1 :: later
             /\ blast_runs evs = cmd <$> ((fst <$> s.1) ++ [f.1])
             /\ tables w' !! Pathlib.str out
                = Some (header :: concat (rows_of tmp_dir <$> s.1))
             /\ (forall i d,
                   s.1 !! i = Some d ->
                   returncode d.2.1.1 = 0%Z
                   /\ d.2 = spawn (cmd d.1)
                              (search_end spawn cmd (take i pairs)
                                 (files w2) (outside w2)).1
                              (search_end spawn cmd (take i pairs)
                                 (files w2) (outside w2)).2)).
Proof.
  intros H out tmp_dir cmd pairs.
  apply main_run in H as (evs1 & F1 & [[E He]|(w2 & E2 & R & T & B)]).
  { exists evs1. split; [done|]. by left. }
  cbn zeta in R, T, B. fold cmd pairs in R, T, B.
  pose proof (search_all_pairs spawn cmd pairs (files w2) (outside w2))
    as [Fd P].
  pose proof (search_all_chain spawn cmd pairs (files w2) (outside w2))
    as Hch.
  cbn zeta in Fd, P, Hch.
  destruct (search_all spawn cmd pairs (files w2) (outside w2)) as [dn fo]
    eqn:Hs.
  cbn [fst snd] in *. destruct fo as [f|]; [|done].
  destruct P as [Hf [later P]]. cbn [search_result] in R.
  injection R as ->.
  eexists. split.
  { rewrite T, E2, <- app_assoc. reflexivity. }
  right. exists w2, evs1, f, later. rewrite Hs. cbn [fst snd].
  repeat split; try done.
  - rewrite blast_runs_app, (blast_runs_before evs1 F1).
    change (blast_runs (?a :: ?b :: ?l)) with (blast_runs l).
    rewrite blast_runs_app. subst cmd.
    rewrite blast_runs_events_of, blast_runs_report_end.
    by rewrite fmap_app.
  - by eapply (Forall_lookup_1 _ _ _ _ Fd).
  - by apply Hch.
Qed.

Lemma X20_report_of_a_failed_run_witness :
  let tools :=
    Toy.flaky Toy.fasta_of (Some "q1	s1	99.1") "/w/queries/NC_002.fasta" in
  let args := Toy.args_of ["/data/genome.fasta"] ["NC_001"; "NC_002"] in
  let w := Toy.world_with {[ "/data/genome.fasta" := ">chr1" ]} in
  let asm := Pathlib.parse "/data/genome.fasta" in
  let e := RuntimeError
             (command_failed (search_of id args ("NC_002", asm))
                (MkProc 1 "" "no such database")) in
  let w' := (main tools id args w).2 in
  let out := out_path_of id args in
  let tmp_dir := tmp_dir_of id args in
  let cmd := search_of id args in
  let pairs :=
    all_pairs pair (Spec.accessions args (files w))
      (resolve_all id (Spec.assemblies args (files w))) in
  main tools id args w = (inl e, w')
  /\ Toy.report w'
     = Some [header; ["NC_001_vs_genome_asm_db"; "q1"; "s1"; "99.1"]]
  /\ exists evs,
       trace w' = trace w ++ evs
       /\ (Forall before_report evs
           \/ exists w2 evs1 f later,
                let s := search_all tools cmd pairs (files w2) (outside w2) in
                trace w2 = trace w ++ evs1
                /\ Forall before_report evs1
                /\ s.2 = Some f
                /\ returncode f.2.1.1 ≠ 0%Z
                /\ e = RuntimeError (command_failed (cmd f.1) f.2.1.1)
                /\ pairs = (fst <$> s.1) ++ f.1 :: later
                /\ blast_runs evs = cmd <$> ((fst <$> s.1) ++ [f.1])
                /\ tables w' !! Pathlib.str out
                   = Some (header :: concat (rows_of tmp_dir <$> s.1))
                /\ (forall i d,
                      s.1 !! i = Some d ->
                      returncode d.2.1.1 = 0%Z
                      /\ d.2 = tools (cmd d.1)
                                 (search_end tools cmd (take i pairs)
                                    (files w2) (outside w2)).1
                                 (search_end tools cmd (take i pairs)
                                    (files w2) (outside w2)).2)).
Proof.
  split; [by vm_compute|]. split; [by vm_compute|].
  apply (X20_report_of_a_failed_run
           (Toy.flaky Toy.fasta_of (Some "q1	s1	99.1") "/w/queries/NC_002.fasta") id
           (Toy.args_of ["/data/genome.fasta"] ["NC_001"; "NC_002"])
           (Toy.world_with {[ "/data/genome.fasta" := ">chr1" ]})).
  by vm_compute.
Defined.

(** X21.  [read_list_files], file after file.  When every list file is
    there, the result is the items of the first file, then those of the
    second, and so on, the items of a file being its lines that count,
    stripped; when one is missing, the result is the error that names the
    first missing file, whatever the other files hold.  Nothing is
    changed. *)
Theorem X21_read_list_files_in_order {Env} l (w : world Env) :
  read_list_files l w =
    match find (fun fp => Spec.missing (files w) (Pathlib.parse fp)) l with
    | Some fp => (inl (FileNotFoundError ("List file not found: " +:+ fp)), w)
    | None => (inr (flat_map (Spec.listed (files w)) l), w)
    end.
Proof. apply read_list_files_spec. Qed.
